(** * patient-report-app: age-band aggregation and weekly-file reconciliation

    A shallow embedding of the decision logic of [src/App.jsx] (the
    interactive upload path) and of [scripts/apps-script/weekly-report.gs]
    (the scheduled job), followed by the properties of that logic.

    Layout: Part I holds the model (JavaScript values, numbers, strings,
    the civil calendar behind [Date], and then the functions of the
    program under their own names, those of the report endpoint
    [api/reports.js] included); Part II holds the lemmas and the
    theorems of the specification; Part III holds further properties of
    the code. *)

From Stdlib Require Import Ascii String.
From Stdlib Require Import ZArith NArith QArith Qround Qreduction.
From Stdlib Require Import List Bool Lia Permutation Sorted.
Import ListNotations.

Open Scope Z_scope.

(* ================================================================== *)
(** * Part I - the model                                               *)
(* ================================================================== *)

(** ** JavaScript strings

    A string is its sequence of UTF-16 code units. *)

Definition codeunit := N.
Definition jsstring := list codeunit.

(** An ASCII literal as a JavaScript string. *)
Definition str (s : string) : jsstring :=
  map N_of_ascii (list_ascii_of_string s).

Definition cu_eqb (a b : codeunit) : bool := N.eqb a b.

Fixpoint jsstring_eqb (a b : jsstring) : bool :=
  match a, b with
  | [], [] => true
  | x :: a', y :: b' => cu_eqb x y && jsstring_eqb a' b'
  | _, _ => false
  end.

(** [\d] : the ten ASCII digits. *)
Definition is_digit (c : codeunit) : bool :=
  (N.leb 48 c && N.leb c 57)%bool.

Definition digit_value (c : codeunit) : Z := Z.of_N c - 48.

(** WhiteSpace and LineTerminator code units, the set that
    [String.prototype.trim] and the string-to-number conversion strip. *)
Definition is_whitespace (c : codeunit) : bool :=
  existsb (N.eqb c)
    [9; 10; 11; 12; 13; 32; 160; 5760; 8192; 8193; 8194; 8195; 8196; 8197;
     8198; 8199; 8200; 8201; 8202; 8232; 8233; 8239; 8287; 12288; 65279]%N.

Fixpoint drop_while (p : codeunit -> bool) (s : jsstring) : jsstring :=
  match s with
  | [] => []
  | c :: s' => if p c then drop_while p s' else s
  end.

(** [s.trim()] *)
Definition trim (s : jsstring) : jsstring :=
  rev (drop_while is_whitespace (rev (drop_while is_whitespace s))).

(** Greedy [\d*] at the head of a string: the digits taken and the rest. *)
Fixpoint take_digits (s : jsstring) : jsstring * jsstring :=
  match s with
  | [] => ([], [])
  | c :: s' =>
      if is_digit c
      then let (ds, rest) := take_digits s' in (c :: ds, rest)
      else ([], s)
  end.

(** The value of a run of decimal digits. *)
Definition digits_value (ds : jsstring) : Z :=
  fold_left (fun acc c => 10 * acc + digit_value c) ds 0.

(** [s.split(sep)] for a one-code-unit separator. *)
Fixpoint split_on (sep : codeunit) (s : jsstring) : list jsstring :=
  match s with
  | [] => [[]]
  | c :: s' =>
      if cu_eqb c sep then [] :: split_on sep s'
      else match split_on sep s' with
           | [] => [[c]]
           | p :: ps => (c :: p) :: ps
           end
  end.

(** [a.join(', ')] *)
Fixpoint join (sep : jsstring) (parts : list jsstring) : jsstring :=
  match parts with
  | [] => []
  | [p] => p
  | p :: ps => p ++ sep ++ join sep ps
  end.

(** Comparison of strings by code units, the order of the default
    [Array.prototype.sort]. *)
Fixpoint jsstring_leb (a b : jsstring) : bool :=
  match a, b with
  | [], _ => true
  | _ :: _, [] => false
  | x :: a', y :: b' =>
      if N.ltb x y then true
      else if N.ltb y x then false
      else jsstring_leb a' b'
  end.

Fixpoint insert_sorted (x : jsstring) (l : list jsstring) : list jsstring :=
  match l with
  | [] => [x]
  | y :: l' => if jsstring_leb x y then x :: l else y :: insert_sorted x l'
  end.

(** [a.sort()] on an array of strings. *)
Definition sort_strings (l : list jsstring) : list jsstring :=
  fold_right insert_sorted [] l.

Definition includes (l : list jsstring) (x : jsstring) : bool :=
  existsb (jsstring_eqb x) l.

(** [Array.from(new Set(a))]: the first occurrence of every element, in
    order. *)
Fixpoint uniq_from (seen : list jsstring) (l : list jsstring) : list jsstring :=
  match l with
  | [] => []
  | x :: l' =>
      if includes seen x then uniq_from seen l'
      else x :: uniq_from (x :: seen) l'
  end.

Definition uniq (l : list jsstring) : list jsstring := uniq_from [] l.

(** Decimal digits of a non-negative integer, as [String(n)] prints it. *)
Fixpoint uint_to_jsstring (u : Decimal.uint) : jsstring :=
  match u with
  | Decimal.Nil => []
  | Decimal.D0 u' => 48%N :: uint_to_jsstring u'
  | Decimal.D1 u' => 49%N :: uint_to_jsstring u'
  | Decimal.D2 u' => 50%N :: uint_to_jsstring u'
  | Decimal.D3 u' => 51%N :: uint_to_jsstring u'
  | Decimal.D4 u' => 52%N :: uint_to_jsstring u'
  | Decimal.D5 u' => 53%N :: uint_to_jsstring u'
  | Decimal.D6 u' => 54%N :: uint_to_jsstring u'
  | Decimal.D7 u' => 55%N :: uint_to_jsstring u'
  | Decimal.D8 u' => 56%N :: uint_to_jsstring u'
  | Decimal.D9 u' => 57%N :: uint_to_jsstring u'
  end.

(** [String(z)] for an integer-valued number. *)
Definition int_to_jsstring (z : Z) : jsstring :=
  match z with
  | Z0 => [48%N]
  | Zpos p => uint_to_jsstring (Pos.to_uint p)
  | Zneg p => 45%N :: uint_to_jsstring (Pos.to_uint p)
  end.

(** [s.padStart(2, '0')] *)
Definition padStart2 (s : jsstring) : jsstring :=
  match s with
  | [] => [48%N; 48%N]
  | [c] => [48%N; c]
  | _ => s
  end.

(** ** JavaScript numbers

    A number is an IEEE-754 binary64 value.  The finite ones are carried
    by the rational they denote; the sign of zero is not represented (no
    function below tells [-0] from [0]: both pass [>= 0], [<= 120] and
    [Math.floor] alike). *)

Inductive number : Type :=
| NaN
| Infinity (negative : bool)
| Fin (q : Q).

Definition negate (x : number) : number :=
  match x with
  | NaN => NaN
  | Infinity b => Infinity (negb b)
  | Fin q => Fin (Qopp q)
  end.

(** [d * 2^e <= n], for an exponent of either sign. *)
Definition scaled_le (d e n : Z) : bool :=
  if 0 <=? e then d * 2 ^ e <=? n else d <=? n * 2 ^ (- e).

(** The binary exponent of [n / d] (both positive): the [e] with
    [2^e <= n/d < 2^(e+1)]. *)
Definition ilog2_ratio (n d : Z) : Z :=
  let e0 := Z.log2 n - Z.log2 d in
  if scaled_le d e0 n then e0 else e0 - 1.

(** [n / d] rounded to the nearest integer, ties to even. *)
Definition round_half_even (n d : Z) : Z :=
  let q := n / d in
  match 2 * (n mod d) ?= d with
  | Lt => q
  | Gt => q + 1
  | Eq => if Z.even q then q else q + 1
  end.

(** Rounding of the positive rational [n / d] to binary64, to nearest and
    ties to even: 53 significant bits, the unit in the last place never
    below [2^-1074], overflow to [Infinity] from [2^1024] on. *)
Definition round_pos (n d : Z) : number :=
  let e := ilog2_ratio n d in
  let ex := Z.max e (-1022) - 52 in
  if 0 <=? ex then
    let m := round_half_even n (d * 2 ^ ex) in
    if 2 ^ 1024 <=? m * 2 ^ ex then Infinity false
    else Fin (inject_Z (m * 2 ^ ex))
  else
    let m := round_half_even (n * 2 ^ (- ex)) d in
    Fin (Qred (m # Z.to_pos (2 ^ (- ex)))).

Definition round_double (q : Q) : number :=
  match Qnum q with
  | Z0 => Fin 0
  | Zpos _ => round_pos (Qnum q) (QDen q)
  | Zneg _ => negate (round_pos (- Qnum q) (QDen q))
  end.

Definition is_zero (q : Q) : bool := Qnum q =? 0.
Definition is_negative (q : Q) : bool := Qnum q <? 0.

(** [Number.isFinite(x)] on a number. *)
Definition isFinite (x : number) : bool :=
  match x with Fin _ => true | _ => false end.

(** ToBoolean on a number: [0] and [NaN] are falsy. *)
Definition truthy (x : number) : bool :=
  match x with
  | NaN => false
  | Infinity _ => true
  | Fin q => negb (is_zero q)
  end.

(** [x === y] on numbers. *)
Definition num_eqb (x y : number) : bool :=
  match x, y with
  | Fin p, Fin q => Qeq_bool p q
  | Infinity a, Infinity b => Bool.eqb a b
  | _, _ => false
  end.

(** [x - y] *)
Definition js_sub (x y : number) : number :=
  match x, y with
  | NaN, _ | _, NaN => NaN
  | Infinity a, Infinity b => if Bool.eqb a b then NaN else Infinity a
  | Infinity a, Fin _ => Infinity a
  | Fin _, Infinity b => Infinity (negb b)
  | Fin p, Fin q => round_double (p - q)
  end.

(** [x * y] *)
Definition js_mul (x y : number) : number :=
  match x, y with
  | NaN, _ | _, NaN => NaN
  | Infinity a, Infinity b => Infinity (xorb a b)
  | Infinity a, Fin q =>
      if is_zero q then NaN else Infinity (xorb a (is_negative q))
  | Fin p, Infinity b =>
      if is_zero p then NaN else Infinity (xorb (is_negative p) b)
  | Fin p, Fin q => round_double (p * q)
  end.

(** [x / y] *)
Definition js_div (x y : number) : number :=
  match x, y with
  | NaN, _ | _, NaN => NaN
  | Infinity _, Infinity _ => NaN
  | Infinity a, Fin q => Infinity (xorb a (is_negative q))
  | Fin _, Infinity _ => Fin 0
  | Fin p, Fin q =>
      if is_zero q
      then (if is_zero p then NaN else Infinity (is_negative p))
      else round_double (p / q)
  end.

(** *** String to number ([Number(s)] on a string)

    StringNumericLiteral of ECMAScript: surrounding white space is
    stripped; the empty string is [0]; then a [0x], [0o] or [0b] integer,
    or a signed decimal literal with optional fraction and exponent, or
    [Infinity]; anything else is [NaN]. *)

Definition radix_digit (radix : Z) (c : codeunit) : option Z :=
  let v :=
    if is_digit c then Z.of_N c - 48
    else if (N.leb 97 c && N.leb c 102)%bool then Z.of_N c - 87
    else if (N.leb 65 c && N.leb c 70)%bool then Z.of_N c - 55
    else 99 in
  if v <? radix then Some v else None.

Fixpoint radix_value (radix : Z) (acc : Z) (s : jsstring) : option Z :=
  match s with
  | [] => Some acc
  | c :: s' =>
      match radix_digit radix c with
      | Some v => radix_value radix (radix * acc + v) s'
      | None => None
      end
  end.

Definition radix_of_prefix (c : codeunit) : option Z :=
  if (N.eqb c 120 || N.eqb c 88)%bool then Some 16       (* x X *)
  else if (N.eqb c 111 || N.eqb c 79)%bool then Some 8   (* o O *)
  else if (N.eqb c 98 || N.eqb c 66)%bool then Some 2    (* b B *)
  else None.

(** [digits * 10^ex] as a number. *)
Definition decimal_to_number (digits : Z) (ex : Z) : number :=
  if 0 <=? ex then round_double (inject_Z (digits * 10 ^ ex))
  else round_double (digits # Z.to_pos (10 ^ (- ex))).

(** The optional ExponentPart and the end of the literal. *)
Definition exponent_part (int_part frac_part rest : jsstring) : number :=
  let digits := digits_value (int_part ++ frac_part) in
  let scale := - Z.of_nat (length frac_part) in
  match rest with
  | [] => decimal_to_number digits scale
  | c :: r =>
      if (N.eqb c 101 || N.eqb c 69)%bool then             (* e E *)
        let (neg, r') :=
          match r with
          | s :: r' =>
              if N.eqb s 43 then (false, r')                 (* + *)
              else if N.eqb s 45 then (true, r')             (* - *)
              else (false, r)
          | [] => (false, r)
          end in
        match take_digits r' with
        | ((_ :: _) as ed, []) =>
            let e := digits_value ed in
            decimal_to_number digits (scale + (if neg then - e else e))
        | _ => NaN
        end
      else NaN
  end.

Definition str_Infinity : jsstring := str "Infinity".

(** StrUnsignedDecimalLiteral *)
Definition unsigned_decimal (s : jsstring) : number :=
  if jsstring_eqb s str_Infinity then Infinity false
  else
    let (ip, r1) := take_digits s in
    match r1 with
    | c :: r2 =>
        if N.eqb c 46 then                                   (* . *)
          let (fp, r3) := take_digits r2 in
          match ip, fp with
          | [], [] => NaN
          | _, _ => exponent_part ip fp r3
          end
        else
          match ip with
          | [] => NaN
          | _ => exponent_part ip [] r1
          end
    | [] =>
        match ip with
        | [] => NaN
        | _ => exponent_part ip [] r1
        end
    end.

(** A literal with a radix prefix: [0x], [0o] or [0b] and digits. *)
Definition radix_literal (t : jsstring) : option number :=
  match t with
  | z :: p :: ds =>
      if N.eqb z 48 then
        match radix_of_prefix p with
        | Some radix =>
            Some match ds with
                 | [] => NaN
                 | _ => match radix_value radix 0 ds with
                        | Some v => round_double (inject_Z v)
                        | None => NaN
                        end
                 end
        | None => None
        end
      else None
  | _ => None
  end.

Definition StringToNumber (s : jsstring) : number :=
  match trim s with
  | [] => Fin 0
  | (c :: r) as t =>
      match radix_literal t with
      | Some x => x
      | None =>
          if N.eqb c 43 then unsigned_decimal r              (* + *)
          else if N.eqb c 45 then negate (unsigned_decimal r) (* - *)
          else unsigned_decimal t
      end
  end.

(** ** JavaScript values, as far as the program looks at them *)

Inductive value : Type :=
| VUndefined
| VNull
| VBoolean (b : bool)
| VNumber (n : number)
| VString (s : jsstring)
| VObject.                (* any other value: an object, a Date, ... *)

(** ** The civil calendar behind [Date]

    Every [Date] of the program is built from a local year, month and day
    and read back through the local getters, so a date is carried by the
    number of its civil (proleptic Gregorian) day, counted from
    1970-01-01.  This takes the host time zone to map a local midnight
    back to the civil day it was built from, as a zone does on every
    day that its calendar has.  A zone that moved across the date line
    has a day that it skipped (Pacific/Apia has no 2011-12-30), and a
    date built there for that day reads back as the day after it: the
    zone is not part of the model, and what is proved of a date is
    proved of the days that the calendar of the host has. *)

Definition is_leap (y : Z) : bool :=
  ((y mod 4 =? 0) && (negb (y mod 100 =? 0) || (y mod 400 =? 0)))%bool.

(** Days of month [m] (1..12) of year [y]. *)
Definition days_in_month (y m : Z) : Z :=
  if m =? 2 then (if is_leap y then 29 else 28)
  else if ((m =? 4) || (m =? 6) || (m =? 9) || (m =? 11))%bool then 30
  else 31.

(** Day within a 400-year era (starting on 1 March) of the day [d] of
    month [m] (1..12) in the year [yoe] of the era. *)
Definition doe_of_civil (yoe m d : Z) : Z :=
  let mp := if 2 <? m then m - 3 else m + 9 in
  let doy := (153 * mp + 2) / 5 + d - 1 in
  yoe * 365 + yoe / 4 - yoe / 100 + doy.

(** Day number of year [y], month [m] (1..12), day [d]. *)
Definition days_from_civil (y m d : Z) : Z :=
  let y' := if m <=? 2 then y - 1 else y in
  (y' / 400) * 146097 + doe_of_civil (y' mod 400) m d - 719468.

(** Year (counted from the start of the era), month and day of a day of
    the era. *)
Definition civil_of_doe (doe : Z) : Z * Z * Z :=
  let yoe := (doe - doe / 1460 + doe / 36524 - doe / 146096) / 365 in
  let doy := doe - (365 * yoe + yoe / 4 - yoe / 100) in
  let mp := (5 * doy + 2) / 153 in
  let d := doy - (153 * mp + 2) / 5 + 1 in
  let m := if mp <? 10 then mp + 3 else mp - 9 in
  ((if m <=? 2 then yoe + 1 else yoe), m, d).

(** Year, month (1..12) and day of a day number. *)
Definition civil_from_days (z : Z) : Z * Z * Z :=
  let z' := z + 719468 in
  let '(y, m, d) := civil_of_doe (z' mod 146097) in
  (y + (z' / 146097) * 400, m, d).

(** A [Date] object: the day number of its local date, or [None] for an
    Invalid Date. *)
Definition jsdate := option Z.

(** TimeClip: a time value beyond 8.64e15 ms, that is one hundred million
    days, from the epoch is not a date (the clip is applied to the day
    number: the offset of the time zone is left out of it). *)
Definition max_day : Z := 100000000.

Definition TimeClip (day : Z) : jsdate :=
  if ((- max_day <=? day) && (day <=? max_day))%bool then Some day else None.

(** MakeDay(year, month, date), the month counted from 0 and of any
    size. *)
Definition MakeDay (year month date : Z) : Z :=
  days_from_civil (year + month / 12) (month mod 12 + 1) 1 + date - 1.

(** ToIntegerOrInfinity on a finite number: truncation toward zero. *)
Definition trunc (q : Q) : Z := Z.quot (Qnum q) (QDen q).

(** [new Date(year, month, date)]: years 0..99 mean 1900..1999. *)
Definition new_Date (year month date : number) : jsdate :=
  match year, month, date with
  | Fin y, Fin m, Fin d =>
      let yi := trunc y in
      let yr := if ((0 <=? yi) && (yi <=? 99))%bool then 1900 + yi else yi in
      TimeClip (MakeDay yr (trunc m) (trunc d))
  | _, _, _ => None
  end.

Definition year_of (z : Z) : Z := fst (fst (civil_from_days z)).
Definition month_of (z : Z) : Z := snd (fst (civil_from_days z)) - 1.
Definition date_of (z : Z) : Z := snd (civil_from_days z).
(** Sunday = 0 .. Saturday = 6; 1970-01-01 was a Thursday. *)
Definition weekday_of (z : Z) : Z := (z + 4) mod 7.

Definition field (f : Z -> Z) (d : jsdate) : number :=
  match d with
  | Some z => Fin (inject_Z (f z))
  | None => NaN
  end.

Definition getFullYear : jsdate -> number := field year_of.
Definition getMonth : jsdate -> number := field month_of.
Definition getDate : jsdate -> number := field date_of.
Definition getDay : jsdate -> number := field weekday_of.

(** [d.setDate(dt)] for an integer [dt]: the date [dt] of the month of
    [d], whatever the size of [dt]. *)
Definition setDate (d : jsdate) (dt : Z) : jsdate :=
  match d with
  | Some z => TimeClip (MakeDay (year_of z) (month_of z) dt)
  | None => None
  end.

(** ** [src/App.jsx]: dates and file names *)

Definition hyphen : codeunit := 45%N.

(** [parseDateString]: [null] is [None]. *)
Definition parseDateString (value : jsstring) : option Z :=
  match value with
  | [] => None
  | _ =>
      match map StringToNumber (split_on hyphen value) with
      | year :: month :: day :: _ =>
          if (negb (truthy year) || negb (truthy month) || negb (truthy day))%bool
          then None
          else
            let date := new_Date year (js_sub month (Fin 1)) day in
            if (negb (num_eqb (getFullYear date) year)
                || negb (num_eqb (getMonth date) (js_sub month (Fin 1)))
                || negb (num_eqb (getDate date) day))%bool
            then None
            else date
      | _ => None  (* a part that is missing is [undefined], hence falsy *)
      end
  end.

Definition str_NaN : jsstring := str "NaN".

(** [formatDate]: the year is printed as it is, month and day are padded
    to two digits. *)
Definition formatDate (date : jsdate) : jsstring :=
  match date with
  | Some z =>
      int_to_jsstring (year_of z) ++ hyphen ::
      padStart2 (int_to_jsstring (month_of z + 1)) ++ hyphen ::
      padStart2 (int_to_jsstring (date_of z))
  | None => str_NaN ++ hyphen :: str_NaN ++ hyphen :: str_NaN
  end.

Definition getWeekStartMonday (date : jsdate) : jsdate :=
  match date with
  | Some z =>
      let day := weekday_of z in
      let diffToMonday := (day + 6) mod 7 in
      setDate (Some z) (date_of z - diffToMonday)
  | None => None
  end.

Definition buildExpectedWeekDates (monday : jsdate) : list jsstring :=
  map (fun offset =>
         formatDate
           (match monday with
            | Some z => setDate monday (date_of z + offset)
            | None => None
            end))
      [0; 1; 2; 3; 4; 5].

(** [buildFileRegex(suffix)]: the matcher of
    [^(\d{4}-\d{2}-\d{2})_<suffix>\.(xlsx|xls)$] with flag [i], giving
    capture group 1 of a match.  The suffix is taken literally: both
    suffixes of the program are Hangul text, without pattern
    metacharacters and without letters that have a case. *)

Definition upper (c : codeunit) : codeunit :=
  if (N.leb 97 c && N.leb c 122)%bool then (c - 32)%N else c.

Definition ci_eqb (a b : jsstring) : bool :=
  jsstring_eqb (map upper a) (map upper b).

Fixpoint strip_prefix (p s : jsstring) : option jsstring :=
  match p, s with
  | [], _ => Some s
  | x :: p', y :: s' => if cu_eqb x y then strip_prefix p' s' else None
  | _ :: _, [] => None
  end.

Definition buildFileRegex (suffix : jsstring) (name : jsstring)
  : option jsstring :=
  match name with
  | y1 :: y2 :: y3 :: y4 :: h1 :: m1 :: m2 :: h2 :: d1 :: d2 :: u :: rest =>
      if (forallb is_digit [y1; y2; y3; y4; m1; m2; d1; d2]
          && cu_eqb h1 hyphen && cu_eqb h2 hyphen && cu_eqb u 95%N)%bool
      then
        match strip_prefix suffix rest with
        | Some (p :: ext) =>
            if (cu_eqb p 46%N
                && (ci_eqb ext (str "xlsx") || ci_eqb ext (str "xls")))%bool
            then Some [y1; y2; y3; y4; h1; m1; m2; h2; d1; d2]
            else None
        | _ => None
        end
      else None
  | _ => None
  end.

(** ** Ages *)

Definition isFinite_floor (x : number) : option Z :=
  match x with
  | Fin q => Some (Qfloor q)
  | _ => None
  end.

(** [normalizeAge], with the search of its pattern as a parameter: the
    files of the repository differ in that pattern only.  [search t] is
    capture group 1 of the first match in [t], if there is one; the
    result is [null] ([None]) or an integer. *)
Definition normalizeAgeWith (search : jsstring -> option jsstring)
  (v : value) : option Z :=
  match v with
  | VNull | VUndefined => None
  | VNumber x => isFinite_floor x
  | VString s =>
      match trim s with
      | [] => None
      | trimmed =>
          match search trimmed with
          | None => None
          | Some m => isFinite_floor (StringToNumber m)
          end
      end
  | _ => None
  end.

(** [s.match(re)] for a pattern without flags: the leftmost position at
    which the pattern matches. *)
Fixpoint regex_search (match_at : jsstring -> option jsstring)
  (s : jsstring) : option jsstring :=
  match match_at s with
  | Some m => Some m
  | None =>
      match s with
      | [] => None
      | _ :: s' => regex_search match_at s'
      end
  end.

(** Greedy [c*] for one code unit [c]. *)
Fixpoint take_run (c : codeunit) (s : jsstring) : jsstring * jsstring :=
  match s with
  | [] => ([], [])
  | x :: s' =>
      if cu_eqb x c
      then let (run, rest) := take_run c s' in (x :: run, rest)
      else ([], s)
  end.

Definition backslash : codeunit := 92%N.
Definition letter_d : codeunit := 100%N.
Definition dot : codeunit := 46%N.

(** [.] matches any code unit but a line terminator. *)
Definition is_line_terminator (c : codeunit) : bool :=
  existsb (N.eqb c) [10; 13; 8232; 8233]%N.

(** The pattern of [src/App.jsx], line 94: [/(\\d+(\\.\\d+)?)/].  In a
    regular-expression literal [\\] is an escaped backslash, so this is:
    a backslash, one or more letters [d], and optionally a backslash, any
    character, a backslash and one or more letters [d]. *)
Definition escaped_pattern_at (s : jsstring) : option jsstring :=
  match s with
  | b :: r =>
      if cu_eqb b backslash then
        match take_run letter_d r with
        | ([], _) => None
        | (ds, r1) =>
            match r1 with
            | b1 :: c :: b2 :: r2 =>
                if (cu_eqb b1 backslash && negb (is_line_terminator c)
                    && cu_eqb b2 backslash)%bool
                then
                  match take_run letter_d r2 with
                  | ([], _) => Some (b :: ds)
                  | (ds2, _) => Some (b :: ds ++ b1 :: c :: b2 :: ds2)
                  end
                else Some (b :: ds)
            | _ => Some (b :: ds)
            end
        end
      else None
  | [] => None
  end.

(** [normalizeAge] of [src/App.jsx]. *)
Definition normalizeAge : value -> option Z :=
  normalizeAgeWith (regex_search escaped_pattern_at).

(** [scripts/apps-script/weekly-report.gs]; the two earlier versions of
    the component have the same [normalizeAge]. *)
Module Script.

(** The pattern [/(\d+(\.\d+)?)/]: one or more digits, and optionally a
    dot and one or more digits. *)
Definition decimal_pattern_at (s : jsstring) : option jsstring :=
  match take_digits s with
  | ([], _) => None
  | (ip, r1) =>
      match r1 with
      | c :: r2 =>
          if cu_eqb c dot then
            match take_digits r2 with
            | ([], _) => Some ip
            | (fp, _) => Some (ip ++ c :: fp)
            end
          else Some ip
      | [] => Some ip
      end
  end.

Definition normalizeAge : value -> option Z :=
  normalizeAgeWith (regex_search decimal_pattern_at).

End Script.

(** *** [findAgesInWorkbook] *)

Definition TARGET_COLUMN_INDEX : nat := 3.
(* 'D열' *)
Definition TARGET_COLUMN_LABEL : jsstring := [68; 50676]%N.

Definition row := list value.

(** A sheet, as the rows that
    [XLSX.utils.sheet_to_json(sheet, {header: 1, raw: true, defval: null})]
    makes of it. *)
Definition sheet := list row.

Record workbook : Type := {
  SheetNames : list jsstring;
  Sheets : list (jsstring * sheet)
}.

Fixpoint lookup_sheet (sheets : list (jsstring * sheet)) (name : jsstring)
  : option sheet :=
  match sheets with
  | [] => None
  | (n, sh) :: rest =>
      if jsstring_eqb n name then Some sh else lookup_sheet rest name
  end.

(** [sheet_to_json] of a sheet that is not there is the empty array. *)
Definition sheet_to_json (sh : option sheet) : list row :=
  match sh with
  | Some rows => rows
  | None => []
  end.

(** [row?.[i]] *)
Definition cell (r : row) (i : nat) : value := nth i r VUndefined.

Definition age_in_range (age : option Z) : bool :=
  match age with
  | Some a => ((0 <=? a) && (a <=? 120))%bool
  | None => false
  end.

(** The inner loop of [findAgesInWorkbook]: the ages of one sheet. *)
Definition collectAges (normalize : value -> option Z) (rows : list row)
  : list Z :=
  fold_left
    (fun ages r =>
       match normalize (cell r TARGET_COLUMN_INDEX) with
       | Some age =>
           if ((0 <=? age) && (age <=? 120))%bool then ages ++ [age] else ages
       | None => ages
       end)
    rows [].

Record Best : Type := {
  best_ages : list Z;
  best_sheetName : jsstring;
  best_count : Z
}.

Definition empty_best : Best :=
  {| best_ages := []; best_sheetName := []; best_count := 0 |}.

Definition sheetAges (wb : workbook) (sheetName : jsstring) : list Z :=
  collectAges normalizeAge (sheet_to_json (lookup_sheet (Sheets wb) sheetName)).

(** The body of [SheetNames.forEach]: a sheet with strictly more valid
    ages replaces the best one so far. *)
Definition pick (wb : workbook) (best : Best) (sheetName : jsstring) : Best :=
  let ages := sheetAges wb sheetName in
  if best_count best <? Z.of_nat (length ages)
  then {| best_ages := ages; best_sheetName := sheetName;
          best_count := Z.of_nat (length ages) |}
  else best.

Definition findAgesInWorkbook (wb : workbook) : Best :=
  fold_left (pick wb) (SheetNames wb) empty_best.

(** ** Age bands *)

Record AgeBand : Type := {
  band_id : jsstring;
  band_label : jsstring;
  band_range : Z * Z
}.

(** A top-level band; [children] is absent from the last three. *)
Record AgeGroup : Type := {
  group_band : AgeBand;
  group_children : option (list AgeBand)
}.

(* The syllable of the labels: U+C138; 'U+C774 U+C0C1' in the last one. *)
Definition se : jsstring := [49464%N].

Definition AGE_GROUPS : list AgeGroup :=
  [ {| group_band :=
         {| band_id := str "0-6"; band_label := str "0-6" ++ se;
            band_range := (0, 6) |};
       group_children := Some
         [ {| band_id := str "0"; band_label := str "0" ++ se;
              band_range := (0, 0) |};
           {| band_id := str "1-6"; band_label := str "1-6" ++ se;
              band_range := (1, 6) |} ] |};
    {| group_band :=
         {| band_id := str "7-18"; band_label := str "7-18" ++ se;
            band_range := (7, 18) |};
       group_children := Some
         [ {| band_id := str "7-12"; band_label := str "7-12" ++ se;
              band_range := (7, 12) |};
           {| band_id := str "13-18"; band_label := str "13-18" ++ se;
              band_range := (13, 18) |} ] |};
    {| group_band :=
         {| band_id := str "19-49"; band_label := str "19-49" ++ se;
            band_range := (19, 49) |};
       group_children := None |};
    {| group_band :=
         {| band_id := str "50-64"; band_label := str "50-64" ++ se;
            band_range := (50, 64) |};
       group_children := None |};
    {| group_band :=
         {| band_id := str "65+";
            band_label := str "65" ++ se ++ [32; 51060; 49345]%N;
            band_range := (65, 120) |};
       group_children := None |} ].

(** A node of the count tree: the band and its count. *)
Record ChildCount : Type := {
  child_band : AgeBand;
  child_count : Z
}.

Record GroupCount : Type := {
  count_band : AgeBand;
  count : Z;
  children : list ChildCount
}.

Definition in_range (age : Z) (b : AgeBand) : bool :=
  ((fst (band_range b) <=? age) && (age <=? snd (band_range b)))%bool.

(** The first statement of [buildCounts]: every count at 0. *)
Definition zeroCounts (defs : list AgeGroup) : list GroupCount :=
  map (fun group =>
         {| count_band := group_band group;
            count := 0;
            children :=
              map (fun child => {| child_band := child; child_count := 0 |})
                  (match group_children group with
                   | Some cs => cs
                   | None => []
                   end) |})
      defs.

(** The body of [ages.forEach]: one age passes over every group and, in a
    group it belongs to, over every child. *)
Definition countAge (groups : list GroupCount) (age : Z) : list GroupCount :=
  map (fun group =>
         if in_range age (count_band group) then
           {| count_band := count_band group;
              count := count group + 1;
              children :=
                map (fun child =>
                       if in_range age (child_band child)
                       then {| child_band := child_band child;
                               child_count := child_count child + 1 |}
                       else child)
                    (children group) |}
         else group)
      groups.

Definition buildCounts (ages : list Z) : list GroupCount :=
  fold_left countAge ages (zeroCounts AGE_GROUPS).

(** *** [combineCounts] *)

(** What [combineCounts] reads of the fever tree: an id, and a count and
    a list of children that may both be missing. *)
Record FeverChild : Type := {
  fever_child_id : jsstring;
  fever_child_count : option Z
}.

Record FeverGroup : Type := {
  fever_id : jsstring;
  fever_count : option Z;
  fever_children : option (list FeverChild)
}.

(** A count tree read as a fever tree. *)
Definition as_fever (groups : list GroupCount) : list FeverGroup :=
  map (fun g =>
         {| fever_id := band_id (count_band g);
            fever_count := Some (count g);
            fever_children :=
              Some (map (fun c =>
                           {| fever_child_id := band_id (child_band c);
                              fever_child_count := Some (child_count c) |})
                        (children g)) |})
      groups.

Record CombinedChild : Type := {
  combined_child : ChildCount;      (* [...child] *)
  child_totalCount : Z;
  child_feverCount : Z
}.

Record CombinedGroup : Type := {
  combined_band : AgeBand;          (* [...group]: id, label, range *)
  combined_count : Z;               (* [...group]: count *)
  totalCount : Z;
  feverCount : Z;
  combined_children : list CombinedChild
}.

(** [x || 0] on a count that may be missing. *)
Definition or_zero (x : option Z) : Z :=
  match x with
  | Some n => n
  | None => 0
  end.

Definition combineCounts (visitCounts : list GroupCount)
  (feverCounts : list FeverGroup) : list CombinedGroup :=
  map (fun group =>
         let feverGroup :=
           match find (fun item =>
                         jsstring_eqb (fever_id item) (band_id (count_band group)))
                      feverCounts with
           | Some item => item
           | None => {| fever_id := []; fever_count := Some 0;
                        fever_children := Some [] |}
           end in
         {| combined_band := count_band group;
            combined_count := count group;
            totalCount := count group;
            feverCount := or_zero (fever_count feverGroup);
            combined_children :=
              map (fun child =>
                     let feverChild :=
                       match fever_children feverGroup with
                       | Some cs =>
                           find (fun item =>
                                   jsstring_eqb (fever_child_id item)
                                                (band_id (child_band child)))
                                cs
                       | None => None
                       end in
                     {| combined_child := child;
                        child_totalCount := child_count child;
                        child_feverCount :=
                          match feverChild with
                          | Some item => or_zero (fever_child_count item)
                          | None => 0
                          end |})
                  (children group) |})
      visitCounts.

(** *** The ratio of the chart and of the table

    [group.totalCount ? (group.feverCount / group.totalCount) * 100 : 0];
    the rows of the table guard the same quotient by the same test. *)
Definition ratio (feverCount totalCount : number) : number :=
  if truthy totalCount
  then js_mul (js_div feverCount totalCount) (Fin 100)
  else Fin 0.

Record ChartEntry : Type := {
  chart_label : jsstring;
  chart_ratio : number;
  chart_feverCount : Z;
  chart_totalCount : Z
}.

Definition chartData (activeGroups : list CombinedGroup) : list ChartEntry :=
  map (fun group =>
         {| chart_label := band_label (combined_band group);
            chart_ratio :=
              ratio (Fin (inject_Z (feverCount group)))
                    (Fin (inject_Z (totalCount group)));
            chart_feverCount := feverCount group;
            chart_totalCount := totalCount group |})
      activeGroups.

(** ** The week of a batch of files *)

Record WeekCheck : Type := {
  weekStart : jsstring;
  weekEnd : jsstring;
  missingDays : list jsstring;
  outOfRange : list jsstring
}.

(** [x + y] on numbers. *)
Definition js_add (x y : number) : number :=
  match x, y with
  | NaN, _ | _, NaN => NaN
  | Infinity a, Infinity b => if Bool.eqb a b then Infinity a else NaN
  | Infinity a, Fin _ => Infinity a
  | Fin _, Infinity b => Infinity b
  | Fin p, Fin q => round_double (p + q)
  end.

Fixpoint insert_day (x : Z) (l : list Z) : list Z :=
  match l with
  | [] => [x]
  | y :: l' => if x <=? y then x :: l else y :: insert_day x l'
  end.

(** [dates.sort((a, b) => a - b)] on valid dates. *)
Definition sort_days (l : list Z) : list Z := fold_right insert_day [] l.

(** [.filter(Boolean)] on an array of dates and [null]s. *)
Fixpoint filter_dates (l : list (option Z)) : list Z :=
  match l with
  | [] => []
  | Some z :: l' => z :: filter_dates l'
  | None :: l' => filter_dates l'
  end.

(** The second half of [analyzeWeekDates], from the earliest parsed date
    [first] on. *)
Definition weekCheckFrom (uniqueDates : list jsstring) (first : Z)
  : WeekCheck :=
  let weekStart := getWeekStartMonday (Some first) in
  let expectedDates := buildExpectedWeekDates weekStart in
  let missingDays :=
    filter (fun value => negb (includes uniqueDates value)) expectedDates in
  let outOfRange :=
    filter (fun value => negb (includes expectedDates value)) uniqueDates in
  {| weekStart := formatDate weekStart;
     weekEnd :=
       formatDate
         (new_Date (getFullYear weekStart) (getMonth weekStart)
                   (js_add (getDate weekStart) (Fin 5)));
     missingDays := missingDays;
     outOfRange := sort_strings outOfRange |}.

Definition analyzeWeekDates (dateStrings : list jsstring) : option WeekCheck :=
  let uniqueDates := uniq dateStrings in
  match uniqueDates with
  | [] => None
  | _ =>
      let parsedDates := filter_dates (map parseDateString uniqueDates) in
      match parsedDates with
      | [] => None
      | d0 :: _ =>
          (* [parsedDates.sort((a, b) => a - b)], then [parsedDates[0]] *)
          Some (weekCheckFrom uniqueDates (hd d0 (sort_days parsedDates)))
      end
  end.

(** ** Uploaded files and their warnings *)

(** [nameIssue]: [''], ['pattern'] or ['date']. *)
Inductive NameIssue : Type := NoIssue | PatternIssue | DateIssue.

(** [error]: [''], the message that no age was found, or the message that
    the file could not be read. *)
Inductive ReadError : Type := NoError | NoAgeData | Unreadable.

Record ParsedFile : Type := {
  name : jsstring;
  dateString : option jsstring;
  nameIssue : NameIssue;
  ages : list Z;
  error : ReadError;
  source : jsstring
}.

Definition has_issue (i : NameIssue) : bool :=
  match i with NoIssue => false | _ => true end.

Definition is_pattern_issue (i : NameIssue) : bool :=
  match i with PatternIssue => true | _ => false end.

Definition is_date_issue (i : NameIssue) : bool :=
  match i with DateIssue => true | _ => false end.

Definition has_error (e : ReadError) : bool :=
  match e with NoError => false | _ => true end.

(** A [Map] from strings to counts, in insertion order. *)
Definition DateMap := list (jsstring * Z).

Fixpoint map_get (m : DateMap) (k : jsstring) : option Z :=
  match m with
  | [] => None
  | (k', v) :: m' => if jsstring_eqb k' k then Some v else map_get m' k
  end.

Fixpoint map_set (m : DateMap) (k : jsstring) (v : Z) : DateMap :=
  match m with
  | [] => [(k, v)]
  | (k', v') :: m' =>
      if jsstring_eqb k' k then (k', v) :: m' else (k', v') :: map_set m' k v
  end.

(** The reducer of [dateCounts]. *)
Definition countDate (acc : DateMap) (file : ParsedFile) : DateMap :=
  match dateString file with
  | None | Some [] => acc
  | Some date =>
      if has_issue (nameIssue file) then acc
      else map_set acc date (or_zero (map_get acc date) + 1)
  end.

Definition dateCounts (files : list ParsedFile) : DateMap :=
  fold_left countDate files [].

Definition duplicateDates (files : list ParsedFile) : DateMap :=
  filter (fun entry => 1 <? snd entry) (dateCounts files).

(* The texts of the six warnings:
   '파일명 규칙과 다른 파일: ', '날짜 형식이 올바르지 않은 파일: ',
   '읽기 오류 또는 나이 데이터 없음: ', '같은 날짜 파일이 여러 개 있습니다: ',
   '다른 주의 파일이 포함되었습니다: ', '누락된 요일 파일: '. *)
Definition text_invalid_name : jsstring :=
  [54028; 51068; 47749; 32; 44508; 52825; 44284; 32; 45796; 47480; 32;
   54028; 51068; 58; 32]%N.
Definition text_invalid_date : jsstring :=
  [45216; 51676; 32; 54805; 49885; 51060; 32; 50732; 48148; 47476; 51648;
   32; 50506; 51008; 32; 54028; 51068; 58; 32]%N.
Definition text_read_error : jsstring :=
  [51069; 44592; 32; 50724; 47448; 32; 46608; 45716; 32; 45208; 51060; 32;
   45936; 51060; 53552; 32; 50630; 51020; 58; 32]%N.
Definition text_duplicate : jsstring :=
  [44057; 51008; 32; 45216; 51676; 32; 54028; 51068; 51060; 32; 50668;
   47084; 32; 44060; 32; 51080; 49845; 45768; 45796; 58; 32]%N.
Definition text_out_of_range : jsstring :=
  [45796; 47480; 32; 51452; 51032; 32; 54028; 51068; 51060; 32; 54252;
   54632; 46104; 50632; 49845; 45768; 45796; 58; 32]%N.
Definition text_missing : jsstring :=
  [45572; 46973; 46108; 32; 50836; 51068; 32; 54028; 51068; 58; 32]%N.

Definition comma : jsstring := str ", ".

(** [`${date} (${count}개)`] *)
Definition duplicateEntry (entry : jsstring * Z) : jsstring :=
  fst entry ++ str " (" ++ int_to_jsstring (snd entry) ++ [44060; 41]%N.

(** One [if (list.length) warnings.push(text + items.join(', '))]. *)
Definition warn (text : jsstring) (items : list jsstring) : list jsstring :=
  match items with
  | [] => []
  | _ => [text ++ join comma items]
  end.

Definition buildUploadWarnings (files : list ParsedFile)
  (weekCheck : option WeekCheck) : list jsstring :=
  let invalidNameFiles :=
    filter (fun file => is_pattern_issue (nameIssue file)) files in
  let invalidDateFiles :=
    filter (fun file => is_date_issue (nameIssue file)) files in
  let readErrors := filter (fun file => has_error (error file)) files in
  warn text_invalid_name (map name invalidNameFiles)
  ++ warn text_invalid_date (map name invalidDateFiles)
  ++ warn text_read_error (map name readErrors)
  ++ warn text_duplicate (map duplicateEntry (duplicateDates files))
  ++ match weekCheck with
     | Some check =>
         warn text_out_of_range (outOfRange check)
         ++ warn text_missing (missingDays check)
     | None => []
     end.

(** *** [handleUploadFiles] *)

Inductive UploadType : Type := visit | fever.

(* '총환자수' and '발열환자수' *)
Definition suffix_of (type : UploadType) : jsstring :=
  match type with
  | visit => [52509; 54872; 51088; 49688]%N
  | fever => [48156; 50676; 54872; 51088; 49688]%N
  end.

(** An uploaded file: its name, and the workbook that [XLSX.read] makes
    of its bytes, [None] when reading throws. *)
Record UploadedFile : Type := {
  file_name : jsstring;
  file_workbook : option workbook
}.

(** The first half of the callback of [files.map]: the name. *)
Definition classifyName (regex : jsstring -> option jsstring)
  (fileName : jsstring) : option jsstring * NameIssue :=
  match regex fileName with
  | Some date =>
      (Some date,
       match parseDateString date with
       | Some _ => NoIssue
       | None => DateIssue
       end)
  | None => (None, PatternIssue)
  end.

(** The callback of [files.map]. *)
Definition parseFile (regex : jsstring -> option jsstring)
  (file : UploadedFile) : ParsedFile :=
  let '(date, issue) := classifyName regex (file_name file) in
  match file_workbook file with
  | Some wb =>
      let result := findAgesInWorkbook wb in
      {| name := file_name file;
         dateString := date;
         nameIssue := issue;
         ages := best_ages result;
         error := match best_ages result with
                  | [] => NoAgeData
                  | _ => NoError
                  end;
         source := match best_sheetName result with
                   | [] => []
                   | sheetName => sheetName ++ str " / " ++ TARGET_COLUMN_LABEL
                   end |}
  | None =>
      {| name := file_name file; dateString := date; nameIssue := issue;
         ages := []; error := Unreadable; source := [] |}
  end.

(** The state that [handleUploadFiles] sets, but for [files]: the sorted
    copy of the parsed files is for display, and its order among files
    without a date is that of the locale of the host. *)
Record UploadState : Type := {
  upload_ages : list Z;
  upload_warnings : list jsstring;
  upload_weekCheck : option WeekCheck
}.

Definition is_truthy_string (s : option jsstring) : bool :=
  match s with
  | None | Some [] => false
  | Some _ => true
  end.

(** [handleUploadFiles(fileList, type, setter)]: the state handed to
    [setter], [None] when the list is empty and nothing is set. *)
Definition handleUploadFiles (files : list UploadedFile) (type : UploadType)
  : option UploadState :=
  match files with
  | [] => None
  | _ =>
      let regex := buildFileRegex (suffix_of type) in
      let parsedFiles := map (parseFile regex) files in
      let validDates :=
        flat_map (fun file =>
                    match dateString file with
                    | Some date =>
                        if (is_truthy_string (dateString file)
                            && negb (is_pattern_issue (nameIssue file)))%bool
                        then [date] else []
                    | None => []
                    end)
                 parsedFiles in
      let weekCheck := analyzeWeekDates validDates in
      let warnings := buildUploadWarnings parsedFiles weekCheck in
      Some {| upload_ages := flat_map ages parsedFiles;
              upload_warnings := warnings;
              upload_weekCheck := weekCheck |}
  end.

(** ** Definitions used to state the properties *)

(** The number of elements of [l] that satisfy [p]. *)
Definition tally (p : Z -> bool) (l : list Z) : Z :=
  Z.of_nat (length (filter p l)).

Definition children_of (g : AgeGroup) : list AgeBand :=
  match group_children g with
  | Some cs => cs
  | None => []
  end.

(** The count tree in closed form: every band with the number of ages in
    its range, every child with the number of ages in its range and in
    that of its parent. *)
Definition countsOf (defs : list AgeGroup) (l : list Z) : list GroupCount :=
  map (fun g =>
         {| count_band := group_band g;
            count := tally (fun a => in_range a (group_band g)) l;
            children :=
              map (fun c =>
                     {| child_band := c;
                        child_count :=
                          tally (fun a => (in_range a (group_band g)
                                           && in_range a c)%bool) l |})
                  (children_of g) |})
      defs.

Definition sum (l : list Z) : Z := fold_right Z.add 0 l.

(** [P] on the [n] integers from [lo] on. *)
Fixpoint all_from (P : Z -> bool) (lo : Z) (n : nat) : bool :=
  match n with
  | O => true
  | S k => (P lo && all_from P (lo + 1) k)%bool
  end.

(** The bands of an age: one top-level band, at most one child in it. *)
Definition one_band (a : Z) : bool :=
  ((length (filter (fun g => in_range a (group_band g)) AGE_GROUPS) =? 1)%nat
   && forallb (fun g =>
                 (length (filter (in_range a) (children_of g)) <=? 1)%nat)
              AGE_GROUPS)%bool.

(** What the scan of [findAgesInWorkbook] has established after a prefix
    [seen] of the sheets. *)
Definition scanned (wb : workbook) (seen : list jsstring) (best : Best)
  : Prop :=
  best_count best = Z.of_nat (length (best_ages best)) /\
  (forall n, In n seen ->
     (length (sheetAges wb n) <= length (best_ages best))%nat) /\
  ((best = empty_best /\
    forall n, In n seen -> sheetAges wb n = []) \/
   (exists before after,
      seen = before ++ best_sheetName best :: after /\
      best_ages best = sheetAges wb (best_sheetName best) /\
      best_ages best <> [] /\
      forall n, In n before ->
        (length (sheetAges wb n) < length (best_ages best))%nat)).

(** A file without name issue whose date string is [d]. *)
Definition dated (d : jsstring) (file : ParsedFile) : bool :=
  (negb (has_issue (nameIssue file))
   && match dateString file with
      | Some ((_ :: _) as d') => jsstring_eqb d' d
      | _ => false
      end)%bool.

(** The number of files without name issue whose date string is [d]. *)
Definition filesOn (d : jsstring) (files : list ParsedFile) : Z :=
  Z.of_nat (length (filter (dated d) files)).

(** A warning that starts with the text of the duplicate-dates warning. *)
Definition is_duplicate_warning (w : jsstring) : bool :=
  match strip_prefix text_duplicate w with
  | Some _ => true
  | None => false
  end.

(** The map after the files [done]: every date with the number of its
    files, each date once. *)
Definition counted (done : list ParsedFile) (m : DateMap) : Prop :=
  NoDup (map fst m) /\
  forall d, map_get m d =
            if filesOn d done =? 0 then None else Some (filesOn d done).

(** The shape [\d{4}-\d{2}-\d{2}]. *)
Definition date_shaped (d : jsstring) : bool :=
  match d with
  | [y1; y2; y3; y4; h1; m1; m2; h2; d1; d2] =>
      (forallb is_digit [y1; y2; y3; y4; m1; m2; d1; d2]
       && cu_eqb h1 hyphen && cu_eqb h2 hyphen)%bool
  | _ => false
  end.

(** A name of the shape [<date>_<suffix>.<xlsx|xls>], the extension in
    either case. *)
Definition well_named (suffix name date : jsstring) : Prop :=
  exists ext,
    name = date ++ 95%N :: suffix ++ 46%N :: ext /\
    date_shaped date = true /\
    (ci_eqb ext (str "xlsx") || ci_eqb ext (str "xls"))%bool = true.

(* The two file names of the specification:
   '2024-02-30_총환자수.xlsx' and 'report_총환자수.xlsx'. *)
Definition name_feb30 : jsstring :=
  str "2024-02-30_" ++ suffix_of visit ++ str ".xlsx".
Definition name_report : jsstring :=
  str "report_" ++ suffix_of visit ++ str ".xlsx".

(** *** Checks of the calendar over one era of 400 years *)

(** A day of the era: its civil date is a date of the calendar, and is
    the date of that day. *)
Definition doe_checks (doe : Z) : bool :=
  let '(y, m, d) := civil_of_doe doe in
  let yc := if m <=? 2 then y - 1 else y in
  ((0 <=? yc) && (yc <? 400) && (1 <=? m) && (m <=? 12) && (1 <=? d)
   && (d <=? days_in_month y m) && (doe_of_civil yc m d =? doe))%bool.

(** The date number [i] of the era, counting 31 days to every month:
    when it is a date of the calendar, its day is in the era and has that
    date. *)
Definition date_checks (i : Z) : bool :=
  let yoe := i / 372 in
  let m := (i / 31) mod 12 + 1 in
  let d := i mod 31 + 1 in
  let y := if m <=? 2 then yoe + 1 else yoe in
  if d <=? days_in_month y m then
    let doe := doe_of_civil yoe m d in
    ((0 <=? doe) && (doe <? 146097)
     && (let '(y', m', d') := civil_of_doe doe in
         (y' =? y) && (m' =? m) && (d' =? d)))%bool
  else true.

(** A date of the calendar. *)
Definition valid_date (y m d : Z) : Prop :=
  1 <= m <= 12 /\ 1 <= d <= days_in_month y m.

(** A string of decimal digits. *)
Definition all_digits (ds : jsstring) : Prop := forallb is_digit ds = true.

(** A string that does not go on with a digit. *)
Definition no_digit_next (s : jsstring) : Prop :=
  match s with
  | [] => True
  | c :: _ => is_digit c = false
  end.

(** A string that does not go on with a dot and a digit. *)
Definition no_fraction_next (s : jsstring) : Prop :=
  match s with
  | c :: d :: _ => c = dot -> is_digit d = false
  | _ => True
  end.

(** The first decimal-number substring of [t], in the words of the
    specification: before it there is no digit; it is a run of digits
    [ip] that cannot be extended, followed either by a dot and a run of
    digits [fp] that cannot be extended, or ([fp] empty) by something
    that is not a dot and a digit. *)
Definition first_decimal (t ip fp : jsstring) : Prop :=
  exists pre rest,
    t = pre ++ ip ++ rest /\
    forallb (fun c => negb (is_digit c)) pre = true /\
    ip <> [] /\ all_digits ip /\ no_digit_next rest /\
    match fp with
    | [] => no_fraction_next rest
    | _ => all_digits fp /\
           exists rest', rest = dot :: fp ++ rest' /\ no_digit_next rest'
    end.

(** The number that the digits [ip], and after a dot the digits [fp],
    denote: the binary64 number nearest to it. *)
Definition decimal_number (ip fp : jsstring) : number :=
  decimal_to_number (digits_value (ip ++ fp)) (- Z.of_nat (length fp)).

(** A string of 310 digits. *)
Definition digits_310 : jsstring := repeat 57%N 310.

(** Year, month and day that a string of the shape [YYYY-MM-DD] spells. *)
Definition date_fields (d : jsstring) : Z * Z * Z :=
  match d with
  | [y1; y2; y3; y4; _; m1; m2; _; d1; d2] =>
      (digits_value [y1; y2; y3; y4], digits_value [m1; m2],
       digits_value [d1; d2])
  | _ => (0, 0, 0)
  end.

(** [parseDateString] on integers: what it does with the year, month and
    day once they are read. *)
Definition parse_ymd (Y M D : Z) : option Z :=
  if ((Y =? 0) || (M =? 0) || (D =? 0))%bool then None
  else
    let yr := if ((0 <=? Y) && (Y <=? 99))%bool then 1900 + Y else Y in
    match TimeClip (MakeDay yr (M - 1) D) with
    | Some z =>
        if ((year_of z =? Y) && (month_of z =? M - 1) && (date_of z =? D))%bool
        then Some z else None
    | None => None
    end.

(** The six dates, as strings, of the week that starts on the day
    [monday]. *)
Definition week_strings (monday : Z) : list jsstring :=
  map (fun k => formatDate (TimeClip (monday + k))) [0; 1; 2; 3; 4; 5].

(** The Monday of the week of a day. *)
Definition monday_of (z : Z) : Z := z - (weekday_of z + 6) mod 7.

(** A batch of two visit files of the same date, '2024-06-12_총환자수.xlsx',
    with one row each: the ages 5 and 7 in column D. *)
Definition sample_workbook (age : Z) : workbook :=
  {| SheetNames := [str "Sheet1"];
     Sheets := [(str "Sheet1",
                 [[VString (str "name"); VNull; VNull;
                   VNumber (Fin (inject_Z age))]])] |}.

Definition sample_name : jsstring :=
  str "2024-06-12_" ++ suffix_of visit ++ str ".xlsx".

Definition sample_batch : list UploadedFile :=
  [ {| file_name := sample_name; file_workbook := Some (sample_workbook 5) |};
    {| file_name := sample_name; file_workbook := Some (sample_workbook 7) |} ].

(* '같은 날짜 파일이 여러 개 있습니다: 2024-06-12 (2개)' *)
Definition sample_warning : jsstring :=
  text_duplicate ++ str "2024-06-12 (2" ++ [44060; 41]%N.

(** ** Further definitions used to state properties *)

(** The valid age, if any, that a cell holding a number gives; a cell
    holding anything else gives none. *)
Definition numeric_age (v : value) : list Z :=
  match v with
  | VNumber (Fin q) =>
      if ((0 <=? Qfloor q) && (Qfloor q <=? 120))%bool then [Qfloor q] else []
  | _ => []
  end.

(** The counts of a tree, band by band: the count of the group and the
    counts of its children. *)
Definition counts_of (t : list GroupCount) : list (Z * list Z) :=
  map (fun g => (count g, map child_count (children g))) t.

(** Sum of two lists of counts, position by position. *)
Definition add_lists (a b : list Z) : list Z :=
  map (fun p => fst p + snd p) (combine a b).

Definition add_counts (a b : list (Z * list Z)) : list (Z * list Z) :=
  map (fun p => (fst (fst p) + fst (snd p),
                 add_lists (snd (fst p)) (snd (snd p))))
      (combine a b).

Definition valid_age (a : Z) : bool := ((0 <=? a) && (a <=? 120))%bool.

(** The year [n], printed, is four digits that spell [n]. *)
Definition year_string_ok (n : Z) : bool :=
  match int_to_jsstring n with
  | [a; b; c; d] =>
      (forallb is_digit [a; b; c; d] && (digits_value [a; b; c; d] =? n))%bool
  | _ => false
  end.

(** The month or day [n], printed and padded, is two digits that spell
    [n]. *)
Definition two_digits_ok (n : Z) : bool :=
  match padStart2 (int_to_jsstring n) with
  | [a; b] => (forallb is_digit [a; b] && (digits_value [a; b] =? n))%bool
  | _ => false
  end.

(** Ascending in the order of the default sort. *)
Definition ascending : list jsstring -> Prop :=
  Sorted (fun a b => jsstring_leb a b = true).

(** The combined tree, node by node: the id of the band, [totalCount] and
    [feverCount], and the same of the children. *)
Definition combined_counts (t : list CombinedGroup)
  : list (jsstring * Z * Z * list (jsstring * Z * Z)) :=
  map (fun g =>
         (band_id (combined_band g), totalCount g, feverCount g,
          map (fun c => (band_id (child_band (combined_child c)),
                         child_totalCount c, child_feverCount c))
              (combined_children g)))
      t.

(** The same in closed form, for the visits [a] and the fevers [b]. *)
Definition band_counts (a b : list Z)
  : list (jsstring * Z * Z * list (jsstring * Z * Z)) :=
  map (fun g =>
         (band_id (group_band g),
          tally (fun x => in_range x (group_band g)) a,
          tally (fun x => in_range x (group_band g)) b,
          map (fun c =>
                 (band_id c,
                  tally (fun x => (in_range x (group_band g)
                                   && in_range x c)%bool) a,
                  tally (fun x => (in_range x (group_band g)
                                   && in_range x c)%bool) b))
              (children_of g)))
      AGE_GROUPS.

(** ** [scripts/apps-script/weekly-report.gs]: the weekly job *)

Module WeeklyReport.

(** A sheet of the converted spreadsheet: its name and the rows of
    [sheet.getDataRange().getValues()]. *)
Definition gsheet : Type := jsstring * list row.

Record BestAges : Type := {
  ages : list Z;
  sheetName : jsstring
}.

(** The body of [sheets.forEach] in [extractAgesFromExcel]. *)
Definition pickSheet (best : BestAges) (sh : gsheet) : BestAges :=
  let sheetAges := collectAges Script.normalizeAge (snd sh) in
  if Z.of_nat (length (ages best)) <? Z.of_nat (length sheetAges)
  then {| ages := sheetAges; sheetName := fst sh |}
  else best.

(** [extractAgesFromExcel], from the sheets of the temporary copy on. *)
Definition extractAgesFromExcel (sheets : list gsheet) : list Z :=
  ages (fold_left pickSheet sheets {| ages := []; sheetName := [] |}).

Record WeekRange : Type := {
  range_start : jsdate;
  range_end : jsdate;
  range_days : list jsdate
}.

(** [d.setDate(d.getDate() + k)] on a copy of [d]. *)
Definition addDays (d : jsdate) (k : Z) : jsdate :=
  match d with
  | Some z => setDate d (date_of z + k)
  | None => None
  end.

(** [getPreviousWeekRange], with the date of [new Date()] as its
    argument. *)
Definition getPreviousWeekRange (now : jsdate) : WeekRange :=
  let currentWeekMonday :=
    match now with
    | Some z =>
        let day := weekday_of z in
        let diffToMonday := (day + 6) mod 7 in
        setDate now (date_of z - diffToMonday)
    | None => None
    end in
  let start := addDays currentWeekMonday (-7) in
  let end_ := addDays start 5 in
  {| range_start := start;
     range_end := end_;
     range_days := map (addDays start) [0; 1; 2; 3; 4; 5] |}.

(* '총환자수.xlsx' and '발열환자수.xlsx' *)
Definition fileSuffix_visit : jsstring :=
  [52509; 54872; 51088; 49688]%N ++ str ".xlsx".
Definition fileSuffix_fever : jsstring :=
  [48156; 50676; 54872; 51088; 49688]%N ++ str ".xlsx".

Record Aggregated : Type := {
  agg_weekStart : jsstring;
  agg_weekEnd : jsstring;
  agg_totalVisit : Z;
  agg_totalFever : Z;
  agg_overallRatio : number;
  agg_combinedGroups : list CombinedGroup;
  agg_missingDays : list jsstring
}.

Section AggregateWeek.

(** The services of the host: [Utilities.formatDate(date, timezone,
    'yyyy-MM-dd')], the files of the folder by name, and the ages that
    [extractAgesFromExcel] reads from a file. *)
Variable formatDate : jsdate -> jsstring.
Variable file : Type.
Variable findFileByName : jsstring -> option file.
Variable extractAges : file -> list Z.

Record DayState : Type := {
  visitAges : list Z;
  feverAges : list Z;
  missing : list jsstring        (* the labels added to the set, in order *)
}.

(** The body of [range.days.forEach]. *)
Definition aggregateDay (st : DayState) (date : jsdate) : DayState :=
  let dateLabel := formatDate date in
  let visitFileName := dateLabel ++ 95%N :: fileSuffix_visit in
  let feverFileName := dateLabel ++ 95%N :: fileSuffix_fever in
  let st1 :=
    match findFileByName visitFileName with
    | Some f => {| visitAges := visitAges st ++ extractAges f;
                   feverAges := feverAges st;
                   missing := missing st |}
    | None => {| visitAges := visitAges st; feverAges := feverAges st;
                 missing := missing st ++ [dateLabel] |}
    end in
  match findFileByName feverFileName with
  | Some f => {| visitAges := visitAges st1;
                 feverAges := feverAges st1 ++ extractAges f;
                 missing := missing st1 |}
  | None => {| visitAges := visitAges st1; feverAges := feverAges st1;
               missing := missing st1 ++ [dateLabel] |}
  end.

(** [aggregateWeek], but for [createdAt], the time of the run. *)
Definition aggregateWeek (range : WeekRange) : Aggregated :=
  let st := fold_left aggregateDay (range_days range)
                      {| visitAges := []; feverAges := []; missing := [] |} in
  let visitCounts := buildCounts (visitAges st) in
  let feverCounts := buildCounts (feverAges st) in
  let totalVisit := Z.of_nat (length (visitAges st)) in
  let totalFever := Z.of_nat (length (feverAges st)) in
  {| agg_weekStart := formatDate (range_start range);
     agg_weekEnd := formatDate (range_end range);
     agg_totalVisit := totalVisit;
     agg_totalFever := totalFever;
     agg_overallRatio :=
       ratio (Fin (inject_Z totalFever)) (Fin (inject_Z totalVisit));
     agg_combinedGroups := combineCounts visitCounts (as_fever feverCounts);
     agg_missingDays := sort_strings (uniq (missing st)) |}.

End AggregateWeek.

(** *** [upsertReportRow] *)

(** The row that is written: the week, and the seven cells after it
    (the end of the week, the totals, the ratio, the two serialized
    lists and the time of the run). *)
Record ReportRow : Type := {
  row_weekStart : jsstring;
  row_rest : list value
}.

Definition rowValues (result : ReportRow) : row :=
  VString (row_weekStart result) :: row_rest result.

Definition headers : list jsstring :=
  [str "week_start"; str "week_end"; str "total_visit"; str "total_fever";
   str "overall_ratio"; str "groups_json"; str "missing_days";
   str "created_at"].

Definition bar : jsstring := str "|".

(** [sheet.getRange(r, 1, 1, values.length).setValues([values])] on the
    row: the cells of [values], and the cells of the row after them. *)
Definition setValues (values old : row) : row :=
  values ++ skipn (length values) old.

(** [data[i][0] === weekStart] *)
Definition is_week (weekStart : jsstring) (r : row) : bool :=
  match r with
  | VString s :: _ => jsstring_eqb s weekStart
  | _ => false
  end.

(** The rows after the header with the first row of the week, if there
    is one, overwritten; [None] when there is no such row. *)
Fixpoint replaceWeek (weekStart : jsstring) (values : row) (rows : list row)
  : option (list row) :=
  match rows with
  | [] => None
  | r :: rest =>
      if is_week weekStart r then Some (setValues values r :: rest)
      else match replaceWeek weekStart values rest with
           | Some rest' => Some (r :: rest')
           | None => None
           end
  end.

Section Upsert.

(** ToString on a cell, as [Array.prototype.join] applies it. *)
Variable cellToString : value -> jsstring.

(** [upsertReportRow]: the rows of the sheet before and after. *)
Definition upsertReportRow (result : ReportRow) (data : list row)
  : list row :=
  match data with
  | [] =>
      (* [appendRow(CONFIG.headers)], then no row to look at *)
      [map VString headers; rowValues result]
  | headerRow :: rows =>
      let header :=
        if jsstring_eqb (join bar (map cellToString headerRow))
                        (join bar headers)
        then headerRow
        else setValues (map VString headers) headerRow in
      match replaceWeek (row_weekStart result) (rowValues result) rows with
      | Some rows' => header :: rows'
      | None => header :: rows ++ [rowValues result]
      end
  end.

End Upsert.

End WeeklyReport.

(** ** [api/reports.js]: the cells of the report sheet *)

Module Api.

Definition MS_PER_DAY : Z := 24 * 60 * 60 * 1000.
Definition KST_OFFSET_MS : Z := 9 * 60 * 60 * 1000.
(* Date.UTC(1899, 11, 30) *)
Definition EXCEL_EPOCH_MS : Z := MakeDay 1899 11 30 * MS_PER_DAY.

(** A [Date] by its time value, in milliseconds; [None] for an Invalid
    Date. *)
Definition msdate := option Z.

(** [new Date(ms)]: TimeClip on the number. *)
Definition new_Date_ms (ms : number) : msdate :=
  match ms with
  | Fin q =>
      if (Qle_bool (inject_Z (- 8640000000000000)) q
          && Qle_bool q (inject_Z 8640000000000000))%bool
      then Some (trunc q) else None
  | _ => None
  end.

Definition serialToKstDate (value : number) : msdate :=
  new_Date_ms
    (js_add (js_add (Fin (inject_Z EXCEL_EPOCH_MS))
                    (js_mul value (Fin (inject_Z MS_PER_DAY))))
            (Fin (inject_Z KST_OFFSET_MS))).

(** [String(n)] for the number of a field of a date, [NaN] for the
    fields of an Invalid Date. *)
Definition field_string (f : Z -> Z) (d : msdate) : jsstring :=
  match d with
  | Some t => int_to_jsstring (f t)
  | None => str "NaN"
  end.

Definition utc_day (t : Z) : Z := t / MS_PER_DAY.

(** [normalizeDateCell] on a finite number. *)
Definition normalizeSerial (value : number) (withTime : bool) : jsstring :=
  let date := serialToKstDate value in
  let year := field_string (fun t => year_of (utc_day t)) date in
  let month := padStart2 (field_string (fun t => month_of (utc_day t) + 1) date) in
  let day := padStart2 (field_string (fun t => date_of (utc_day t)) date) in
  let ymd := year ++ hyphen :: month ++ hyphen :: day in
  if withTime then
    let hours :=
      padStart2 (field_string (fun t => (t mod MS_PER_DAY) / 3600000) date) in
    let minutes :=
      padStart2 (field_string (fun t => (t mod 3600000) / 60000) date) in
    ymd ++ 32%N :: hours ++ 58%N :: minutes
  else ymd.

(** [/^\d+(\.\d+)?$/.test(s)] *)
Definition is_decimal_text (s : jsstring) : bool :=
  match take_digits s with
  | ([], _) => false
  | (_, []) => true
  | (_, c :: r) =>
      if N.eqb c 46 then
        match take_digits r with
        | ([], _) => false
        | (_, []) => true
        | _ => false
        end
      else false
  end.

Definition normalizeDateCell (v : value) (withTime : bool) : jsstring :=
  match v with
  | VNumber (Fin q) => normalizeSerial (Fin q) withTime
  | VString s =>
      let trimmed := trim s in
      if is_decimal_text trimmed then
        match StringToNumber trimmed with
        | Fin q => normalizeSerial (Fin q) withTime
        | _ => trimmed
        end
      else trimmed
  | _ => []
  end.

End Api.

(** ** Definitions used to state properties of the weekly job *)

(** The valid ages of a sheet, as the weekly job reads them. *)
Definition script_ages (sh : WeeklyReport.gsheet) : list Z :=
  collectAges Script.normalizeAge (snd sh).

(** What the scan of [extractAgesFromExcel] has established after a
    prefix [seen] of the sheets. *)
Definition scanned_sheets (seen : list WeeklyReport.gsheet)
  (best : WeeklyReport.BestAges) : Prop :=
  (forall sh, In sh seen ->
     (length (script_ages sh) <= length (WeeklyReport.ages best))%nat) /\
  ((WeeklyReport.ages best = [] /\
    forall sh, In sh seen -> script_ages sh = []) \/
   exists before sh after,
     seen = before ++ sh :: after /\
     WeeklyReport.ages best = script_ages sh /\
     WeeklyReport.ages best <> [] /\
     forall s, In s before ->
       (length (script_ages s) < length (WeeklyReport.ages best))%nat).

(** No cell of column D is a string with a digit in it. *)
Definition no_digit_text (rows : list row) : bool :=
  forallb (fun r => match cell r 3 with
                    | VString s => forallb (fun c => negb (is_digit c)) s
                    | _ => true
                    end)
          rows.

(** The workbook that the web app is given for the sheets of the job. *)
Definition workbook_of (sheets : list WeeklyReport.gsheet) : workbook :=
  {| SheetNames := map fst sheets; Sheets := sheets |}.

(** The labels of the days of a list that lack a file, a day that lacks
    both files twice. *)
Definition missing_labels (formatDate : jsdate -> jsstring) {file : Type}
  (findFileByName : jsstring -> option file) (days : list jsdate)
  : list jsstring :=
  flat_map
    (fun d =>
       let l := formatDate d in
       (match findFileByName (l ++ 95%N :: WeeklyReport.fileSuffix_visit) with
        | Some _ => [] | None => [l] end) ++
       (match findFileByName (l ++ 95%N :: WeeklyReport.fileSuffix_fever) with
        | Some _ => [] | None => [l] end))
    days.

(** The ages of the files of one kind that are there, day by day. *)
Definition found_ages (formatDate : jsdate -> jsstring) {file : Type}
  (findFileByName : jsstring -> option file) (extractAges : file -> list Z)
  (suffix : jsstring) (days : list jsdate) : list Z :=
  flat_map
    (fun d =>
       match findFileByName (formatDate d ++ 95%N :: suffix) with
       | Some f => extractAges f
       | None => []
       end)
    days.

(** A folder for examples: the visit file of 2024-06-10 alone, one
    sheet with three ages. *)
Definition sample_folder (name : jsstring)
  : option (list WeeklyReport.gsheet) :=
  if jsstring_eqb name (str "2024-06-10_" ++ WeeklyReport.fileSuffix_visit)
  then Some [(str "Sheet1",
              [[VNull; VNull; VNull; VNumber (Fin 3)];
               [VNull; VNull; VNull; VNumber (Fin 40)];
               [VNull; VNull; VNull; VString (str "70")]])]
  else None.

(** The first cell of a row is the string [s]. *)
Definition starts_with (s : jsstring) (r : row) : Prop :=
  hd_error r = Some (VString s).

(* ================================================================== *)
(** * Part II - properties                                             *)
(* ================================================================== *)

(** ** Generic facts *)

Lemma all_from_spec (P : Z -> bool) (n : nat) :
  forall lo, all_from P lo n = true ->
  forall z, lo <= z < lo + Z.of_nat n -> P z = true.
Proof.
  induction n as [|k IH]; intros lo H z Hz.
  - simpl in Hz. lia.
  - simpl in H. apply andb_true_iff in H. destruct H as [H0 H1].
    destruct (Z.eq_dec z lo) as [->|Hne]; [exact H0|].
    apply (IH (lo + 1) H1). lia.
Qed.

Lemma tally_app (p : Z -> bool) (l1 l2 : list Z) :
  tally p (l1 ++ l2) = tally p l1 + tally p l2.
Proof.
  unfold tally. rewrite filter_app, length_app. lia.
Qed.

Lemma tally_one (p : Z -> bool) (a : Z) :
  tally p [a] = if p a then 1 else 0.
Proof.
  unfold tally. simpl. destruct (p a); reflexivity.
Qed.

Lemma tally_nonneg (p : Z -> bool) (l : list Z) : 0 <= tally p l.
Proof. unfold tally. lia. Qed.

Lemma tally_cons (p : Z -> bool) (a : Z) (l : list Z) :
  tally p (a :: l) = (if p a then 1 else 0) + tally p l.
Proof.
  change (a :: l) with ([a] ++ l). rewrite tally_app, tally_one. reflexivity.
Qed.

(** ** normalizeAge on numbers *)

Lemma floor_trunc (q : Q) :
  Qfloor q =
  if (is_negative q && negb (Qnum q mod QDen q =? 0))%bool
  then trunc q - 1 else trunc q.
Proof.
  destruct q as [n d]. unfold Qfloor, trunc, is_negative. simpl.
  assert (Hd : 0 < Z.pos d) by lia.
  destruct (Z.ltb_spec n 0) as [Hn|Hn]; simpl.
  - destruct (Z.eqb_spec (n mod Z.pos d) 0) as [Hm|Hm]; simpl.
    + apply Z.mod_divide in Hm; [|lia]. destruct Hm as [k ->].
      rewrite Z.div_mul, Z.quot_mul; lia.
    + assert (Hm' : (- n) mod Z.pos d <> 0).
      { intro E. apply Hm.
        apply Z.mod_divide in E; [|lia]. apply Z.mod_divide; [lia|].
        destruct E as [k Hk]. exists (- k). lia. }
      replace n with (- (- n)) by lia.
      rewrite Z.quot_opp_l by lia.
      rewrite Z.quot_div_nonneg by lia.
      rewrite (Z_div_nz_opp_full (- n) (Z.pos d)) by (lia || exact Hm').
      lia.
  - rewrite Z.quot_div_nonneg by lia. reflexivity.
Qed.

(** C2 - On a number [normalizeAge] gives [null] when the number is not
    finite, and otherwise its floor: the truncation toward zero of a
    non-negative or integer number, and one less than the truncation
    toward zero of a negative number that is not an integer. *)
Theorem normalizeAge_number (x : number) :
  normalizeAge (VNumber x) =
  match x with
  | Fin q =>
      Some (if (is_negative q && negb (Qnum q mod QDen q =? 0))%bool
            then trunc q - 1 else trunc q)
  | _ => None
  end.
Proof.
  destruct x as [| b | q]; try reflexivity.
  unfold normalizeAge, normalizeAgeWith, isFinite_floor.
  rewrite floor_trunc. reflexivity.
Qed.

(** C2 - the claim as stated fails at -1.5: the code gives -2, not the
    truncation toward zero -1.  *)
Lemma normalizeAge_negative_is_floor :
  normalizeAge (VNumber (Fin (-3 # 2))) = Some (-2) /\
  trunc (-3 # 2) = -1 /\
  normalizeAge (VNumber (Fin (-3 # 2))) <> Some (trunc (-3 # 2)).
Proof.
  repeat split; try reflexivity. vm_compute. discriminate.
Qed.

(** 6.9, the literal and the binary64 number nearest to it. *)
Example normalizeAge_6_9 :
  normalizeAge (VNumber (Fin (69 # 10))) = Some 6 /\
  normalizeAge (VNumber (StringToNumber (str "6.9"))) = Some 6.
Proof. split; reflexivity. Qed.

(** ** buildCounts *)

Section CountsOf.

Variable defs : list AgeGroup.

Lemma countAge_countsOf (done : list Z) (a : Z) :
  countAge (countsOf defs done) a = countsOf defs (done ++ [a]).
Proof.
  unfold countAge, countsOf. rewrite map_map.
  apply map_ext. intros g. cbn [count_band count children].
  rewrite tally_app, tally_one.
  destruct (in_range a (group_band g)) eqn:Hg.
  - f_equal. rewrite map_map. apply map_ext. intros c.
    cbn [child_band child_count].
    rewrite tally_app, tally_one, Hg. simpl.
    destruct (in_range a c); [reflexivity|].
    f_equal. lia.
  - f_equal; [lia|].
    apply map_ext. intros c. f_equal.
    rewrite tally_app, tally_one, Hg. simpl. lia.
Qed.

Lemma fold_countAge (l : list Z) :
  forall done,
    fold_left countAge l (countsOf defs done) = countsOf defs (done ++ l).
Proof.
  induction l as [|a l IH]; intros done.
  - rewrite app_nil_r. reflexivity.
  - simpl. rewrite countAge_countsOf, IH, <- app_assoc. reflexivity.
Qed.

End CountsOf.

Lemma zeroCounts_countsOf (defs : list AgeGroup) :
  zeroCounts defs = countsOf defs [].
Proof. reflexivity. Qed.

(** The tree of [buildCounts] in closed form. *)
Lemma buildCounts_countsOf (l : list Z) :
  buildCounts l = countsOf AGE_GROUPS l.
Proof.
  unfold buildCounts. rewrite zeroCounts_countsOf.
  apply (fold_countAge AGE_GROUPS l []).
Qed.

Lemma one_band_0_120 (a : Z) : 0 <= a <= 120 -> one_band a = true.
Proof.
  intros Ha.
  apply (all_from_spec one_band (Z.to_nat 121) 0); [vm_compute; reflexivity|].
  rewrite Z2Nat.id; lia.
Qed.

Lemma sum_top_level (l : list Z) :
  Forall (fun a => 0 <= a <= 120) l ->
  sum (map count (countsOf AGE_GROUPS l)) = Z.of_nat (length l).
Proof.
  induction 1 as [|a l Ha _ IH].
  - reflexivity.
  - revert IH. unfold countsOf, AGE_GROUPS, sum. cbn [map fold_right count].
    rewrite !tally_cons. intros IH.
    change (length (a :: l)) with (S (length l)). rewrite Nat2Z.inj_succ.
    rewrite <- IH. unfold in_range. cbn [group_band band_range fst snd].
    repeat match goal with
           | |- context [(?x <=? ?y)] => destruct (Z.leb_spec x y)
           end; cbn [andb]; lia.
Qed.

(** C3 - For a list of ages that all lie in 0..120: every age is in the
    range of exactly one of the five top-level bands and of at most one
    child of any band; every count that [buildCounts] returns is the
    number of ages in the range of its band (so an age is counted once at
    the top level and at most once below); and the five top-level counts
    add up to the length of the list. *)
Theorem buildCounts_one_band_each (l : list Z) :
  Forall (fun a => 0 <= a <= 120) l ->
  map (fun g => band_id (count_band g)) (buildCounts l)
    = [str "0-6"; str "7-18"; str "19-49"; str "50-64"; str "65+"] /\
  (forall a, In a l ->
     length (filter (fun g => in_range a (group_band g)) AGE_GROUPS) = 1%nat /\
     forall g, In g AGE_GROUPS ->
       (length (filter (in_range a) (children_of g)) <= 1)%nat) /\
  buildCounts l = countsOf AGE_GROUPS l /\
  sum (map count (buildCounts l)) = Z.of_nat (length l).
Proof.
  intros Hl. rewrite buildCounts_countsOf.
  split; [reflexivity|]. split; [|split; [reflexivity|]].
  - intros a Ha.
    rewrite Forall_forall in Hl. specialize (Hl a Ha).
    pose proof (one_band_0_120 a Hl) as H.
    unfold one_band in H. apply andb_true_iff in H. destruct H as [H1 H2].
    split.
    + apply Nat.eqb_eq. exact H1.
    + intros g Hg. rewrite forallb_forall in H2.
      apply Nat.leb_le. apply H2. exact Hg.
  - apply sum_top_level. exact Hl.
Qed.

Lemma buildCounts_one_band_each_witness :
  map count (buildCounts [0; 3; 10; 20; 70]) = [2; 1; 1; 0; 1] /\
  sum (map count (buildCounts [0; 3; 10; 20; 70])) = 5.
Proof.
  assert (H : Forall (fun a => 0 <= a <= 120) [0; 3; 10; 20; 70])
    by (repeat constructor; lia).
  split; [reflexivity|].
  exact (proj2 (proj2 (proj2 (buildCounts_one_band_each _ H)))).
Defined.

(** An age of band 0-6 is in exactly one of its two children, and so for
    7-18. *)
Lemma tally_split (p q1 q2 : Z -> bool) (l : list Z) :
  (forall a, p a = true -> xorb (q1 a) (q2 a) = true) ->
  tally p l
  = tally (fun a => (p a && q1 a)%bool) l + tally (fun a => (p a && q2 a)%bool) l.
Proof.
  intros H. induction l as [|a l IH]; [reflexivity|].
  rewrite !tally_cons, IH. specialize (H a).
  destruct (p a); cbn [andb]; [|lia].
  specialize (H eq_refl).
  destruct (q1 a), (q2 a); cbn [xorb] in H; try discriminate; lia.
Qed.

(** C10 - For every list of ages, in the tree of [buildCounts] the bands
    that have children are 0-6 and 7-18, the count of each of them is the
    sum of the counts of its children, and no count is negative. *)
Theorem buildCounts_parent_is_sum_of_children (l : list Z) :
  map (fun g => (band_id (count_band g), length (children g))) (buildCounts l)
    = [(str "0-6", 2%nat); (str "7-18", 2%nat); (str "19-49", 0%nat);
       (str "50-64", 0%nat); (str "65+", 0%nat)] /\
  (forall g, In g (buildCounts l) ->
     (children g <> [] -> count g = sum (map child_count (children g))) /\
     0 <= count g /\
     forall c, In c (children g) -> 0 <= child_count c).
Proof.
  rewrite buildCounts_countsOf. split; [reflexivity|].
  intros g Hg. unfold countsOf, AGE_GROUPS in Hg. cbn [map] in Hg.
  assert (Hsplit : forall lo mid hi, lo <= mid < hi ->
            tally (fun a => ((lo <=? a) && (a <=? hi))%bool) l
            = tally (fun a => ((lo <=? a) && (a <=? hi)
                               && ((lo <=? a) && (a <=? mid)))%bool) l
              + tally (fun a => ((lo <=? a) && (a <=? hi)
                                 && ((mid + 1 <=? a) && (a <=? hi)))%bool) l).
  { intros lo mid hi Hm. apply tally_split. intros a Ha.
    apply andb_true_iff in Ha. destruct Ha as [H1 H2].
    rewrite H1, H2. cbn [andb].
    destruct (Z.leb_spec a mid), (Z.leb_spec (mid + 1) a); simpl; try reflexivity; lia. }
  repeat (destruct Hg as [<-|Hg]; [
    cbn [children count children_of group_children map child_count sum fold_right];
    unfold in_range; cbn [group_band band_range fst snd];
    split; [intros Hc | split; [apply tally_nonneg |
      intros c Hc; repeat (destruct Hc as [<-|Hc]; [apply tally_nonneg|]);
      destruct Hc]] |]); try destruct Hg.
  - rewrite (Hsplit 0 0 6) by lia. cbn. lia.
  - rewrite (Hsplit 7 12 18) by lia. cbn. lia.
  - congruence.
  - congruence.
  - congruence.
Qed.

(** ** combineCounts *)

Lemma find_nil {A : Type} (f : A -> bool) : find f [] = None.
Proof. reflexivity. Qed.

(** The nodes of a combined tree, flattened: each group followed by its
    children, as (id, label, totalCount, feverCount). *)
Lemma combineCounts_length (T : list GroupCount) (F : list FeverGroup) :
  length (combineCounts T F) = length T.
Proof. unfold combineCounts. apply length_map. Qed.

Lemma combineCounts_bands (T : list GroupCount) (F : list FeverGroup) :
  map combined_band (combineCounts T F) = map count_band T.
Proof.
  unfold combineCounts. rewrite map_map. apply map_ext. reflexivity.
Qed.

Lemma combineCounts_totals (T : list GroupCount) (F : list FeverGroup) :
  map totalCount (combineCounts T F) = map count T.
Proof.
  unfold combineCounts. rewrite map_map. apply map_ext. reflexivity.
Qed.

Lemma combineCounts_children (T : list GroupCount) (F : list FeverGroup) :
  map (fun g => map (fun c => (combined_child c, child_totalCount c))
                    (combined_children g))
      (combineCounts T F)
  = map (fun g => map (fun c => (c, child_count c)) (children g)) T.
Proof.
  unfold combineCounts. rewrite map_map. apply map_ext. intros g.
  cbn [combined_children]. rewrite map_map. apply map_ext. reflexivity.
Qed.

Lemma combineCounts_empty_fever (T : list GroupCount) :
  Forall (fun g => feverCount g = 0 /\
                   Forall (fun c => child_feverCount c = 0)
                          (combined_children g))
         (combineCounts T []).
Proof.
  unfold combineCounts. apply Forall_forall. intros g Hg.
  apply in_map_iff in Hg. destruct Hg as [t [<- _]].
  cbn. split; [reflexivity|].
  apply Forall_forall. intros c Hc.
  apply in_map_iff in Hc. destruct Hc as [u [<- _]]. reflexivity.
Qed.

(** C5 - For the count tree [T] of any list of ages: combining [T] with
    the empty fever tree gives one node per node of [T], groups and
    children alike, in the order of [T] and with the bands (id, label) of
    [T]; every [totalCount] is the count of the node in [T] and every
    [feverCount] is 0.  And for a fever tree [F] of any shape (ids that
    match or not, counts and children present or missing) the combined
    tree is defined and has, again, the nodes of [T] with their counts as
    [totalCount]. *)
Theorem combineCounts_empty_fever_tree (l : list Z) :
  let T := buildCounts l in
  (forall F : list FeverGroup,
     length (combineCounts T F) = length T /\
     map combined_band (combineCounts T F) = map count_band T /\
     map totalCount (combineCounts T F) = map count T /\
     map (fun g => map (fun c => (combined_child c, child_totalCount c))
                       (combined_children g))
         (combineCounts T F)
     = map (fun g => map (fun c => (c, child_count c)) (children g)) T) /\
  Forall (fun g => feverCount g = 0 /\
                   Forall (fun c => child_feverCount c = 0)
                          (combined_children g))
         (combineCounts T []).
Proof.
  intros T. split.
  - intros F. split; [apply combineCounts_length|].
    split; [apply combineCounts_bands|].
    split; [apply combineCounts_totals|apply combineCounts_children].
  - apply combineCounts_empty_fever.
Qed.

(** The example of the specification: ages 0, 3, 10, 20, 70 for the
    visits and 3, 70 for the fevers. *)
Example combineCounts_example :
  map (fun g => (band_id (combined_band g), totalCount g, feverCount g))
      (combineCounts (buildCounts [0; 3; 10; 20; 70])
                     (as_fever (buildCounts [3; 70])))
  = [(str "0-6", 2, 1); (str "7-18", 1, 0); (str "19-49", 1, 0);
     (str "50-64", 0, 0); (str "65+", 1, 1)].
Proof. reflexivity. Qed.

(** ** findAgesInWorkbook *)

Section FindAges.

Variable wb : workbook.

Lemma scanned_start : scanned wb [] empty_best.
Proof.
  split; [reflexivity|]. split; [intros n []|].
  left. split; [reflexivity|intros n []].
Qed.

Lemma scanned_step (seen : list jsstring) (best : Best) (n : jsstring) :
  scanned wb seen best -> scanned wb (seen ++ [n]) (pick wb best n).
Proof.
  intros [Hc [Hmax Hcase]]. unfold pick.
  destruct (Z.ltb_spec (best_count best) (Z.of_nat (length (sheetAges wb n))))
    as [Hlt|Hge].
  - (* the sheet is strictly longer: it becomes the best *)
    unfold scanned. cbn [best_ages best_sheetName best_count].
    split; [reflexivity|]. split.
    + intros m Hm. apply in_app_or in Hm. destruct Hm as [Hm|[<-|[]]].
      * specialize (Hmax m Hm). lia.
      * lia.
    + right. exists seen, []. split; [reflexivity|]. split; [reflexivity|].
      split.
      * intro E. rewrite E in Hlt. simpl in Hlt. lia.
      * intros m Hm. specialize (Hmax m Hm). lia.
  - split; [exact Hc|]. split.
    + intros m Hm. apply in_app_or in Hm. destruct Hm as [Hm|[<-|[]]].
      * apply Hmax. exact Hm.
      * lia.
    + destruct Hcase as [[He Hall]|[before [after [Hs [Ha [Hne Hb]]]]]].
      * left. split; [exact He|].
        intros m Hm. apply in_app_or in Hm. destruct Hm as [Hm|[<-|[]]].
        -- apply Hall. exact Hm.
        -- subst best. simpl in Hge.
           destruct (sheetAges wb n); [reflexivity|simpl in Hge; lia].
      * right. exists before, (after ++ [n]).
        split; [rewrite Hs, <- app_assoc; reflexivity|].
        split; [exact Ha|]. split; [exact Hne|exact Hb].
Qed.

Lemma scanned_fold (todo : list jsstring) :
  forall seen best,
    scanned wb seen best ->
    scanned wb (seen ++ todo) (fold_left (pick wb) todo best).
Proof.
  induction todo as [|n todo IH]; intros seen best H.
  - rewrite app_nil_r. exact H.
  - simpl. replace (seen ++ n :: todo) with ((seen ++ [n]) ++ todo)
      by (rewrite <- app_assoc; reflexivity).
    apply IH. apply scanned_step. exact H.
Qed.

Lemma findAgesInWorkbook_scanned :
  scanned wb (SheetNames wb) (findAgesInWorkbook wb).
Proof.
  exact (scanned_fold (SheetNames wb) [] empty_best scanned_start).
Qed.

End FindAges.

(** The ages of one sheet: the cells of column 3 that [normalizeAge]
    makes an integer of 0..120, in the order of the rows. *)
Lemma collectAges_spec (normalize : value -> option Z) (rows : list row) :
  collectAges normalize rows
  = flat_map (fun r =>
                match normalize (cell r 3) with
                | Some age => if ((0 <=? age) && (age <=? 120))%bool
                              then [age] else []
                | None => []
                end) rows.
Proof.
  unfold collectAges.
  set (step := fun (ages : list Z) (r : row) => _).
  assert (H : forall acc, fold_left step rows acc
                          = acc ++ flat_map (fun r =>
                              match normalize (cell r 3) with
                              | Some age => if ((0 <=? age) && (age <=? 120))%bool
                                            then [age] else []
                              | None => []
                              end) rows).
  { induction rows as [|r rows IH]; intros acc.
    - simpl. rewrite app_nil_r. reflexivity.
    - simpl. rewrite IH. unfold step, TARGET_COLUMN_INDEX.
      destruct (normalize (cell r 3)) as [age|].
      + destruct ((0 <=? age) && (age <=? 120))%bool.
        * rewrite <- app_assoc. reflexivity.
        * reflexivity.
      + reflexivity. }
  apply (H []).
Qed.


(** ** Strings *)

Lemma jsstring_eqb_eq (a b : jsstring) : jsstring_eqb a b = true <-> a = b.
Proof.
  revert b. induction a as [|x a IH]; intros [|y b]; simpl;
    try (split; [discriminate|discriminate]); [tauto|].
  unfold cu_eqb. rewrite andb_true_iff, N.eqb_eq, IH.
  split; [intros [-> ->]; reflexivity|intros H; inversion H; auto].
Qed.

Lemma jsstring_eqb_refl (a : jsstring) : jsstring_eqb a a = true.
Proof. apply jsstring_eqb_eq. reflexivity. Qed.

Lemma jsstring_eqb_neq (a b : jsstring) : jsstring_eqb a b = false <-> a <> b.
Proof.
  rewrite <- jsstring_eqb_eq. destruct (jsstring_eqb a b); split; congruence.
Qed.

Lemma jsstring_eqb_sym (a b : jsstring) : jsstring_eqb a b = jsstring_eqb b a.
Proof.
  destruct (jsstring_eqb a b) eqn:E.
  - apply jsstring_eqb_eq in E. subst. symmetry. apply jsstring_eqb_refl.
  - symmetry. apply jsstring_eqb_neq. apply jsstring_eqb_neq in E. congruence.
Qed.

(** ** The map of date counts *)

Lemma map_get_set (m : DateMap) (k k' : jsstring) (v : Z) :
  map_get (map_set m k v) k' =
  if jsstring_eqb k k' then Some v else map_get m k'.
Proof.
  induction m as [|[k0 v0] m IH]; simpl.
  - reflexivity.
  - destruct (jsstring_eqb k0 k) eqn:E0; simpl.
    + apply jsstring_eqb_eq in E0. subst k0.
      destruct (jsstring_eqb k k'); reflexivity.
    + rewrite IH. destruct (jsstring_eqb k0 k') eqn:E1; [|reflexivity].
      apply jsstring_eqb_eq in E1. subst k0. rewrite jsstring_eqb_sym, E0.
      reflexivity.
Qed.

Lemma map_set_keys (m : DateMap) (k : jsstring) (v : Z) :
  map fst (map_set m k v) =
  if existsb (jsstring_eqb k) (map fst m) then map fst m else map fst m ++ [k].
Proof.
  induction m as [|[k0 v0] m IH]; simpl; [reflexivity|].
  rewrite (jsstring_eqb_sym k k0).
  destruct (jsstring_eqb k0 k); simpl; [reflexivity|].
  rewrite IH. destruct (existsb (jsstring_eqb k) (map fst m)); reflexivity.
Qed.

Lemma existsb_eqb_In (k : jsstring) (l : list jsstring) :
  existsb (jsstring_eqb k) l = true <-> In k l.
Proof.
  rewrite existsb_exists. split.
  - intros [x [Hx E]]. apply jsstring_eqb_eq in E. subst. exact Hx.
  - intros H. exists k. split; [exact H|apply jsstring_eqb_refl].
Qed.

Lemma map_set_NoDup (m : DateMap) (k : jsstring) (v : Z) :
  NoDup (map fst m) -> NoDup (map fst (map_set m k v)).
Proof.
  intros H. rewrite map_set_keys.
  destruct (existsb (jsstring_eqb k) (map fst m)) eqn:E; [exact H|].
  apply NoDup_app; [exact H|repeat constructor; intros []|].
  intros x Hx [<-|[]].
  apply existsb_eqb_In in Hx. congruence.
Qed.

Lemma map_get_In (m : DateMap) (k : jsstring) (v : Z) :
  NoDup (map fst m) -> (In (k, v) m <-> map_get m k = Some v).
Proof.
  induction m as [|[k0 v0] m IH]; simpl; intros Hnd.
  - split; [intros []|discriminate].
  - inversion Hnd as [|? ? Hnotin Hnd']; subst.
    destruct (jsstring_eqb k0 k) eqn:E.
    + apply jsstring_eqb_eq in E. subst k0. split.
      * intros [H|H]; [congruence|].
        exfalso. apply Hnotin. apply in_map_iff. exists (k, v). auto.
      * intros H. left. congruence.
    + apply jsstring_eqb_neq in E. rewrite <- (IH Hnd'). split.
      * intros [H|H]; [congruence|exact H].
      * intros H. right. exact H.
Qed.

Lemma filesOn_app (d : jsstring) (l1 l2 : list ParsedFile) :
  filesOn d (l1 ++ l2) = filesOn d l1 + filesOn d l2.
Proof. unfold filesOn. rewrite filter_app, length_app. lia. Qed.

Lemma filesOn_one (d : jsstring) (file : ParsedFile) :
  filesOn d [file] = if dated d file then 1 else 0.
Proof. unfold filesOn. simpl. destruct (dated d file); reflexivity. Qed.

Lemma filesOn_nonneg (d : jsstring) (l : list ParsedFile) : 0 <= filesOn d l.
Proof. unfold filesOn. lia. Qed.

Lemma counted_step (done : list ParsedFile) (m : DateMap) (file : ParsedFile) :
  counted done m -> counted (done ++ [file]) (countDate m file).
Proof.
  intros [Hnd Hget]. unfold countDate.
  assert (Hskip : (forall d, dated d file = false) ->
                  counted (done ++ [file]) m).
  { intros Hno. split; [exact Hnd|]. intros d.
    rewrite filesOn_app, filesOn_one, Hno, Z.add_0_r. apply Hget. }
  destruct (dateString file) as [[|c date]|] eqn:Hds.
  - apply Hskip. intros d. unfold dated. rewrite Hds. apply andb_false_r.
  - destruct (has_issue (nameIssue file)) eqn:Hi.
    + apply Hskip. intros d. unfold dated. rewrite Hi. reflexivity.
    + split; [apply map_set_NoDup; exact Hnd|].
      intros d. rewrite map_get_set, filesOn_app, filesOn_one.
      unfold dated. rewrite Hi, Hds. cbn [negb andb].
      pose proof (filesOn_nonneg d done) as Hpos.
      destruct (jsstring_eqb (c :: date) d) eqn:E.
      * apply jsstring_eqb_eq in E. subst d. rewrite Hget.
        destruct (Z.eqb_spec (filesOn (c :: date) done) 0) as [H0|H0].
        -- rewrite H0. reflexivity.
        -- destruct (Z.eqb_spec (filesOn (c :: date) done + 1) 0); [lia|].
           reflexivity.
      * rewrite Z.add_0_r. apply Hget.
  - apply Hskip. intros d. unfold dated. rewrite Hds. apply andb_false_r.
Qed.

Lemma counted_fold (todo : list ParsedFile) :
  forall done m,
    counted done m -> counted (done ++ todo) (fold_left countDate todo m).
Proof.
  induction todo as [|file todo IH]; intros done m H.
  - rewrite app_nil_r. exact H.
  - simpl. replace (done ++ file :: todo) with ((done ++ [file]) ++ todo)
      by (rewrite <- app_assoc; reflexivity).
    apply IH. apply counted_step. exact H.
Qed.

Lemma dateCounts_counted (files : list ParsedFile) :
  counted files (dateCounts files).
Proof.
  apply (counted_fold files [] []). split; [constructor|].
  intros d. reflexivity.
Qed.

(** The duplicated dates: each date that two or more files without name
    issue share, once, with the number of those files. *)
Lemma duplicateDates_spec (files : list ParsedFile) :
  NoDup (map fst (duplicateDates files)) /\
  forall d c, In (d, c) (duplicateDates files)
              <-> c = filesOn d files /\ 2 <= c.
Proof.
  destruct (dateCounts_counted files) as [Hnd Hget].
  unfold duplicateDates. split.
  - clear Hget. induction (dateCounts files) as [|[k v] m IH]; simpl.
    + constructor.
    + inversion Hnd as [|? ? Hnotin Hnd']; subst.
      destruct (1 <? v); simpl; [|apply IH; exact Hnd'].
      constructor; [|apply IH; exact Hnd'].
      intros Hin. apply Hnotin. apply in_map_iff in Hin.
      destruct Hin as [[k' v'] [E Hin]]. simpl in E. subst k'.
      apply filter_In in Hin. apply in_map_iff. exists (k, v'). tauto.
  - intros d c. rewrite filter_In, (map_get_In _ _ _ Hnd), Hget. simpl.
    destruct (Z.eqb_spec (filesOn d files) 0) as [H0|H0].
    + split; [intros [H _]; discriminate|intros [-> H]; lia].
    + split.
      * intros [H Hc]. inversion H. subst c. split; [reflexivity|].
        apply Z.ltb_lt in Hc. lia.
      * intros [-> Hc]. split; [reflexivity|apply Z.ltb_lt; lia].
Qed.

(** ** The warnings of a batch *)

Lemma warn_not_duplicate (text : jsstring) (items : list jsstring) :
  is_duplicate_warning (text ++ []) = false ->
  (forall rest, is_duplicate_warning (text ++ rest)
                = is_duplicate_warning (text ++ [])) ->
  forall w, In w (warn text items) -> is_duplicate_warning w = false.
Proof.
  intros H0 Hany w Hw. unfold warn in Hw.
  destruct items as [|i items]; [destruct Hw|].
  destruct Hw as [<-|[]]. rewrite Hany. exact H0.
Qed.

Ltac other_warning :=
  apply warn_not_duplicate; [reflexivity|intros rest; reflexivity].

(** The duplicate-dates warning is in the list exactly when some date is
    duplicated. *)
Lemma buildUploadWarnings_duplicates (files : list ParsedFile)
  (weekCheck : option WeekCheck) :
  (duplicateDates files <> [] ->
   In (text_duplicate ++ join comma (map duplicateEntry (duplicateDates files)))
      (buildUploadWarnings files weekCheck)) /\
  (duplicateDates files = [] ->
   forall w, In w (buildUploadWarnings files weekCheck) ->
             is_duplicate_warning w = false).
Proof.
  unfold buildUploadWarnings. split.
  - intros Hne.
    apply in_or_app; right. apply in_or_app; right. apply in_or_app; right.
    apply in_or_app; left.
    destruct (duplicateDates files) as [|e es]; [congruence|].
    left. reflexivity.
  - intros -> w Hw.
    repeat (apply in_app_or in Hw; destruct Hw as [Hw|Hw]);
      try (revert w Hw; other_warning).
    + destruct Hw.
    + destruct weekCheck as [check|]; [|destruct Hw].
      apply in_app_or in Hw. destruct Hw as [Hw|Hw];
        revert w Hw; other_warning.
Qed.

Lemma flat_map_concat {A B : Type} (f : A -> list B) (l : list A) :
  flat_map f l = concat (map f l).
Proof. induction l as [|a l IH]; simpl; [reflexivity|rewrite IH; reflexivity]. Qed.

Lemma handleUploadFiles_state
  (files : list UploadedFile) (type : UploadType) (st : UploadState) :
  handleUploadFiles files type = Some st ->
  exists weekCheck,
    st = {| upload_ages :=
              flat_map ages (map (parseFile (buildFileRegex (suffix_of type)))
                                 files);
            upload_warnings :=
              buildUploadWarnings
                (map (parseFile (buildFileRegex (suffix_of type))) files)
                weekCheck;
            upload_weekCheck := weekCheck |}.
Proof.
  unfold handleUploadFiles. destruct files as [|f files]; [discriminate|].
  intros H. injection H as <-. eexists. reflexivity.
Qed.

(** C8 - For a batch of uploaded files of either kind, parsed one by
    one: the aggregated list of ages is the concatenation of the ages of
    every file, in the order of the batch; the duplicated dates are the
    date strings that two or more files without name issue share, each
    once and with the number of those files; when there is such a date
    the warnings contain the duplicate-dates warning, its text followed
    by every duplicated date with its count; when there is none no
    warning starts with that text. *)
Theorem handleUploadFiles_duplicate_dates
  (files : list UploadedFile) (type : UploadType) (st : UploadState) :
  handleUploadFiles files type = Some st ->
  let parsed := map (parseFile (buildFileRegex (suffix_of type))) files in
  upload_ages st = concat (map ages parsed) /\
  NoDup (map fst (duplicateDates parsed)) /\
  (forall d c, In (d, c) (duplicateDates parsed)
               <-> c = filesOn d parsed /\ 2 <= c) /\
  ((exists d, 2 <= filesOn d parsed) ->
   In (text_duplicate
       ++ join comma (map (fun e => fst e ++ str " (" ++ int_to_jsstring (snd e)
                                        ++ [44060; 41]%N)
                          (duplicateDates parsed)))
      (upload_warnings st)) /\
  ((forall d, filesOn d parsed < 2) ->
   forall w, In w (upload_warnings st) -> is_duplicate_warning w = false).
Proof.
  intros H parsed. apply handleUploadFiles_state in H.
  destruct H as [wc ->]. fold parsed. cbn [upload_ages upload_warnings].
  destruct (duplicateDates_spec parsed) as [Hnd Hdup].
  split; [apply flat_map_concat|]. split; [exact Hnd|]. split; [exact Hdup|].
  destruct (buildUploadWarnings_duplicates parsed wc) as [Hyes Hno].
  split.
  - intros [d Hd]. apply Hyes. intros E.
    assert (Hin : In (d, filesOn d parsed) (duplicateDates parsed))
      by (apply Hdup; split; [reflexivity|exact Hd]).
    rewrite E in Hin. destruct Hin.
  - intros Hnone. apply Hno.
    destruct (duplicateDates parsed) as [|[d c] es]; [reflexivity|].
    exfalso. assert (Hin : In (d, c) ((d, c) :: es)) by (left; reflexivity).
    apply Hdup in Hin. destruct Hin as [-> Hc]. specialize (Hnone d). lia.
Qed.

(** ** File names *)

Lemma strip_prefix_spec (p s r : jsstring) :
  strip_prefix p s = Some r <-> s = p ++ r.
Proof.
  revert s. induction p as [|x p IH]; intros s; simpl.
  - split; [intros H; injection H as ->; reflexivity|intros ->; reflexivity].
  - destruct s as [|y s]; [split; discriminate|].
    unfold cu_eqb. destruct (N.eqb_spec x y) as [->|Hne].
    + rewrite IH. split; [intros ->; reflexivity|intros H; injection H; auto].
    + split; [discriminate|intros H; injection H; intros; congruence].
Qed.

(** The pattern of the file names, read as a shape. *)
Lemma buildFileRegex_spec (suffix name date : jsstring) :
  buildFileRegex suffix name = Some date <-> well_named suffix name date.
Proof.
  unfold well_named. split.
  - unfold buildFileRegex.
    destruct name as [|y1 [|y2 [|y3 [|y4 [|h1 [|m1 [|m2 [|h2 [|d1 [|d2 [|u rest]]]]]]]]]]];
      try discriminate.
    destruct (forallb is_digit [y1; y2; y3; y4; m1; m2; d1; d2]
              && cu_eqb h1 hyphen && cu_eqb h2 hyphen && cu_eqb u 95%N)%bool
      eqn:Hshape; [|discriminate].
    destruct (strip_prefix suffix rest) as [[|p ext]|] eqn:Hs; try discriminate.
    destruct (cu_eqb p 46%N && (ci_eqb ext (str "xlsx") || ci_eqb ext (str "xls")))%bool
      eqn:Hext; [|discriminate].
    intros H. injection H as <-.
    apply andb_true_iff in Hshape. destruct Hshape as [Hshape Hu].
    apply andb_true_iff in Hext. destruct Hext as [Hp Hext].
    apply N.eqb_eq in Hu, Hp. subst u p.
    apply strip_prefix_spec in Hs. subst rest.
    exists ext. split; [reflexivity|]. split; [exact Hshape|exact Hext].
  - intros [ext [-> [Hshape Hext]]].
    destruct date as [|y1 [|y2 [|y3 [|y4 [|h1 [|m1 [|m2 [|h2 [|d1 [|d2 [|x rest]]]]]]]]]]];
      try discriminate.
    unfold date_shaped in Hshape.
    cbn [app buildFileRegex]. rewrite Hshape. cbn [cu_eqb N.eqb Pos.eqb andb].
    assert (Hs : strip_prefix suffix (suffix ++ 46%N :: ext) = Some (46%N :: ext))
      by (apply strip_prefix_spec; reflexivity).
    rewrite Hs. cbn [cu_eqb N.eqb Pos.eqb andb]. rewrite Hext. reflexivity.
Qed.

(** C6 - For every file name and either kind of upload the
    classification is one of three outcomes, tried in this order: the
    name does not have the shape [YYYY-MM-DD_<suffix>.<xlsx|xls>], and
    the issue is ['pattern'] with no date; the name has the shape but its
    date fails the check of [parseDateString] (the date built from year,
    month - 1 and day does not give these back), and the issue is
    ['date']; or there is no issue and the date is the matched
    [YYYY-MM-DD].  'report_총환자수.xlsx' is of the first kind;
    '2024-02-30_총환자수.xlsx' is of the second, the date built from it
    being 1 March 2024. *)
Theorem classifyName_three_outcomes (type : UploadType) (fileName : jsstring) :
  let suffix := suffix_of type in
  ((forall date, ~ well_named suffix fileName date) /\
   classifyName (buildFileRegex suffix) fileName = (None, PatternIssue)
   \/
   (exists date, well_named suffix fileName date /\
                 parseDateString date = None /\
                 classifyName (buildFileRegex suffix) fileName
                 = (Some date, DateIssue))
   \/
   (exists date, well_named suffix fileName date /\
                 parseDateString date <> None /\
                 classifyName (buildFileRegex suffix) fileName
                 = (Some date, NoIssue)))
  /\ classifyName (buildFileRegex (suffix_of visit)) name_report
     = (None, PatternIssue)
  /\ classifyName (buildFileRegex (suffix_of visit)) name_feb30
     = (Some (str "2024-02-30"), DateIssue)
  /\ formatDate (new_Date (Fin 2024) (js_sub (Fin 2) (Fin 1)) (Fin 30))
     = str "2024-03-01".
Proof.
  intros suffix. split; [|repeat split; vm_compute; reflexivity].
  unfold classifyName.
  destruct (buildFileRegex suffix fileName) as [date|] eqn:Hre.
  - right. apply buildFileRegex_spec in Hre.
    destruct (parseDateString date) as [z|] eqn:Hp.
    + right. exists date. split; [exact Hre|]. split; [congruence|reflexivity].
    + left. exists date. split; [exact Hre|]. split; [exact Hp|reflexivity].
  - left. split; [|reflexivity].
    intros date Hw. apply buildFileRegex_spec in Hw. congruence.
Qed.

(** C6 - the claim as stated fails in its example: 30 February 2024
    rolls over to 1 March, 2024 being a leap year, not to 2 March. *)
Lemma feb30_2024_rolls_to_march_1 :
  formatDate (new_Date (Fin 2024) (js_sub (Fin 2) (Fin 1)) (Fin 30))
    = str "2024-03-01" /\
  jsstring_eqb
    (formatDate (new_Date (Fin 2024) (js_sub (Fin 2) (Fin 1)) (Fin 30)))
    (str "2024-03-02") = false.
Proof. split; vm_compute; reflexivity. Qed.

(** ** The calendar *)

Lemma is_leap_period (y k : Z) : is_leap (y + k * 400) = is_leap y.
Proof.
  unfold is_leap.
  replace ((y + k * 400) mod 4) with (y mod 4)
    by (replace (y + k * 400) with (y + (k * 100) * 4) by lia;
        rewrite Z_mod_plus_full; reflexivity).
  replace ((y + k * 400) mod 100) with (y mod 100)
    by (replace (y + k * 400) with (y + (k * 4) * 100) by lia;
        rewrite Z_mod_plus_full; reflexivity).
  rewrite Z_mod_plus_full. reflexivity.
Qed.

Lemma days_in_month_period (y k m : Z) :
  days_in_month (y + k * 400) m = days_in_month y m.
Proof. unfold days_in_month. rewrite is_leap_period. reflexivity. Qed.

Lemma doe_checks_all (doe : Z) : 0 <= doe < 146097 -> doe_checks doe = true.
Proof.
  intros H.
  apply (all_from_spec doe_checks (Z.to_nat 146097) 0);
    [vm_compute; reflexivity|].
  rewrite Z2Nat.id; lia.
Qed.

Lemma date_checks_all (i : Z) : 0 <= i < 148800 -> date_checks i = true.
Proof.
  intros H.
  apply (all_from_spec date_checks (Z.to_nat 148800) 0);
    [vm_compute; reflexivity|].
  rewrite Z2Nat.id; lia.
Qed.

(** Every day number has a date of the calendar, and is the day of that
    date. *)
Lemma civil_from_days_valid (z : Z) :
  let '(y, m, d) := civil_from_days z in
  valid_date y m d /\ days_from_civil y m d = z.
Proof.
  unfold civil_from_days.
  set (z' := z + 719468).
  assert (Hdoe : 0 <= z' mod 146097 < 146097) by (apply Z.mod_pos_bound; lia).
  pose proof (doe_checks_all _ Hdoe) as Hc. unfold doe_checks in Hc.
  destruct (civil_of_doe (z' mod 146097)) as [[y m] d].
  repeat (apply andb_true_iff in Hc; destruct Hc as [Hc ?]).
  repeat match goal with
         | H : (_ <=? _) = true |- _ => apply Z.leb_le in H
         | H : (_ <? _) = true |- _ => apply Z.ltb_lt in H
         | H : (_ =? _) = true |- _ => apply Z.eqb_eq in H
         end.
  unfold valid_date. rewrite days_in_month_period.
  split; [lia|].
  unfold days_from_civil.
  set (yc := if m <=? 2 then y - 1 else y) in *.
  replace (if m <=? 2 then y + z' / 146097 * 400 - 1 else y + z' / 146097 * 400)
    with (yc + z' / 146097 * 400)
    by (unfold yc; destruct (m <=? 2); lia).
  rewrite Z.div_add by lia. rewrite Z_mod_plus_full.
  rewrite (Z.div_small yc 400) by lia. rewrite (Z.mod_small yc 400) by lia.
  pose proof (Z.div_mod z' 146097). lia.
Qed.

(** Every date of the calendar is the date of its day number. *)
Lemma civil_from_days_from_civil (y m d : Z) :
  valid_date y m d -> civil_from_days (days_from_civil y m d) = (y, m, d).
Proof.
  intros [Hm Hd]. unfold days_from_civil, civil_from_days.
  set (yc := if m <=? 2 then y - 1 else y).
  set (era := yc / 400). set (yoe := yc mod 400).
  assert (Hyoe : 0 <= yoe < 400) by (apply Z.mod_pos_bound; lia).
  assert (Hyc : yc = era * 400 + yoe)
    by (unfold era, yoe; pose proof (Z.div_mod yc 400); lia).
  set (i := yoe * 372 + (m - 1) * 31 + (d - 1)).
  assert (Hdim : days_in_month y m <= 31)
    by (unfold days_in_month;
        repeat match goal with |- context [if ?c then _ else _] => destruct c end;
        lia).
  assert (Hi : 0 <= i < 148800) by (unfold i; nia).
  pose proof (date_checks_all i Hi) as Hc. unfold date_checks in Hc.
  assert (E1 : i / 372 = yoe)
    by (symmetry; apply (Z.div_unique i 372 yoe ((m - 1) * 31 + (d - 1)));
        [left; lia|unfold i; lia]).
  assert (E2 : i / 31 = yoe * 12 + (m - 1))
    by (symmetry; apply (Z.div_unique i 31 _ (d - 1)); [left; lia|unfold i; lia]).
  assert (E3 : i mod 31 = d - 1)
    by (symmetry; apply (Z.mod_unique i 31 (yoe * 12 + (m - 1)));
        [left; lia|unfold i; lia]).
  assert (E4 : (yoe * 12 + (m - 1)) mod 12 = m - 1)
    by (symmetry; apply (Z.mod_unique _ 12 yoe); [left; lia|lia]).
  rewrite E1, E2, E3, E4 in Hc.
  replace (m - 1 + 1) with m in Hc by lia.
  replace (d - 1 + 1) with d in Hc by lia.
  assert (Hy : (if m <=? 2 then yoe + 1 else yoe) + era * 400 = y)
    by (unfold yc in Hyc; destruct (m <=? 2); lia).
  rewrite <- (days_in_month_period _ era), Hy in Hc.
  destruct (Z.leb_spec d (days_in_month y m)) as [_|Hbad]; [|lia].
  destruct (civil_of_doe (doe_of_civil yoe m d)) as [[y' m'] d'] eqn:Hciv.
  repeat (apply andb_true_iff in Hc; destruct Hc as [Hc ?]).
  repeat match goal with
         | H : (_ <=? _) = true |- _ => apply Z.leb_le in H
         | H : (_ <? _) = true |- _ => apply Z.ltb_lt in H
         | H : (_ =? _) = true |- _ => apply Z.eqb_eq in H
         end.
  replace (era * 146097 + doe_of_civil yoe m d - 719468 + 719468)
    with (doe_of_civil yoe m d + era * 146097) by lia.
  rewrite Z.div_add by lia. rewrite Z_mod_plus_full.
  rewrite Z.div_small by lia. rewrite Z.mod_small by lia.
  rewrite Hciv. f_equal; [f_equal|]; lia.
Qed.
(** ** Numbers: integers are exact *)

Lemma Qred_int (n : Z) : Qred (inject_Z n) = inject_Z n.
Proof.
  unfold Qred, inject_Z.
  pose proof (Z.ggcd_gcd n 1) as Hg.
  pose proof (Z.ggcd_correct_divisors n 1) as Hd.
  destruct (Z.ggcd n 1) as [g [a b]]. cbn [fst snd] in *.
  rewrite Z.gcd_1_r in Hg. subst g. destruct Hd as [Ha Hb].
  assert (Ea : a = n) by lia. assert (Eb : b = 1) by lia.
  rewrite Ea, Eb. reflexivity.
Qed.

Lemma Qred_scaled (n k : Z) :
  0 < k -> Qred (n * k # Z.to_pos k) = inject_Z n.
Proof.
  intros Hk. rewrite <- Qred_int. apply Qred_complete.
  unfold Qeq, inject_Z. simpl. rewrite Z2Pos.id by lia. lia.
Qed.

Lemma round_half_even_exact (n : Z) : round_half_even n 1 = n.
Proof.
  unfold round_half_even. rewrite Z.mod_1_r, Z.div_1_r. reflexivity.
Qed.

Lemma round_pos_int (n : Z) :
  0 < n < 2 ^ 53 -> round_pos n 1 = Fin (inject_Z n).
Proof.
  intros Hn. unfold round_pos, ilog2_ratio, scaled_le.
  change (Z.log2 1) with 0. rewrite Z.sub_0_r.
  pose proof (Z.log2_nonneg n) as H0.
  assert (H53 : Z.log2 n < 53) by (apply Z.log2_lt_pow2; lia).
  destruct (Z.log2_spec n) as [Hlo _]; [lia|].
  destruct (Z.leb_spec 0 (Z.log2 n)) as [_|]; [|lia].
  destruct (Z.leb_spec (1 * 2 ^ Z.log2 n) n) as [_|]; [|lia].
  rewrite Z.max_l by lia.
  destruct (Z.leb_spec 0 (Z.log2 n - 52)) as [Hex|Hex].
  - assert (E : Z.log2 n - 52 = 0) by lia. rewrite E.
    change (1 * 2 ^ 0) with 1. rewrite round_half_even_exact.
    change (2 ^ 0) with 1. rewrite Z.mul_1_r.
    destruct (Z.leb_spec (2 ^ 1024) n) as [Hbig|_]; [|reflexivity].
    assert (2 ^ 53 < 2 ^ 1024) by (apply Z.pow_lt_mono_r; lia). lia.
  - rewrite round_half_even_exact.
    rewrite Qred_scaled; [reflexivity|].
    apply Z.pow_pos_nonneg; lia.
Qed.

Lemma round_double_int (n : Z) :
  Z.abs n < 2 ^ 53 -> round_double (inject_Z n) = Fin (inject_Z n).
Proof.
  intros Hn. unfold round_double. simpl.
  destruct n as [|p|p]; [reflexivity| |].
  - apply round_pos_int. lia.
  - simpl. rewrite round_pos_int by lia. reflexivity.
Qed.

Lemma round_double_den_1 (q : Q) (n : Z) :
  Qnum q = n -> QDen q = 1 -> round_double q = round_double (inject_Z n).
Proof.
  destruct q as [a b]. simpl. intros -> Hb.
  assert (b = 1%positive) by lia. subst b. reflexivity.
Qed.

Lemma js_sub_int (a b : Z) :
  Z.abs (a - b) < 2 ^ 53 ->
  js_sub (Fin (inject_Z a)) (Fin (inject_Z b)) = Fin (inject_Z (a - b)).
Proof.
  intros H. unfold js_sub.
  rewrite (round_double_den_1 _ (a - b)); [apply round_double_int; exact H| |].
  - simpl. lia.
  - reflexivity.
Qed.

Lemma js_add_int (a b : Z) :
  Z.abs (a + b) < 2 ^ 53 ->
  js_add (Fin (inject_Z a)) (Fin (inject_Z b)) = Fin (inject_Z (a + b)).
Proof.
  intros H. unfold js_add.
  rewrite (round_double_den_1 _ (a + b)); [apply round_double_int; exact H| |].
  - simpl. lia.
  - reflexivity.
Qed.

Lemma num_eqb_int (a b : Z) :
  num_eqb (Fin (inject_Z a)) (Fin (inject_Z b)) = (a =? b).
Proof.
  unfold num_eqb.
  destruct (Qeq_bool (inject_Z a) (inject_Z b)) eqn:E.
  - apply Qeq_bool_iff in E. unfold Qeq in E. simpl in E.
    symmetry. apply Z.eqb_eq. lia.
  - apply Qeq_bool_neq in E. unfold Qeq in E. simpl in E.
    symmetry. apply Z.eqb_neq. lia.
Qed.

Lemma trunc_int (n : Z) : trunc (inject_Z n) = n.
Proof. unfold trunc. simpl. apply Z.quot_1_r. Qed.

Lemma truthy_int (n : Z) : truthy (Fin (inject_Z n)) = negb (n =? 0).
Proof. reflexivity. Qed.

(** ** Strings of digits *)

Lemma is_digit_range (c : codeunit) :
  is_digit c = true <-> (48 <= c <= 57)%N.
Proof.
  unfold is_digit. rewrite andb_true_iff, !N.leb_le. tauto.
Qed.

Ltac not_this_unit c :=
  repeat match goal with
         | |- context [N.eqb c ?k] =>
             replace (N.eqb c k) with false
               by (symmetry; apply N.eqb_neq; lia)
         end.

Lemma digit_not_whitespace (c : codeunit) :
  is_digit c = true -> is_whitespace c = false.
Proof.
  intros H. apply is_digit_range in H.
  unfold is_whitespace. cbn [existsb]. not_this_unit c. reflexivity.
Qed.

Lemma take_digits_app (ds rest : jsstring) :
  all_digits ds -> no_digit_next rest -> take_digits (ds ++ rest) = (ds, rest).
Proof.
  unfold all_digits. intros Hds Hrest. induction ds as [|c ds IH]; simpl.
  - destruct rest as [|r rest]; [reflexivity|].
    simpl in Hrest. simpl. rewrite Hrest. reflexivity.
  - simpl in Hds. apply andb_true_iff in Hds. destruct Hds as [Hc Hds].
    rewrite Hc, (IH Hds). reflexivity.
Qed.

Lemma take_digits_all (ds : jsstring) :
  all_digits ds -> take_digits ds = (ds, []).
Proof.
  intros H. rewrite <- (app_nil_r ds) at 1.
  apply take_digits_app; [exact H|exact I].
Qed.

(** What [take_digits] returns: the digits in front, and a rest that does
    not start with a digit. *)
Lemma take_digits_spec (s : jsstring) :
  let (ds, rest) := take_digits s in
  s = ds ++ rest /\ all_digits ds /\ no_digit_next rest.
Proof.
  unfold all_digits. induction s as [|c s IH]; simpl.
  - repeat split.
  - destruct (is_digit c) eqn:Hc.
    + destruct (take_digits s) as [ds rest]. destruct IH as [-> [Hds Hrest]].
      simpl. rewrite Hc, Hds. repeat split. exact Hrest.
    + repeat split. simpl. exact Hc.
Qed.

Lemma drop_while_head (p : codeunit -> bool) (c : codeunit) (s : jsstring) :
  p c = false -> drop_while p (c :: s) = c :: s.
Proof. intros H. simpl. rewrite H. reflexivity. Qed.

(** A string that neither starts nor ends with white space is its own
    trim. *)
Lemma trim_id (c : codeunit) (mid : jsstring) (e : codeunit) :
  is_whitespace c = false -> is_whitespace e = false ->
  trim (c :: mid ++ [e]) = c :: mid ++ [e].
Proof.
  intros Hc He. unfold trim. rewrite drop_while_head by exact Hc.
  assert (E : rev (c :: mid ++ [e]) = e :: rev (c :: mid)).
  { change (c :: mid ++ [e]) with ((c :: mid) ++ [e]).
    rewrite rev_app_distr. reflexivity. }
  rewrite E, drop_while_head by exact He.
  rewrite <- E. apply rev_involutive.
Qed.

Lemma trim_one (c : codeunit) :
  is_whitespace c = false -> trim [c] = [c].
Proof. intros Hc. unfold trim. simpl. rewrite Hc. simpl. rewrite Hc. reflexivity. Qed.

(** A non-empty string whose first and last code units are not white
    space. *)
Lemma trim_ends (s : jsstring) (c e : codeunit) :
  hd_error s = Some c -> hd_error (rev s) = Some e ->
  is_whitespace c = false -> is_whitespace e = false ->
  trim s = s.
Proof.
  intros Hh Hl Hc He. destruct s as [|x s]; [discriminate|].
  simpl in Hh. injection Hh as ->.
  destruct (rev s) as [|y t] eqn:Hr.
  - apply (f_equal (@rev _)) in Hr. rewrite rev_involutive in Hr. subst s.
    apply trim_one. exact Hc.
  - simpl in Hl. rewrite Hr in Hl. simpl in Hl. injection Hl as ->.
    apply (f_equal (@rev _)) in Hr. rewrite rev_involutive in Hr. subst s.
    simpl. apply trim_id; assumption.
Qed.

(** ** Number(s) on decimal strings *)

Lemma radix_of_prefix_low (p : codeunit) :
  (p <= 57)%N -> radix_of_prefix p = None.
Proof.
  intros H. unfold radix_of_prefix. not_this_unit p. reflexivity.
Qed.

Lemma radix_literal_decimal (c : codeunit) (r : jsstring) :
  is_digit c = true ->
  match r with
  | [] => True
  | p :: _ => (p <= 57)%N
  end ->
  radix_literal (c :: r) = None.
Proof.
  intros Hc Hr. unfold radix_literal.
  destruct r as [|p ds]; [reflexivity|].
  rewrite (radix_of_prefix_low p Hr). destruct (N.eqb c 48); reflexivity.
Qed.

Lemma not_Infinity (c : codeunit) (r : jsstring) :
  is_digit c = true -> jsstring_eqb (c :: r) str_Infinity = false.
Proof.
  intros Hc. apply is_digit_range in Hc.
  change str_Infinity with (73%N :: str "nfinity").
  cbn [jsstring_eqb]. unfold cu_eqb. not_this_unit c. reflexivity.
Qed.

(** [Number] on a string that starts with a digit: the decimal literal is
    read from the string as it is. *)
Lemma StringToNumber_digit_first (c : codeunit) (r : jsstring) :
  is_digit c = true ->
  trim (c :: r) = c :: r ->
  match r with
  | [] => True
  | p :: _ => (p <= 57)%N
  end ->
  StringToNumber (c :: r) =
  let (ip, r1) := take_digits (c :: r) in
  match r1 with
  | x :: r2 =>
      if N.eqb x 46 then
        let (fp, r3) := take_digits r2 in exponent_part ip fp r3
      else exponent_part ip [] r1
  | [] => exponent_part ip [] r1
  end.
Proof.
  intros Hc Ht Hr. unfold StringToNumber. rewrite Ht.
  rewrite (radix_literal_decimal c r Hc Hr).
  pose proof Hc as Hc'. apply is_digit_range in Hc'.
  not_this_unit c.
  unfold unsigned_decimal. rewrite (not_Infinity c r Hc).
  cbn [take_digits]. rewrite Hc.
  destruct (take_digits r) as [ds r1].
  destruct r1 as [|x r2]; [reflexivity|].
  destruct (N.eqb x 46); [|reflexivity].
  destruct (take_digits r2) as [fp r3]. reflexivity.
Qed.

Lemma all_digits_cons (c : codeunit) (ds : jsstring) :
  all_digits (c :: ds) <-> is_digit c = true /\ all_digits ds.
Proof. unfold all_digits. simpl. apply andb_true_iff. Qed.

Lemma all_digits_last (ds : jsstring) (c e : codeunit) :
  all_digits (c :: ds) -> hd_error (rev (c :: ds)) = Some e ->
  is_digit e = true.
Proof.
  unfold all_digits. intros H Hl.
  rewrite forallb_forall in H. apply H. apply in_rev.
  destruct (rev (c :: ds)) as [|x t]; [discriminate|].
  simpl in Hl. injection Hl as ->. left. reflexivity.
Qed.

Lemma rev_head (s : jsstring) (c : codeunit) :
  exists e, hd_error (rev (c :: s)) = Some e.
Proof.
  destruct (rev (c :: s)) as [|x t] eqn:E.
  - apply (f_equal (@length _)) in E. rewrite length_rev in E. discriminate.
  - exists x. reflexivity.
Qed.

(** [Number] on a run of digits. *)
Lemma StringToNumber_digits (ds : jsstring) :
  ds <> [] -> all_digits ds ->
  StringToNumber ds = decimal_to_number (digits_value ds) 0.
Proof.
  intros Hne Hds. destruct ds as [|c r]; [congruence|].
  pose proof (proj1 (all_digits_cons c r) Hds) as [Hc Hr].
  destruct (rev_head r c) as [e He].
  pose proof (all_digits_last r c e Hds He) as Hlast.
  rewrite StringToNumber_digit_first.
  - rewrite (take_digits_all (c :: r) Hds).
    unfold exponent_part. rewrite app_nil_r. reflexivity.
  - exact Hc.
  - apply (trim_ends _ c e); [reflexivity|exact He| |];
      apply digit_not_whitespace; assumption.
  - destruct r as [|p r']; [exact I|].
    apply all_digits_cons in Hr. destruct Hr as [Hp _].
    apply is_digit_range in Hp. lia.
Qed.

(** [Number] on digits, a dot and digits. *)
Lemma StringToNumber_fraction (ip fp : jsstring) :
  ip <> [] -> fp <> [] -> all_digits ip -> all_digits fp ->
  StringToNumber (ip ++ dot :: fp)
  = decimal_to_number (digits_value (ip ++ fp)) (- Z.of_nat (length fp)).
Proof.
  intros Hi Hf Hip Hfp. destruct ip as [|c r]; [congruence|].
  destruct fp as [|f fp']; [congruence|].
  pose proof (proj1 (all_digits_cons c r) Hip) as [Hc Hr].
  destruct (rev_head fp' f) as [e He].
  pose proof (all_digits_last fp' f e Hfp He) as Hlast.
  cbn [app].
  rewrite StringToNumber_digit_first.
  - change (c :: r ++ dot :: f :: fp') with ((c :: r) ++ dot :: f :: fp').
    rewrite (take_digits_app (c :: r) (dot :: f :: fp') Hip); [|reflexivity].
    change (N.eqb dot 46) with true. cbn iota.
    rewrite (take_digits_all (f :: fp') Hfp).
    reflexivity.
  - exact Hc.
  - apply (trim_ends _ c e); [reflexivity| | |].
    + replace (c :: r ++ dot :: f :: fp') with ((c :: r ++ [dot]) ++ f :: fp')
        by (cbn [app]; rewrite <- app_assoc; reflexivity).
      rewrite rev_app_distr.
      destruct (rev (f :: fp')) as [|x t]; [discriminate|].
      simpl in He. injection He as ->. reflexivity.
    + apply digit_not_whitespace. exact Hc.
    + apply digit_not_whitespace. exact Hlast.
  - destruct r as [|p r']; cbn [app].
    + unfold dot. lia.
    + apply all_digits_cons in Hr. destruct Hr as [Hp _].
      apply is_digit_range in Hp. lia.
Qed.

Lemma digits_value_nonneg (ds : jsstring) :
  all_digits ds -> 0 <= digits_value ds.
Proof.
  unfold digits_value, all_digits.
  assert (H : forall acc, 0 <= acc -> forallb is_digit ds = true ->
                          0 <= fold_left (fun a c => 10 * a + digit_value c) ds acc).
  { induction ds as [|c ds IH]; intros acc Hacc Hds; cbn [fold_left];
      [exact Hacc|].
    simpl in Hds. apply andb_true_iff in Hds. destruct Hds as [Hc Hds].
    apply IH; [|exact Hds]. apply is_digit_range in Hc.
    unfold digit_value. lia. }
  apply H. lia.
Qed.

(** An integer written in digits is read exactly while it is below
    2^53. *)
Lemma StringToNumber_integer (ds : jsstring) :
  ds <> [] -> all_digits ds -> digits_value ds < 2 ^ 53 ->
  StringToNumber ds = Fin (inject_Z (digits_value ds)).
Proof.
  intros Hne Hds Hlt. rewrite (StringToNumber_digits ds Hne Hds).
  unfold decimal_to_number. change (0 <=? 0) with true. cbn iota.
  change (10 ^ 0) with 1. rewrite Z.mul_1_r.
  apply round_double_int.
  pose proof (digits_value_nonneg ds Hds). lia.
Qed.

(** ** normalizeAge on strings *)

Lemma regex_search_skip (f : jsstring -> option jsstring) (pre t : jsstring) :
  (forall c r, In c pre -> f (c :: r) = None) ->
  regex_search f (pre ++ t) = regex_search f t.
Proof.
  intros H. induction pre as [|c pre IH]; [reflexivity|].
  cbn [app]. cbn [regex_search].
  rewrite (H c (pre ++ t)) by (left; reflexivity).
  apply IH. intros c' r Hc'. apply H. right. exact Hc'.
Qed.

Lemma regex_search_here (f : jsstring -> option jsstring) (t m : jsstring) :
  f t = Some m -> regex_search f t = Some m.
Proof. intros H. destruct t; simpl; rewrite H; reflexivity. Qed.

Lemma regex_search_none (f : jsstring -> option jsstring) (t : jsstring) :
  f [] = None -> (forall c r, In c t -> f (c :: r) = None) ->
  regex_search f t = None.
Proof.
  intros H0 H. rewrite <- (app_nil_r t), regex_search_skip by exact H.
  simpl. rewrite H0. reflexivity.
Qed.

Lemma decimal_pattern_no_digit (c : codeunit) (r : jsstring) :
  is_digit c = false -> Script.decimal_pattern_at (c :: r) = None.
Proof.
  intros H. unfold Script.decimal_pattern_at. simpl. rewrite H. reflexivity.
Qed.

(** The pattern at the start of a decimal number: the capture is the
    number. *)
Lemma decimal_pattern_first (ip fp rest : jsstring) :
  ip <> [] -> all_digits ip -> no_digit_next rest ->
  match fp with
  | [] => no_fraction_next rest
  | _ => all_digits fp /\
         exists rest', rest = dot :: fp ++ rest' /\ no_digit_next rest'
  end ->
  Script.decimal_pattern_at (ip ++ rest)
  = Some (match fp with [] => ip | _ => ip ++ dot :: fp end).
Proof.
  intros Hne Hip Hrest Hfp. unfold Script.decimal_pattern_at.
  rewrite (take_digits_app ip rest Hip Hrest).
  destruct ip as [|c ip']; [congruence|].
  destruct fp as [|f fp'].
  - destruct rest as [|x r2]; [reflexivity|].
    unfold cu_eqb. destruct (N.eqb_spec x dot) as [->|_]; [|reflexivity].
    destruct r2 as [|d r3]; [reflexivity|].
    simpl in Hfp. simpl. rewrite (Hfp eq_refl). reflexivity.
  - destruct Hfp as [Hfp [rest' [-> Hrest']]].
    unfold cu_eqb. rewrite N.eqb_refl.
    rewrite (take_digits_app (f :: fp') rest' Hfp Hrest'). reflexivity.
Qed.

Lemma negb_digit_In (pre : jsstring) :
  forallb (fun c => negb (is_digit c)) pre = true ->
  forall c, In c pre -> is_digit c = false.
Proof.
  intros H c Hc. rewrite forallb_forall in H.
  apply negb_true_iff. apply H. exact Hc.
Qed.

Lemma search_first_decimal (t ip fp : jsstring) :
  first_decimal t ip fp ->
  regex_search Script.decimal_pattern_at t
  = Some (match fp with [] => ip | _ => ip ++ dot :: fp end).
Proof.
  intros [pre [rest [-> [Hpre [Hne [Hip [Hrest Hfp]]]]]]].
  rewrite regex_search_skip.
  - apply regex_search_here. apply decimal_pattern_first; assumption.
  - intros c r Hc. apply decimal_pattern_no_digit.
    apply (negb_digit_In pre Hpre). exact Hc.
Qed.

Lemma search_no_digit (t : jsstring) :
  (forall c, In c t -> is_digit c = false) ->
  regex_search Script.decimal_pattern_at t = None.
Proof.
  intros H. apply regex_search_none; [reflexivity|].
  intros c r Hc. apply decimal_pattern_no_digit. apply H. exact Hc.
Qed.

(** A string with a digit has a first decimal-number substring. *)
Lemma first_decimal_exists (t : jsstring) :
  (exists c, In c t /\ is_digit c = true) ->
  exists ip fp, first_decimal t ip fp.
Proof.
  induction t as [|x t IH]; intros [c [Hin Hc]]; [destruct Hin|].
  destruct (is_digit x) eqn:Hx.
  - (* the number starts here *)
    pose proof (take_digits_spec (x :: t)) as Hs.
    destruct (take_digits (x :: t)) as [ip rest] eqn:Htd.
    destruct Hs as [Eq [Hip Hrest]].
    assert (Hne : ip <> []).
    { intros ->. simpl in Htd. rewrite Hx in Htd.
      destruct (take_digits t); discriminate. }
    destruct rest as [|p [|d r]].
    + exists ip, [], [], []. rewrite Eq. repeat split; assumption.
    + exists ip, [], [], [p]. rewrite Eq. repeat split; assumption.
    + destruct (N.eqb_spec p dot) as [->|Hp].
      * destruct (is_digit d) eqn:Hd.
        -- pose proof (take_digits_spec (d :: r)) as Hs2.
           destruct (take_digits (d :: r)) as [fp rest'] eqn:Htd2.
           destruct Hs2 as [Eq2 [Hfp Hrest']].
           assert (Hfne : fp <> []).
           { intros ->. simpl in Htd2. rewrite Hd in Htd2.
             destruct (take_digits r); discriminate. }
           exists ip, fp, [], (dot :: d :: r). rewrite Eq.
           split; [reflexivity|]. split; [reflexivity|].
           split; [exact Hne|]. split; [exact Hip|]. split; [exact Hrest|].
           destruct fp as [|f fp']; [congruence|].
           split; [exact Hfp|]. exists rest'. rewrite Eq2. split; [reflexivity|exact Hrest'].
        -- exists ip, [], [], (dot :: d :: r). rewrite Eq.
           repeat split; try assumption. intros _. exact Hd.
      * exists ip, [], [], (p :: d :: r). rewrite Eq.
        repeat split; try assumption. intros E. congruence.
  - destruct Hin as [->|Hin]; [congruence|].
    destruct (IH (ex_intro _ c (conj Hin Hc))) as [ip [fp [pre [rest H]]]].
    destruct H as [-> [Hpre H]].
    exists ip, fp, (x :: pre), rest. split; [reflexivity|].
    split; [simpl; rewrite Hx, Hpre; reflexivity|exact H].
Qed.

Lemma regex_search_found (f : jsstring -> option jsstring) (t m : jsstring) :
  regex_search f t = Some m -> exists u, f u = Some m.
Proof.
  induction t as [|c t IH]; simpl.
  - destruct (f []) eqn:E; [|discriminate]. intros <-. exists []. exact E.
  - destruct (f (c :: t)) eqn:E; [|exact IH].
    intros <-. exists (c :: t). exact E.
Qed.

(** The pattern of [src/App.jsx]: a match starts with a backslash. *)
Lemma escaped_pattern_head (s m : jsstring) :
  escaped_pattern_at s = Some m -> exists r, m = backslash :: r.
Proof.
  unfold escaped_pattern_at, cu_eqb. intros H.
  destruct s as [|b r]; [discriminate|].
  destruct (N.eqb_spec b backslash) as [->|_]; [|discriminate].
  repeat match type of H with
         | context [match ?x with _ => _ end] => destruct x
         end;
    try discriminate; injection H as <-; eexists; reflexivity.
Qed.

Lemma escaped_pattern_backslash (t m : jsstring) :
  regex_search escaped_pattern_at t = Some m ->
  exists r, m = backslash :: r.
Proof.
  intros H. apply regex_search_found in H. destruct H as [u Hu].
  apply (escaped_pattern_head u m Hu).
Qed.

Lemma trim_keeps_head (c : codeunit) (r : jsstring) :
  is_whitespace c = false -> exists r', trim (c :: r) = c :: r'.
Proof.
  intros Hc. unfold trim. rewrite drop_while_head by exact Hc.
  assert (H : forall u, exists u', drop_while is_whitespace (u ++ [c]) = u' ++ [c]).
  { induction u as [|x u IH]; simpl.
    - rewrite Hc. exists []. reflexivity.
    - destruct (is_whitespace x); [exact IH|].
      exists (x :: u). reflexivity. }
  simpl rev. destruct (H (rev r)) as [u' ->].
  rewrite rev_app_distr. simpl. exists (rev u'). reflexivity.
Qed.

Lemma StringToNumber_backslash (r : jsstring) :
  StringToNumber (backslash :: r) = NaN.
Proof.
  unfold StringToNumber.
  destruct (trim_keeps_head backslash r eq_refl) as [r' ->].
  destruct r' as [|p ds]; reflexivity.
Qed.

(** On a string [normalizeAge] of [src/App.jsx] gives [null], whatever
    the string: its pattern looks for a backslash and letters [d], and
    what it finds is not a number. *)
Lemma normalizeAge_string_null (s : jsstring) :
  normalizeAge (VString s) = None.
Proof.
  unfold normalizeAge, normalizeAgeWith.
  destruct (trim s) as [|c t]; [reflexivity|].
  destruct (regex_search escaped_pattern_at (c :: t)) as [m|] eqn:E;
    [|reflexivity].
  apply escaped_pattern_backslash in E. destruct E as [r ->].
  rewrite StringToNumber_backslash. reflexivity.
Qed.

Lemma first_decimal_nonempty (t ip fp : jsstring) :
  first_decimal t ip fp -> t <> [].
Proof.
  intros [pre [rest [-> [_ [Hne _]]]]] E.
  apply app_eq_nil in E. destruct E as [_ E].
  apply app_eq_nil in E. destruct E as [E _]. congruence.
Qed.

Lemma decimal_number_integer (ip : jsstring) :
  all_digits ip -> digits_value ip < 2 ^ 53 ->
  decimal_number ip [] = Fin (inject_Z (digits_value ip)).
Proof.
  intros Hip Hlt. unfold decimal_number, decimal_to_number.
  rewrite app_nil_r. cbn [length Z.of_nat Z.opp Z.leb Z.compare].
  change (10 ^ 0) with 1.
  rewrite Z.mul_1_r. apply round_double_int.
  pose proof (digits_value_nonneg ip Hip). lia.
Qed.

Lemma Script_normalizeAge_first_decimal (s ip fp : jsstring) :
  first_decimal (trim s) ip fp ->
  Script.normalizeAge (VString s) = isFinite_floor (decimal_number ip fp).
Proof.
  intros H. unfold Script.normalizeAge, normalizeAgeWith.
  pose proof (first_decimal_nonempty _ _ _ H) as Hne.
  destruct (trim s) as [|c t]; [congruence|].
  rewrite (search_first_decimal _ _ _ H).
  destruct H as [pre [rest [_ [_ [Hi [Hip [_ Hfp]]]]]]].
  destruct fp as [|f fp'].
  - rewrite (StringToNumber_digits ip Hi Hip).
    unfold decimal_number. rewrite app_nil_r. reflexivity.
  - destruct Hfp as [Hfp _].
    rewrite (StringToNumber_fraction ip (f :: fp') Hi ltac:(discriminate) Hip Hfp).
    reflexivity.
Qed.

(** [normalizeAge] on a string [s], trimmed.  When the trimmed
    string is empty or has no digit the result is [null], in every
    version of the function.  In [weekly-report.gs] (and the two earlier
    versions of the component, whose pattern is the same), when the
    trimmed string has a digit it has a first decimal-number substring,
    digits [ip] optionally followed by a dot and digits [fp], and the
    result is the floor of the binary64 number nearest to that decimal
    number, or [null] when that number is not finite; for digits only,
    of a value below 2^53, the result is that value. *)
Theorem normalizeAge_string (s : jsstring) :
  ((forall c, In c (trim s) -> is_digit c = false) ->
   normalizeAge (VString s) = None /\ Script.normalizeAge (VString s) = None)
  /\
  ((exists c, In c (trim s) /\ is_digit c = true) ->
   exists ip fp, first_decimal (trim s) ip fp)
  /\
  (forall ip fp, first_decimal (trim s) ip fp ->
     Script.normalizeAge (VString s)
     = match decimal_number ip fp with
       | Fin q => Some (Qfloor q)
       | _ => None
       end)
  /\
  (forall ip, first_decimal (trim s) ip [] -> digits_value ip < 2 ^ 53 ->
     Script.normalizeAge (VString s) = Some (digits_value ip)).
Proof.
  split; [|split; [|split]].
  - intros Hno. split; [apply normalizeAge_string_null|].
    unfold Script.normalizeAge, normalizeAgeWith.
    destruct (trim s) as [|c t]; [reflexivity|].
    rewrite (search_no_digit _ Hno). reflexivity.
  - apply first_decimal_exists.
  - intros ip fp H. apply (Script_normalizeAge_first_decimal s ip fp H).
  - intros ip H Hlt.
    rewrite (Script_normalizeAge_first_decimal s ip [] H).
    destruct H as [pre [rest [_ [_ [_ [Hip _]]]]]].
    rewrite (decimal_number_integer ip Hip Hlt).
    unfold isFinite_floor. rewrite Qfloor_Z. reflexivity.
Qed.

(** C1 - the string ['6'] has the decimal-number substring [6], whose
    floor is 6.  [normalizeAge] of [src/App.jsx] returns [null] on it:
    the pattern of its line 94 is written with doubled backslashes, and
    so asks for a backslash before the letter [d].  [normalizeAge] of
    [weekly-report.gs], whose pattern is [/(\d+(\.\d+)?)/] as in the two
    earlier versions of the component, returns 6. *)
Theorem normalizeAge_digit_string_null :
  normalizeAge (VString (str "6")) = None /\
  Script.normalizeAge (VString (str "6")) = Some 6.
Proof. split; vm_compute; reflexivity. Qed.

(** Strings of the kind a cell holds. *)
Example normalizeAge_examples :
  Script.normalizeAge (VString (str "6")) = Some 6 /\
  Script.normalizeAge (VString (str " 6.9 ")) = Some 6 /\
  Script.normalizeAge (VString (str "age 12, 7 months")) = Some 12 /\
  Script.normalizeAge (VString (str "n/a")) = None /\
  normalizeAge (VString (str "6")) = None.
Proof. repeat split; vm_compute; reflexivity. Qed.

(** A string of 310 digits is its own first decimal-number substring;
    its value is not a finite binary64 number, and the result is
    [null]. *)
Lemma normalizeAge_overflow_is_null :
  first_decimal (trim digits_310) digits_310 [] /\
  decimal_number digits_310 [] = Infinity false /\
  Script.normalizeAge (VString digits_310) = None /\
  normalizeAge (VString digits_310) = None.
Proof.
  split; [|repeat split; vm_compute; reflexivity].
  exists [], []. repeat split; try (vm_compute; reflexivity).
  discriminate.
Qed.

(** ** parseDateString *)

Lemma digit_not_hyphen (c : codeunit) :
  is_digit c = true -> N.eqb c 45 = false.
Proof.
  intros H. apply is_digit_range in H. apply N.eqb_neq. lia.
Qed.

Lemma digit_value_range (c : codeunit) :
  is_digit c = true -> 0 <= digit_value c <= 9.
Proof. intros H. apply is_digit_range in H. unfold digit_value. lia. Qed.

Lemma parse_ymd_numbers (Y M D : Z) :
  0 <= Y < 2 ^ 52 -> 0 <= M < 2 ^ 52 -> 0 <= D < 2 ^ 52 ->
  (let year := Fin (inject_Z Y) in
   let month := Fin (inject_Z M) in
   let day := Fin (inject_Z D) in
   if (negb (truthy year) || negb (truthy month) || negb (truthy day))%bool
   then None
   else
     let date := new_Date year (js_sub month (Fin 1)) day in
     if (negb (num_eqb (getFullYear date) year)
         || negb (num_eqb (getMonth date) (js_sub month (Fin 1)))
         || negb (num_eqb (getDate date) day))%bool
     then None
     else date)
  = parse_ymd Y M D.
Proof.
  intros HY HM HD. cbv zeta. unfold parse_ymd.
  rewrite !truthy_int, !negb_involutive.
  destruct ((Y =? 0) || (M =? 0) || (D =? 0))%bool; [reflexivity|].
  change (Fin 1) with (Fin (inject_Z 1)).
  assert (H53 : 2 ^ 52 < 2 ^ 53) by (apply Z.pow_lt_mono_r; lia).
  rewrite js_sub_int by lia.
  unfold new_Date. rewrite !trunc_int.
  destruct (TimeClip _) as [z|]; [|reflexivity].
  unfold getFullYear, getMonth, getDate, field. rewrite !num_eqb_int.
  destruct (year_of z =? Y), (month_of z =? M - 1), (date_of z =? D);
    reflexivity.
Qed.

(** On a string of the shape [YYYY-MM-DD], [parseDateString] is
    [parse_ymd] on the three numbers. *)
Lemma parseDateString_shaped (d : jsstring) :
  date_shaped d = true ->
  let '(Y, M, D) := date_fields d in
  parseDateString d = parse_ymd Y M D /\
  0 <= Y <= 9999 /\ 0 <= M <= 99 /\ 0 <= D <= 99.
Proof.
  intros H.
  destruct d as [|y1 [|y2 [|y3 [|y4 [|h1 [|m1 [|m2 [|h2 [|d1 [|d2 [|x rest]]]]]]]]]]];
    try discriminate.
  unfold date_shaped in H. cbn [forallb] in H.
  rewrite !andb_true_iff in H.
  destruct H as [[[Hy1 [Hy2 [Hy3 [Hy4 [Hm1 [Hm2 [Hd1 [Hd2 _]]]]]]]] Hh1] Hh2].
  apply N.eqb_eq in Hh1, Hh2. subst h1 h2.
  cbn [date_fields].
  assert (HY : 0 <= digits_value [y1; y2; y3; y4] <= 9999).
  { unfold digits_value. cbn [fold_left].
    pose proof (digit_value_range y1 Hy1). pose proof (digit_value_range y2 Hy2).
    pose proof (digit_value_range y3 Hy3). pose proof (digit_value_range y4 Hy4).
    lia. }
  assert (HM : 0 <= digits_value [m1; m2] <= 99).
  { unfold digits_value. cbn [fold_left].
    pose proof (digit_value_range m1 Hm1). pose proof (digit_value_range m2 Hm2).
    lia. }
  assert (HD : 0 <= digits_value [d1; d2] <= 99).
  { unfold digits_value. cbn [fold_left].
    pose proof (digit_value_range d1 Hd1). pose proof (digit_value_range d2 Hd2).
    lia. }
  split; [|auto].
  unfold parseDateString.
  assert (Hsplit : split_on hyphen [y1; y2; y3; y4; hyphen; m1; m2; hyphen; d1; d2]
                   = [[y1; y2; y3; y4]; [m1; m2]; [d1; d2]]).
  { unfold hyphen. cbn [split_on]. unfold cu_eqb.
    rewrite (digit_not_hyphen y1 Hy1), (digit_not_hyphen y2 Hy2),
      (digit_not_hyphen y3 Hy3), (digit_not_hyphen y4 Hy4),
      (digit_not_hyphen m1 Hm1), (digit_not_hyphen m2 Hm2),
      (digit_not_hyphen d1 Hd1), (digit_not_hyphen d2 Hd2).
    reflexivity. }
  rewrite Hsplit. cbn [map].
  assert (H53 : 9999 < 2 ^ 52) by reflexivity.
  rewrite !StringToNumber_integer;
    try discriminate; try lia;
    try (unfold all_digits; cbn [forallb];
         repeat match goal with H : is_digit _ = true |- _ => rewrite H end;
         reflexivity).
  apply parse_ymd_numbers; lia.
Qed.

Lemma days_from_civil_day (y m d d' : Z) :
  days_from_civil y m d' = days_from_civil y m d - d + d'.
Proof. unfold days_from_civil, doe_of_civil. lia. Qed.

Lemma era_days_gap (yc : Z) :
  yc / 400 * 146097 + (yc mod 400 * 365 + yc mod 400 / 4 - yc mod 400 / 100)
  < (yc + 1900) / 400 * 146097
    + ((yc + 1900) mod 400 * 365 + (yc + 1900) mod 400 / 4
       - (yc + 1900) mod 400 / 100).
Proof. Z.to_euclidean_division_equations; lia. Qed.

Lemma days_from_civil_year_gap (y m d : Z) :
  days_from_civil y m d < days_from_civil (1900 + y) m d.
Proof.
  unfold days_from_civil, doe_of_civil.
  set (yc := if m <=? 2 then y - 1 else y).
  replace (if m <=? 2 then 1900 + y - 1 else 1900 + y) with (yc + 1900)
    by (unfold yc; destruct (m <=? 2); lia).
  pose proof (era_days_gap yc). lia.
Qed.

Lemma MakeDay_month (y m d : Z) :
  1 <= m <= 12 -> MakeDay y (m - 1) d = days_from_civil y m d.
Proof.
  intros Hm. unfold MakeDay.
  rewrite Z.div_small, Z.mod_small by lia.
  replace (y + 0) with y by lia. replace (m - 1 + 1) with m by lia.
  rewrite (days_from_civil_day y m d 1). lia.
Qed.

Lemma days_from_civil_bounds (y m d : Z) :
  0 <= y <= 9999 -> 1 <= m <= 12 -> 1 <= d <= 31 ->
  - 100000000 <= days_from_civil y m d <= 100000000.
Proof.
  intros Hy Hm Hd. unfold days_from_civil, doe_of_civil.
  set (yc := if m <=? 2 then y - 1 else y).
  set (mp := if 2 <? m then m - 3 else m + 9).
  assert (Hyc : -1 <= yc <= 9999) by (unfold yc; destruct (m <=? 2); lia).
  assert (Hmp : 0 <= mp <= 11)
    by (unfold mp; destruct (Z.ltb_spec 2 m); lia).
  clearbody yc mp.
  assert (H1 : -1 <= yc / 400 <= 24)
    by (Z.to_euclidean_division_equations; lia).
  assert (H2 : 0 <= yc mod 400 < 400) by (apply Z.mod_pos_bound; lia).
  assert (H3 : 0 <= yc mod 400 / 4 <= 99)
    by (revert H2; generalize (yc mod 400); intros r Hr;
        Z.to_euclidean_division_equations; lia).
  assert (H4 : 0 <= yc mod 400 / 100 <= 3)
    by (revert H2; generalize (yc mod 400); intros r Hr;
        Z.to_euclidean_division_equations; lia).
  assert (H5 : 0 <= (153 * mp + 2) / 5 <= 337)
    by (Z.to_euclidean_division_equations; lia).
  lia.
Qed.

Lemma civil_fields (z Y M D : Z) :
  year_of z = Y -> month_of z = M - 1 -> date_of z = D ->
  civil_from_days z = (Y, M, D).
Proof.
  unfold year_of, month_of, date_of.
  destruct (civil_from_days z) as [[y m] d]. simpl. intros. f_equal; [f_equal|]; lia.
Qed.

Lemma days_in_month_le_31 (y m : Z) : days_in_month y m <= 31.
Proof.
  unfold days_in_month.
  repeat match goal with |- context [if ?c then _ else _] => destruct c end; lia.
Qed.

(** The check of [parseDateString], on the numbers a file name can
    spell: it passes exactly on the dates of the calendar from the year
    100 on (a year below 100 is taken for a year of the 1900s, and does
    not come back). *)
Lemma parse_ymd_spec (Y M D z : Z) :
  0 <= Y <= 9999 -> 0 <= M <= 99 -> 0 <= D <= 99 ->
  (parse_ymd Y M D = Some z
   <-> 100 <= Y /\ valid_date Y M D /\ z = days_from_civil Y M D).
Proof.
  intros HY HM HD. unfold parse_ymd. split.
  - destruct ((Y =? 0) || (M =? 0) || (D =? 0))%bool; [discriminate|].
    set (yr := if ((0 <=? Y) && (Y <=? 99))%bool then 1900 + Y else Y).
    unfold TimeClip.
    destruct ((- max_day <=? MakeDay yr (M - 1) D)
              && (MakeDay yr (M - 1) D <=? max_day))%bool; [|discriminate].
    destruct (Z.eqb_spec (year_of (MakeDay yr (M - 1) D)) Y) as [Ey|];
      [|discriminate].
    destruct (Z.eqb_spec (month_of (MakeDay yr (M - 1) D)) (M - 1)) as [Em|];
      [|discriminate].
    destruct (Z.eqb_spec (date_of (MakeDay yr (M - 1) D)) D) as [Ed|];
      [|discriminate].
    cbn [andb]. intros H. injection H as <-.
    pose proof (civil_from_days_valid (MakeDay yr (M - 1) D)) as Hv.
    rewrite (civil_fields _ _ _ _ Ey Em Ed) in Hv.
    destruct Hv as [Hvalid Hday].
    pose proof Hvalid as [Hm _].
    rewrite (MakeDay_month yr M D Hm) in Hday |- *.
    assert (Hyr : yr = Y).
    { unfold yr in *.
      destruct ((0 <=? Y) && (Y <=? 99))%bool; [|reflexivity].
      pose proof (days_from_civil_year_gap Y M D). lia. }
    rewrite Hyr in *. split; [|split; [exact Hvalid|reflexivity]].
    unfold yr in Hyr.
    destruct (Z.leb_spec 0 Y), (Z.leb_spec Y 99); cbn [andb] in Hyr; lia.
  - intros [H100 [Hvalid ->]].
    pose proof Hvalid as [Hm Hd].
    pose proof (days_in_month_le_31 Y M) as H31.
    destruct (Z.eqb_spec Y 0); [lia|]. destruct (Z.eqb_spec M 0); [lia|].
    destruct (Z.eqb_spec D 0); [lia|]. cbn [orb].
    destruct (Z.leb_spec Y 99); [lia|]. rewrite andb_false_r.
    rewrite (MakeDay_month Y M D Hm).
    pose proof (days_from_civil_bounds Y M D ltac:(lia) Hm ltac:(lia)) as Hb.
    assert (Hclip : TimeClip (days_from_civil Y M D)
                    = Some (days_from_civil Y M D)).
    { unfold TimeClip, max_day.
      destruct (Z.leb_spec (- (100000000)) (days_from_civil Y M D)); [|lia].
      destruct (Z.leb_spec (days_from_civil Y M D) 100000000); [|lia].
      reflexivity. }
    rewrite Hclip. unfold year_of, month_of, date_of.
    rewrite (civil_from_days_from_civil Y M D Hvalid). cbn [fst snd].
    rewrite !Z.eqb_refl. reflexivity.
Qed.

(** ** The week of a set of dates *)

Lemma includes_In (l : list jsstring) (x : jsstring) :
  includes l x = true <-> In x l.
Proof. unfold includes. apply existsb_eqb_In. Qed.

Lemma uniq_from_In (l seen : list jsstring) (x : jsstring) :
  In x (uniq_from seen l) <-> In x l /\ ~ In x seen.
Proof.
  revert seen. induction l as [|a l IH]; intros seen; simpl.
  - tauto.
  - destruct (includes seen a) eqn:E.
    + apply includes_In in E. rewrite IH. split.
      * intros [H1 H2]. tauto.
      * intros [[->|H1] H2]; [contradiction|tauto].
    + assert (Hn : ~ In a seen)
        by (intros H; apply includes_In in H; congruence).
      simpl. rewrite IH. simpl. split.
      * intros [->|[H1 H2]]; [tauto|]. split; [tauto|]. intros H. apply H2. tauto.
      * intros [[->|H1] H2]; [tauto|].
        destruct (jsstring_eqb a x) eqn:Eax.
        -- apply jsstring_eqb_eq in Eax. tauto.
        -- apply jsstring_eqb_neq in Eax. right. split; [exact H1|].
           intros [H|H]; [congruence|contradiction].
Qed.

Lemma uniq_In (l : list jsstring) (x : jsstring) : In x (uniq l) <-> In x l.
Proof. unfold uniq. rewrite uniq_from_In. simpl. tauto. Qed.

Lemma filter_dates_In (l : list jsstring) (z : Z) :
  In z (filter_dates (map parseDateString l))
  <-> exists d, In d l /\ parseDateString d = Some z.
Proof.
  induction l as [|a l IH]; simpl.
  - split; [intros []|intros [d [[] _]]].
  - destruct (parseDateString a) as [za|] eqn:E; simpl; rewrite IH; split.
    + intros [<-|[d [Hd Hp]]]; [exists a; tauto|exists d; tauto].
    + intros [d [[<-|Hd] Hp]]; [left; congruence|right; exists d; tauto].
    + intros [d [Hd Hp]]. exists d. tauto.
    + intros [d [[<-|Hd] Hp]]; [congruence|exists d; tauto].
Qed.

Lemma insert_day_head (x d0 : Z) (l : list Z) :
  hd d0 (insert_day x l) = match l with
                           | [] => x
                           | y :: _ => Z.min x y
                           end.
Proof.
  destruct l as [|y l]; [reflexivity|]. simpl.
  destruct (Z.leb_spec x y); simpl; lia.
Qed.

Lemma insert_day_nonempty (x : Z) (l : list Z) : insert_day x l <> [].
Proof. destruct l as [|y l]; simpl; [|destruct (x <=? y)]; discriminate. Qed.

(** The first date after sorting is the earliest one. *)
Lemma sort_days_head (l : list Z) (d0 : Z) :
  l <> [] ->
  In (hd d0 (sort_days l)) l /\ forall z, In z l -> hd d0 (sort_days l) <= z.
Proof.
  induction l as [|a l IH]; [congruence|]. intros _.
  cbn [sort_days fold_right]. fold (sort_days l).
  rewrite insert_day_head.
  destruct l as [|b l'].
  - simpl. split; [tauto|]. intros z [->|[]]. lia.
  - destruct (IH ltac:(discriminate)) as [Hin Hmin].
    destruct (sort_days (b :: l')) as [|y t] eqn:Es.
    + exfalso. cbn [sort_days fold_right] in Es.
      apply (insert_day_nonempty _ _ Es).
    + cbn [hd] in Hin, Hmin. split.
      * destruct (Z.min_spec a y) as [[_ ->]|[_ ->]]; [left; reflexivity|].
        right. exact Hin.
      * intros z [->|Hz]; [lia|]. specialize (Hmin z Hz). lia.
Qed.

Lemma MakeDay_of_day (z dt : Z) :
  MakeDay (year_of z) (month_of z) dt = z - date_of z + dt.
Proof.
  pose proof (civil_from_days_valid z) as H.
  unfold year_of, month_of, date_of.
  destruct (civil_from_days z) as [[y m] d]. cbn [fst snd].
  destruct H as [[Hm _] Hz].
  rewrite (MakeDay_month y m dt Hm), (days_from_civil_day y m d dt). lia.
Qed.

Lemma setDate_offset (z k : Z) :
  setDate (Some z) (date_of z + k) = TimeClip (z + k).
Proof.
  unfold setDate. rewrite MakeDay_of_day. f_equal. lia.
Qed.

Lemma getWeekStartMonday_day (z : Z) :
  getWeekStartMonday (Some z) = TimeClip (z - (weekday_of z + 6) mod 7).
Proof.
  unfold getWeekStartMonday. cbv zeta.
  replace (date_of z - (weekday_of z + 6) mod 7)
    with (date_of z + - ((weekday_of z + 6) mod 7)) by lia.
  rewrite setDate_offset. f_equal.
Qed.

Lemma monday_is_monday (z : Z) :
  let monday := z - (weekday_of z + 6) mod 7 in
  weekday_of monday = 1 /\ monday <= z <= monday + 6.
Proof.
  unfold weekday_of. cbv zeta. Z.to_euclidean_division_equations. lia.
Qed.

Lemma buildExpectedWeekDates_days (mz : Z) :
  buildExpectedWeekDates (Some mz)
  = map (fun k => formatDate (TimeClip (mz + k))) [0; 1; 2; 3; 4; 5].
Proof.
  unfold buildExpectedWeekDates. apply map_ext. intros k.
  rewrite setDate_offset. reflexivity.
Qed.

Lemma date_of_range (z : Z) : 1 <= date_of z <= 31.
Proof.
  pose proof (civil_from_days_valid z) as H. unfold date_of.
  destruct (civil_from_days z) as [[y m] d]. cbn [snd].
  destruct H as [[_ Hd] _]. pose proof (days_in_month_le_31 y m). lia.
Qed.

(** The Saturday built, as [weekEnd] is, from the year, the month and the
    day of the Monday: it is the day five days on when the year of the
    Monday is not one of 0..99. *)
Lemma new_Date_plus_5 (mz : Z) :
  ~ (0 <= year_of mz <= 99) ->
  new_Date (getFullYear (Some mz)) (getMonth (Some mz))
           (js_add (getDate (Some mz)) (Fin 5))
  = TimeClip (mz + 5).
Proof.
  intros Hy. unfold getFullYear, getMonth, getDate, field.
  change (Fin 5) with (Fin (inject_Z 5)).
  pose proof (date_of_range mz) as Hd.
  assert (H53 : 36 < 2 ^ 53) by reflexivity.
  rewrite js_add_int by lia.
  unfold new_Date. rewrite !trunc_int.
  destruct (Z.leb_spec 0 (year_of mz)), (Z.leb_spec (year_of mz) 99);
    cbn [andb]; try lia;
    rewrite MakeDay_of_day; f_equal; lia.
Qed.

(** [analyzeWeekDates] gives [null] exactly when no string of the list
    parses as a date (so, in particular, on the empty list). *)
Lemma analyzeWeekDates_null (ds : list jsstring) :
  analyzeWeekDates ds = None
  <-> forall d, In d ds -> parseDateString d = None.
Proof.
  unfold analyzeWeekDates.
  destruct (uniq ds) as [|u us] eqn:Eu.
  - split; [|reflexivity]. intros _ d Hd.
    apply (proj2 (uniq_In _ _)) in Hd. rewrite Eu in Hd. destruct Hd.
  - rewrite <- Eu.
    destruct (filter_dates (map parseDateString (uniq ds))) as [|d0 rest] eqn:Ef.
    + split; [|reflexivity]. intros _ d Hd.
      destruct (parseDateString d) as [z|] eqn:Ep; [|reflexivity].
      assert (Hin : In z (filter_dates (map parseDateString (uniq ds))))
        by (apply filter_dates_In; exists d; split; [apply (proj2 (uniq_In _ _)); exact Hd|exact Ep]).
      rewrite Ef in Hin. destruct Hin.
    + split; [discriminate|]. intros Hall. exfalso.
      assert (Hin : In d0 (filter_dates (map parseDateString (uniq ds))))
        by (rewrite Ef; left; reflexivity).
      apply filter_dates_In in Hin. destruct Hin as [d [Hd Hp]].
      apply (proj1 (uniq_In _ _)) in Hd. rewrite (Hall d Hd) in Hp. discriminate.
Qed.

(** What [analyzeWeekDates] returns otherwise: the week of the earliest
    parsed date. *)
Lemma analyzeWeekDates_week (ds : list jsstring) (r : WeekCheck) :
  analyzeWeekDates ds = Some r ->
  exists first,
    (exists d, In d ds /\ parseDateString d = Some first) /\
    (forall d z, In d ds -> parseDateString d = Some z -> first <= z) /\
    let monday := monday_of first in
    weekday_of monday = 1 /\ monday <= first <= monday + 6 /\
    weekStart r = formatDate (TimeClip monday) /\
    (TimeClip monday = Some monday ->
     (~ (0 <= year_of monday <= 99) ->
      weekEnd r = formatDate (TimeClip (monday + 5))) /\
     missingDays r
     = filter (fun value => negb (includes (uniq ds) value))
              (week_strings monday) /\
     outOfRange r
     = sort_strings
         (filter (fun value => negb (includes (week_strings monday) value))
                 (uniq ds))).
Proof.
  unfold analyzeWeekDates.
  destruct (uniq ds) as [|u us] eqn:Eu; [discriminate|]. rewrite <- Eu.
  destruct (filter_dates (map parseDateString (uniq ds))) as [|d0 rest] eqn:Ef;
    [discriminate|].
  rewrite <- Ef. intros H. injection H as <-.
  unfold weekCheckFrom. cbn [weekStart weekEnd missingDays outOfRange].
  set (parsed := filter_dates (map parseDateString (uniq ds))) in *.
  destruct (sort_days_head parsed d0) as [Hin Hmin];
    [rewrite Ef; discriminate|].
  set (first := hd d0 (sort_days parsed)) in *.
  exists first. split; [|split].
  - apply filter_dates_In in Hin. destruct Hin as [d [Hd Hp]].
    exists d. split; [apply (proj1 (uniq_In _ _)); exact Hd|exact Hp].
  - intros d z Hd Hp. apply Hmin. apply filter_dates_In.
    exists d. split; [apply (proj2 (uniq_In _ _)); exact Hd|exact Hp].
  - cbv zeta. destruct (monday_is_monday first) as [Hmon Hrange].
    fold (monday_of first) in Hmon, Hrange.
    split; [exact Hmon|]. split; [exact Hrange|].
    rewrite getWeekStartMonday_day. fold (monday_of first).
    split; [reflexivity|].
    intros Hclip. rewrite Hclip.
    rewrite buildExpectedWeekDates_days. fold (week_strings (monday_of first)).
    split; [|split; reflexivity].
    intros Hy. rewrite (new_Date_plus_5 _ Hy). reflexivity.
Qed.

(** The example of the specification: a Wednesday alone. *)
Example analyzeWeekDates_2024_06_12 :
  analyzeWeekDates [str "2024-06-12"]
  = Some {| weekStart := str "2024-06-10";
            weekEnd := str "2024-06-15";
            missingDays := [str "2024-06-10"; str "2024-06-11";
                            str "2024-06-13"; str "2024-06-14";
                            str "2024-06-15"];
            outOfRange := [] |}.
Proof. vm_compute. reflexivity. Qed.

(** C7 - A date whose Monday falls in the year 99: 1 January 100 is a
    Friday, the Monday before it is 28 December 99, and the Saturday of
    that week is 2 January 100.  [weekEnd] is built anew from the year,
    the month and the day of the Monday, the year 99 is taken for 1999,
    and the result is 2 January 2000; the last of the expected dates,
    built by [setDate] from the same Monday, is the Saturday. *)
Theorem analyzeWeekDates_year_100 :
  analyzeWeekDates [str "0100-01-01"]
  = Some {| weekStart := str "99-12-28";
            weekEnd := str "2000-01-02";
            missingDays := [str "99-12-28"; str "99-12-29"; str "99-12-30";
                            str "99-12-31"; str "100-01-01"; str "100-01-02"];
            outOfRange := [str "0100-01-01"] |}
  /\ formatDate (TimeClip (monday_of (days_from_civil 100 1 1) + 5))
     = str "100-01-02".
Proof. split; vm_compute; reflexivity. Qed.

(** ** Rounding keeps a number under a power of two *)

Lemma round_half_even_nonneg (n d : Z) :
  0 <= n -> 0 < d -> 0 <= round_half_even n d.
Proof.
  intros Hn Hd. unfold round_half_even.
  pose proof (Z.div_pos n d Hn Hd).
  destruct (2 * (n mod d) ?= d); [destruct (Z.even (n / d))| |]; lia.
Qed.

Lemma round_half_even_le (n d N : Z) :
  0 < d -> n <= d * N -> round_half_even n d <= N.
Proof.
  intros Hd Hn. unfold round_half_even.
  assert (Hq : n / d <= N)
    by (apply Z.div_le_upper_bound; [exact Hd|exact Hn]).
  pose proof (Z.div_mod n d ltac:(lia)) as Hdm.
  pose proof (Z.mod_pos_bound n d Hd) as Hm.
  destruct (Z.eq_dec (n / d) N) as [E|E].
  - assert (H0 : n mod d = 0) by nia.
    rewrite H0. change (2 * 0) with 0.
    destruct (Z.compare_spec 0 d); try lia.
  - destruct (2 * (n mod d) ?= d); [destruct (Z.even (n / d))| |]; lia.
Qed.

(** The exponent found is not above the binary logarithm. *)
Lemma ilog2_ratio_lower (n d : Z) :
  0 < n -> 0 < d -> 0 <= ilog2_ratio n d -> d * 2 ^ ilog2_ratio n d <= n.
Proof.
  intros Hn Hd. unfold ilog2_ratio, scaled_le.
  set (e0 := Z.log2 n - Z.log2 d).
  destruct (Z.leb_spec 0 e0) as [He0|He0].
  - destruct (Z.leb_spec (d * 2 ^ e0) n) as [Hle|Hgt]; [intros _; exact Hle|].
    intros He.
    destruct (Z.log2_spec n Hn) as [Hn1 _].
    destruct (Z.log2_spec d Hd) as [_ Hd2].
    pose proof (Z.log2_nonneg d) as Hld.
    assert (Hp : 2 ^ Z.log2 n = 2 ^ (e0 - 1) * 2 ^ Z.succ (Z.log2 d))
      by (rewrite <- Z.pow_add_r by lia; f_equal; unfold e0; lia).
    assert (Hpos : 0 < 2 ^ (e0 - 1)) by (apply Z.pow_pos_nonneg; lia).
    nia.
  - destruct (d <=? n * 2 ^ (- e0)); intros; lia.
Qed.

Lemma round_pos_bounded (n d k : Z) :
  0 < n -> 0 < d -> 0 <= k <= 1023 -> n <= d * 2 ^ k ->
  exists q, round_pos n d = Fin q /\ (0 <= q)%Q /\ (q <= inject_Z (2 ^ k))%Q.
Proof.
  intros Hn Hd Hk Hle. unfold round_pos.
  set (e := ilog2_ratio n d). set (ex := Z.max e (-1022) - 52).
  assert (Hk2 : 0 < 2 ^ k) by (apply Z.pow_pos_nonneg; lia).
  destruct (Z.leb_spec 0 ex) as [Hex|Hex].
  - (* the unit in the last place is an integer *)
    assert (He : 52 <= e) by (unfold ex in Hex; lia).
    pose proof (ilog2_ratio_lower n d Hn Hd ltac:(fold e; lia)) as Hlow.
    fold e in Hlow.
    assert (Hek : e <= k).
    { apply (Z.pow_le_mono_r_iff 2); [lia|lia|]. nia. }
    assert (Eex : ex = e - 52) by (unfold ex; lia).
    assert (Hp : 2 ^ k = 2 ^ ex * 2 ^ (k - ex))
      by (rewrite <- Z.pow_add_r by lia; f_equal; lia).
    assert (Hpex : 0 < 2 ^ ex) by (apply Z.pow_pos_nonneg; lia).
    assert (Hm : round_half_even n (d * 2 ^ ex) <= 2 ^ (k - ex))
      by (apply round_half_even_le; [nia|rewrite <- Z.mul_assoc, <- Hp; exact Hle]).
    pose proof (round_half_even_nonneg n (d * 2 ^ ex) ltac:(lia) ltac:(nia)) as Hm0.
    set (m := round_half_even n (d * 2 ^ ex)) in *.
    assert (Hv : m * 2 ^ ex <= 2 ^ k) by (rewrite Hp; nia).
    assert (Hbig : 2 ^ k < 2 ^ 1024) by (apply Z.pow_lt_mono_r; lia).
    destruct (Z.leb_spec (2 ^ 1024) (m * 2 ^ ex)) as [Hover|_]; [lia|].
    exists (inject_Z (m * 2 ^ ex)). split; [reflexivity|].
    split; [change 0%Q with (inject_Z 0)|]; rewrite <- Zle_Qle; nia.
  - (* the unit in the last place is a fraction *)
    set (s := 2 ^ (- ex)).
    assert (Hs : 0 < s) by (apply Z.pow_pos_nonneg; lia).
    assert (Hm : round_half_even (n * s) d <= s * 2 ^ k)
      by (apply round_half_even_le; [exact Hd|nia]).
    pose proof (round_half_even_nonneg (n * s) d ltac:(nia) Hd) as Hm0.
    set (m := round_half_even (n * s) d) in *.
    exists (Qred (m # Z.to_pos s)). split; [reflexivity|].
    split.
    + rewrite Qred_correct. unfold Qle. simpl. lia.
    + rewrite Qred_correct. unfold Qle. simpl.
      rewrite Z2Pos.id by exact Hs. lia.
Qed.

Lemma round_double_bounded (q : Q) (k : Z) :
  0 <= k <= 1023 -> (0 <= q)%Q -> (q <= inject_Z (2 ^ k))%Q ->
  exists q', round_double q = Fin q' /\ (0 <= q')%Q /\ (q' <= inject_Z (2 ^ k))%Q.
Proof.
  intros Hk H0 Hle. destruct q as [n d]. unfold round_double. cbn [Qnum].
  assert (Hk2 : 0 < 2 ^ k) by (apply Z.pow_pos_nonneg; lia).
  unfold Qle in H0, Hle. simpl in H0, Hle.
  destruct n as [|p|p].
  - exists 0%Q. split; [reflexivity|]. split; [apply Qle_refl|].
    change 0%Q with (inject_Z 0). rewrite <- Zle_Qle. lia.
  - cbn [Qden]. apply round_pos_bounded; lia.
  - lia.
Qed.

(** ** The ratio *)

Lemma quotient_bounded (f t : Z) :
  0 <= f <= 2 ^ 53 -> 0 < t ->
  (0 <= inject_Z f / inject_Z t)%Q /\
  (inject_Z f / inject_Z t <= inject_Z (2 ^ 53))%Q.
Proof.
  intros Hf Ht.
  assert (Htq : (0 < inject_Z t)%Q)
    by (change 0%Q with (inject_Z 0); rewrite <- Zlt_Qlt; exact Ht).
  split.
  - apply Qle_shift_div_l; [exact Htq|].
    rewrite Qmult_0_l. change 0%Q with (inject_Z 0). rewrite <- Zle_Qle. lia.
  - apply Qle_shift_div_r; [exact Htq|].
    rewrite <- inject_Z_mult, <- Zle_Qle. nia.
Qed.

(** C9 - For counts that are integers from 0 to 2^53 (no count that is
    reached by adding 1 from 0 is larger): when [totalCount] is 0 the
    ratio is 0, and the quotient that is not computed would not have been
    a finite number; when [totalCount] is not 0 the ratio is
    [feverCount / totalCount * 100], in the arithmetic of numbers; in both
    cases the ratio is a finite number, and not negative. *)
Theorem ratio_guarded (f t : Z) :
  0 <= f <= 2 ^ 53 -> 0 <= t <= 2 ^ 53 ->
  let feverCount := Fin (inject_Z f) in
  let totalCount := Fin (inject_Z t) in
  (t = 0 -> ratio feverCount totalCount = Fin 0 /\
            isFinite (js_div feverCount totalCount) = false) /\
  (t <> 0 -> ratio feverCount totalCount
             = js_mul (js_div feverCount totalCount) (Fin 100)) /\
  exists q, ratio feverCount totalCount = Fin q /\ (0 <= q)%Q.
Proof.
  intros Hf Ht. cbv zeta. split; [|split].
  - intros ->. split; [reflexivity|].
    unfold js_div. change (is_zero (inject_Z 0)) with true. cbn iota.
    destruct (is_zero (inject_Z f)); reflexivity.
  - intros Hne. unfold ratio. rewrite truthy_int.
    destruct (Z.eqb_spec t 0); [contradiction|reflexivity].
  - unfold ratio. rewrite truthy_int.
    destruct (Z.eqb_spec t 0) as [->|Hne]; cbn [negb].
    + exists 0%Q. split; [reflexivity|apply Qle_refl].
    + unfold js_div.
      assert (Hz : is_zero (inject_Z t) = false)
        by (unfold is_zero; simpl; apply Z.eqb_neq; exact Hne).
      rewrite Hz.
      destruct (quotient_bounded f t Hf ltac:(lia)) as [Hq0 Hq1].
      destruct (round_double_bounded _ 53 ltac:(lia) Hq0 Hq1)
        as [q1 [-> [H0 H1]]].
      unfold js_mul.
      assert (Hm0 : (0 <= q1 * 100)%Q)
        by (apply Qmult_le_0_compat; [exact H0|discriminate]).
      assert (Hm1 : (q1 * 100 <= inject_Z (2 ^ 60))%Q).
      { apply Qle_trans with (inject_Z (2 ^ 53) * 100)%Q.
        - apply Qmult_le_compat_r; [exact H1|discriminate].
        - vm_compute. discriminate. }
      destruct (round_double_bounded _ 60 ltac:(lia) Hm0 Hm1)
        as [q2 [-> [H2 _]]].
      exists q2. split; [reflexivity|exact H2].
Qed.

(** The ratios of the example of the specification: 1 of 2, 1 of 1, and
    2 of 5 overall. *)
Example ratio_examples :
  ratio (Fin 1) (Fin 2) = Fin 50 /\
  ratio (Fin 1) (Fin 1) = Fin 100 /\
  ratio (Fin 2) (Fin 5) = Fin 40 /\
  ratio (Fin 0) (Fin 0) = Fin 0.
Proof. repeat split; vm_compute; reflexivity. Qed.

(** ** The theorems at concrete inputs *)

Lemma handleUploadFiles_duplicate_dates_witness :
  match handleUploadFiles sample_batch visit with
  | Some st =>
      upload_ages st = [5; 7] /\ In sample_warning (upload_warnings st)
  | None => False
  end.
Proof.
  destruct (handleUploadFiles sample_batch visit) as [st|] eqn:E;
    [|vm_compute in E; discriminate].
  destruct (handleUploadFiles_duplicate_dates sample_batch visit st E)
    as [Hages [_ [_ [Hwarn _]]]].
  split.
  - rewrite Hages. vm_compute. reflexivity.
  - assert (Hdup : exists d,
               2 <= filesOn d (map (parseFile (buildFileRegex (suffix_of visit)))
                                   sample_batch))
      by (exists (str "2024-06-12"); vm_compute; discriminate).
    specialize (Hwarn Hdup). vm_compute in Hwarn |- *. exact Hwarn.
Defined.

Lemma ratio_guarded_witness :
  exists q, ratio (Fin (inject_Z 1)) (Fin (inject_Z 2)) = Fin q /\ (0 <= q)%Q.
Proof.
  assert (H1 : 0 <= 1 <= 2 ^ 53) by (split; [lia|apply Z.leb_le; reflexivity]).
  assert (H2 : 0 <= 2 <= 2 ^ 53) by (split; [lia|apply Z.leb_le; reflexivity]).
  exact (proj2 (proj2 (ratio_guarded 1 2 H1 H2))).
Defined.

(* ================================================================== *)
(** * Part III - further properties of the code                        *)
(* ================================================================== *)

(** ** Ages of a workbook *)

(** In [src/App.jsx] only a finite number is ever made an age: the
    result of [normalizeAge] is an integer exactly on a finite number,
    whose floor it is, and [null] on every string (with digits or
    without), as on every other value. *)
Theorem normalizeAge_only_numbers (v : value) (a : Z) :
  normalizeAge v = Some a <-> exists q, v = VNumber (Fin q) /\ a = Qfloor q.
Proof.
  split.
  - destruct v as [| | b | [| b | q] | s |]; try discriminate.
    + intros H. exists q. split; [reflexivity|].
      unfold normalizeAge, normalizeAgeWith, isFinite_floor in H. congruence.
    + rewrite normalizeAge_string_null. discriminate.
  - intros [q [-> ->]]. reflexivity.
Qed.

Lemma sheetAges_numeric (wb : workbook) (n : jsstring) :
  sheetAges wb n
  = flat_map (fun r => numeric_age (cell r 3))
             (sheet_to_json (lookup_sheet (Sheets wb) n)).
Proof.
  unfold sheetAges. rewrite collectAges_spec.
  apply flat_map_ext. intros r. unfold numeric_age.
  destruct (cell r 3) as [| | b | [| b | q] | s |]; try reflexivity.
  rewrite normalizeAge_string_null. reflexivity.
Qed.

Lemma numeric_age_valid (v : value) (a : Z) :
  In a (numeric_age v) -> 0 <= a <= 120.
Proof.
  unfold numeric_age. destruct v as [| | b | [| b | q] | s |]; try (intros []).
  destruct ((0 <=? Qfloor q) && (Qfloor q <=? 120))%bool eqn:E;
    [|intros []].
  intros [<-|[]]. apply andb_true_iff in E. destruct E as [E1 E2].
  apply Z.leb_le in E1, E2. lia.
Qed.

(** What [findAgesInWorkbook] of [src/App.jsx] returns: [count] is the
    length of [ages]; every age is an integer of 0..120; and the ages of
    a sheet are the floors of the finite numbers in column D that fall in
    0..120, in the order of the rows, a cell that holds a string or
    anything else adding nothing. *)
Theorem findAgesInWorkbook_numeric_cells (wb : workbook) :
  best_count (findAgesInWorkbook wb)
    = Z.of_nat (length (best_ages (findAgesInWorkbook wb))) /\
  Forall (fun a => 0 <= a <= 120) (best_ages (findAgesInWorkbook wb)) /\
  (best_ages (findAgesInWorkbook wb) = [] \/
   best_ages (findAgesInWorkbook wb)
   = flat_map (fun r => numeric_age (cell r 3))
              (sheet_to_json
                 (lookup_sheet (Sheets wb)
                               (best_sheetName (findAgesInWorkbook wb))))).
Proof.
  destruct (findAgesInWorkbook_scanned wb) as [Hc [_ Hcase]].
  split; [exact Hc|].
  destruct Hcase as [[-> _]|[before [after [_ [Ha _]]]]].
  - split; [constructor|left; reflexivity].
  - rewrite Ha, sheetAges_numeric. split; [|right; reflexivity].
    apply Forall_forall. intros a Hin.
    apply in_flat_map in Hin. destruct Hin as [r [_ Hr]].
    apply (numeric_age_valid _ _ Hr).
Qed.

(** ** Dates and file names *)

Lemma parseDateString_fields (d : jsstring) (z : Z) :
  date_shaped d = true ->
  parseDateString d = Some z
  <-> 100 <= fst (fst (date_fields d)) /\
      valid_date (fst (fst (date_fields d))) (snd (fst (date_fields d)))
                 (snd (date_fields d)) /\
      z = days_from_civil (fst (fst (date_fields d)))
                          (snd (fst (date_fields d))) (snd (date_fields d)).
Proof.
  intros Hs. pose proof (parseDateString_shaped d Hs) as H.
  destruct (date_fields d) as [[Y M] D]. cbn [fst snd].
  destruct H as [-> [HY [HM HD]]].
  apply parse_ymd_spec; assumption.
Qed.

(** On a string of the shape [YYYY-MM-DD], [parseDateString] returns a
    date only when year, month and day are a date of the calendar and
    the year is 100 or more, and the date is then that day: a day that
    the month does not have is never rolled over into the next month. *)
Theorem parseDateString_calendar (d : jsstring) (z : Z) :
  date_shaped d = true ->
  parseDateString d = Some z ->
  100 <= fst (fst (date_fields d)) /\
  valid_date (fst (fst (date_fields d))) (snd (fst (date_fields d)))
             (snd (date_fields d)) /\
  z = days_from_civil (fst (fst (date_fields d)))
                      (snd (fst (date_fields d))) (snd (date_fields d)).
Proof.
  intros Hs Hp. apply (parseDateString_fields d z Hs). exact Hp.
Qed.

Lemma parseDateString_calendar_witness :
  100 <= 2024 /\ valid_date 2024 6 12 /\ 19886 = days_from_civil 2024 6 12.
Proof.
  apply (parseDateString_calendar (str "2024-06-12") 19886);
    vm_compute; reflexivity.
Defined.

(** The pattern of the file names accepts exactly the names of the shape
    [YYYY-MM-DD_<suffix>.xlsx] or [.xls], the extension in letters of
    either case, and captures the ten characters of the date. *)
Theorem buildFileRegex_shape (type : UploadType) (fileName date : jsstring) :
  buildFileRegex (suffix_of type) fileName = Some date
  <-> exists ext,
        fileName = date ++ 95%N :: suffix_of type ++ 46%N :: ext /\
        date_shaped date = true /\
        (ci_eqb ext (str "xlsx") || ci_eqb ext (str "xls"))%bool = true.
Proof. apply buildFileRegex_spec. Qed.

Lemma date_shaped_length (d : jsstring) :
  date_shaped d = true -> length d = 10%nat.
Proof.
  destruct d as [|y1 [|y2 [|y3 [|y4 [|h1 [|m1 [|m2 [|h2 [|d1 [|d2 [|x rest]]]]]]]]]]];
    try discriminate. reflexivity.
Qed.

(** A name that the pattern of one kind of upload accepts is rejected by
    the pattern of the other kind: a visit file dropped on the fever
    input (or the reverse) gets the name issue ['pattern']. *)
Theorem buildFileRegex_kinds_exclusive (fileName date : jsstring) :
  buildFileRegex (suffix_of visit) fileName = Some date ->
  buildFileRegex (suffix_of fever) fileName = None /\
  classifyName (buildFileRegex (suffix_of fever)) fileName
  = (None, PatternIssue).
Proof.
  intros Hv.
  assert (Hf : buildFileRegex (suffix_of fever) fileName = None).
  { destruct (buildFileRegex (suffix_of fever) fileName) as [date'|] eqn:Hf;
      [|reflexivity].
    exfalso.
    apply buildFileRegex_spec in Hv. destruct Hv as [e1 [E1 [S1 _]]].
    apply buildFileRegex_spec in Hf. destruct Hf as [e2 [E2 [S2 _]]].
    rewrite E1 in E2.
    apply date_shaped_length in S1, S2.
    assert (H11 : nth_error (date ++ 95%N :: suffix_of visit ++ 46%N :: e1) 11
                  = nth_error (date' ++ 95%N :: suffix_of fever ++ 46%N :: e2) 11)
      by (rewrite E2; reflexivity).
    rewrite !nth_error_app2 in H11 by lia. rewrite S1, S2 in H11.
    cbn in H11. discriminate. }
  split; [exact Hf|]. unfold classifyName. rewrite Hf. reflexivity.
Qed.

Lemma buildFileRegex_kinds_exclusive_witness :
  buildFileRegex (suffix_of fever) sample_name = None /\
  classifyName (buildFileRegex (suffix_of fever)) sample_name
  = (None, PatternIssue).
Proof.
  apply (buildFileRegex_kinds_exclusive sample_name (str "2024-06-12")).
  vm_compute. reflexivity.
Defined.

Lemma year_string_ok_all (n : Z) :
  1000 <= n <= 9999 -> year_string_ok n = true.
Proof.
  intros H.
  apply (all_from_spec year_string_ok (Z.to_nat 9000) 1000);
    [vm_compute; reflexivity|].
  rewrite Z2Nat.id; lia.
Qed.

Lemma two_digits_ok_all (n : Z) : 0 <= n <= 99 -> two_digits_ok n = true.
Proof.
  intros H.
  apply (all_from_spec two_digits_ok (Z.to_nat 100) 0);
    [vm_compute; reflexivity|].
  rewrite Z2Nat.id; lia.
Qed.

Lemma month_of_range (z : Z) : 0 <= month_of z <= 11.
Proof.
  pose proof (civil_from_days_valid z) as H. unfold month_of.
  destruct (civil_from_days z) as [[y m] d]. cbn [fst snd].
  destruct H as [[Hm _] _]. lia.
Qed.

Lemma civil_of_day (z : Z) :
  valid_date (year_of z) (month_of z + 1) (date_of z) /\
  days_from_civil (year_of z) (month_of z + 1) (date_of z) = z.
Proof.
  pose proof (civil_from_days_valid z) as H.
  unfold year_of, month_of, date_of.
  destruct (civil_from_days z) as [[y m] d]. cbn [fst snd].
  replace (m - 1 + 1) with m by lia. exact H.
Qed.

(** The string of a date with a year of four digits: its shape and what
    it spells. *)
Lemma formatDate_shaped (z : Z) :
  1000 <= year_of z <= 9999 ->
  date_shaped (formatDate (Some z)) = true /\
  date_fields (formatDate (Some z)) = (year_of z, month_of z + 1, date_of z).
Proof.
  intros Hy. unfold formatDate.
  pose proof (year_string_ok_all _ Hy) as HY.
  pose proof (month_of_range z) as Hm. pose proof (date_of_range z) as Hd.
  pose proof (two_digits_ok_all (month_of z + 1) ltac:(lia)) as HM.
  pose proof (two_digits_ok_all (date_of z) ltac:(lia)) as HD.
  unfold year_string_ok in HY. unfold two_digits_ok in HM, HD.
  destruct (int_to_jsstring (year_of z)) as [|a [|b [|c [|d [|x r]]]]];
    try discriminate.
  destruct (padStart2 (int_to_jsstring (month_of z + 1))) as [|m1 [|m2 [|x r]]];
    try discriminate.
  destruct (padStart2 (int_to_jsstring (date_of z))) as [|d1 [|d2 [|x r]]];
    try discriminate.
  apply andb_true_iff in HY, HM, HD.
  destruct HY as [HY1 HY2], HM as [HM1 HM2], HD as [HD1 HD2].
  apply Z.eqb_eq in HY2, HM2, HD2.
  cbn [app date_shaped date_fields].
  rewrite HY2, HM2, HD2. split; [|reflexivity].
  cbn [forallb] in HY1, HM1, HD1 |- *.
  repeat rewrite andb_true_iff in HY1.
  repeat rewrite andb_true_iff in HM1.
  repeat rewrite andb_true_iff in HD1.
  destruct HY1 as [Ya [Yb [Yc [Yd _]]]].
  destruct HM1 as [Ma [Mb _]]. destruct HD1 as [Da [Db _]].
  rewrite Ya, Yb, Yc, Yd, Ma, Mb, Da, Db.
  unfold cu_eqb, hyphen. reflexivity.
Qed.

(** Formatting a date and parsing the string gives the date back, for
    the years of four digits. *)
Theorem parseDateString_formatDate (z : Z) :
  1000 <= year_of z <= 9999 ->
  parseDateString (formatDate (Some z)) = Some z.
Proof.
  intros Hy. destruct (formatDate_shaped z Hy) as [Hs Hf].
  apply (parseDateString_fields _ z Hs). rewrite Hf. cbn [fst snd].
  destruct (civil_of_day z) as [Hv Hz].
  split; [lia|]. split; [exact Hv|]. symmetry. exact Hz.
Qed.

Lemma parseDateString_formatDate_witness :
  parseDateString (formatDate (Some 19886)) = Some 19886.
Proof.
  apply (parseDateString_formatDate 19886). vm_compute.
  split; discriminate.
Defined.

Lemma digit_value_inj (a b : codeunit) :
  is_digit a = true -> is_digit b = true ->
  digit_value a = digit_value b -> a = b.
Proof.
  intros Ha Hb. apply is_digit_range in Ha, Hb. unfold digit_value. lia.
Qed.

(** Parsing a string [YYYY-MM-DD] of a year from 1000 on and formatting
    the date gives the string back. *)
Theorem formatDate_parseDateString (d : jsstring) (z : Z) :
  date_shaped d = true -> 1000 <= fst (fst (date_fields d)) ->
  parseDateString d = Some z ->
  formatDate (Some z) = d.
Proof.
  intros Hs H1000 Hp.
  pose proof (parseDateString_shaped d Hs) as Hr.
  apply (parseDateString_fields d z Hs) in Hp.
  destruct (date_fields d) as [[Y M] D] eqn:Hf. cbn [fst snd] in *.
  destruct Hr as [_ [HY [HM HD]]]. destruct Hp as [_ [Hv ->]].
  pose proof (civil_from_days_from_civil Y M D Hv) as Hc.
  assert (Ey : year_of (days_from_civil Y M D) = Y)
    by (unfold year_of; rewrite Hc; reflexivity).
  assert (Em : month_of (days_from_civil Y M D) + 1 = M)
    by (unfold month_of; rewrite Hc; cbn [fst snd]; lia).
  assert (Ed : date_of (days_from_civil Y M D) = D)
    by (unfold date_of; rewrite Hc; reflexivity).
  destruct (formatDate_shaped (days_from_civil Y M D) ltac:(lia)) as [Hs' Hf'].
  rewrite Ey, Em, Ed in Hf'.
  set (d' := formatDate (Some (days_from_civil Y M D))) in *. clearbody d'.
  (* two strings of the shape that spell the same numbers *)
  destruct d as [|y1 [|y2 [|y3 [|y4 [|h1 [|m1 [|m2 [|h2 [|d1 [|d2 [|x r]]]]]]]]]]];
    try discriminate.
  destruct d' as [|y1' [|y2' [|y3' [|y4' [|h1' [|m1' [|m2' [|h2' [|e1' [|e2' [|x r]]]]]]]]]]];
    try discriminate.
  unfold date_shaped in Hs, Hs'. cbn [forallb] in Hs, Hs'.
  rewrite !andb_true_iff in Hs, Hs'.
  destruct Hs as [[[A1 [A2 [A3 [A4 [A5 [A6 [A7 [A8 _]]]]]]]] Ah1] Ah2].
  destruct Hs' as [[[B1 [B2 [B3 [B4 [B5 [B6 [B7 [B8 _]]]]]]]] Bh1] Bh2].
  apply N.eqb_eq in Ah1, Ah2, Bh1, Bh2. subst h1 h2 h1' h2'.
  cbn [date_fields] in Hf, Hf'. rewrite <- Hf in Hf'.
  injection Hf' as EY EM ED.
  unfold digits_value in EY, EM, ED. cbn [fold_left] in EY, EM, ED.
  pose proof (digit_value_range _ A1). pose proof (digit_value_range _ A2).
  pose proof (digit_value_range _ A3). pose proof (digit_value_range _ A4).
  pose proof (digit_value_range _ A5). pose proof (digit_value_range _ A6).
  pose proof (digit_value_range _ A7). pose proof (digit_value_range _ A8).
  pose proof (digit_value_range _ B1). pose proof (digit_value_range _ B2).
  pose proof (digit_value_range _ B3). pose proof (digit_value_range _ B4).
  pose proof (digit_value_range _ B5). pose proof (digit_value_range _ B6).
  pose proof (digit_value_range _ B7). pose proof (digit_value_range _ B8).
  rewrite (digit_value_inj y1' y1), (digit_value_inj y2' y2),
    (digit_value_inj y3' y3), (digit_value_inj y4' y4),
    (digit_value_inj m1' m1), (digit_value_inj m2' m2),
    (digit_value_inj e1' d1), (digit_value_inj e2' d2);
    try assumption; try lia.
  reflexivity.
Qed.

Lemma formatDate_parseDateString_witness :
  formatDate (Some 19886) = str "2024-06-12".
Proof.
  apply (formatDate_parseDateString (str "2024-06-12") 19886).
  - reflexivity.
  - vm_compute. discriminate.
  - vm_compute. reflexivity.
Defined.

(** ** Weeks *)

Lemma TimeClip_in_range (z : Z) :
  - max_day <= z <= max_day -> TimeClip z = Some z.
Proof.
  intros H. unfold TimeClip.
  destruct (Z.leb_spec (- max_day) z); [|lia].
  destruct (Z.leb_spec z max_day); [|lia]. reflexivity.
Qed.

(** [getWeekStartMonday] of a date gives a Monday, the date itself or one
    of the six days before it. *)
Theorem getWeekStartMonday_monday (z : Z) :
  6 - max_day <= z <= max_day ->
  exists m,
    getWeekStartMonday (Some z) = Some m /\
    getDay (Some m) = Fin 1 /\
    z - 6 <= m <= z.
Proof.
  intros Hz. rewrite getWeekStartMonday_day.
  destruct (monday_is_monday z) as [Hmon Hr].
  exists (z - (weekday_of z + 6) mod 7).
  split; [apply TimeClip_in_range; lia|].
  split; [|lia].
  unfold getDay, field. rewrite Hmon. reflexivity.
Qed.

Lemma getWeekStartMonday_monday_witness :
  exists m,
    getWeekStartMonday (Some 19886) = Some m /\
    getDay (Some m) = Fin 1 /\
    19886 - 6 <= m <= 19886.
Proof.
  apply (getWeekStartMonday_monday 19886). vm_compute.
  split; discriminate.
Defined.

(** [analyzeWeekDates] returns [null] exactly when no string of the
    list parses as a date; the empty list is such a list. *)
Theorem analyzeWeekDates_null_iff (ds : list jsstring) :
  analyzeWeekDates ds = None
  <-> forall d, In d ds -> parseDateString d = None.
Proof. apply analyzeWeekDates_null. Qed.

(** Otherwise the week is that of the earliest date that parses:
    [weekStart] is the Monday of that date, the date itself or one of
    the six days before it. *)
Theorem analyzeWeekDates_earliest_week (ds : list jsstring) (r : WeekCheck) :
  analyzeWeekDates ds = Some r ->
  exists first,
    (exists d, In d ds /\ parseDateString d = Some first) /\
    (forall d z, In d ds -> parseDateString d = Some z -> first <= z) /\
    getDay (Some (monday_of first)) = Fin 1 /\
    first - 6 <= monday_of first <= first /\
    weekStart r = formatDate (TimeClip (monday_of first)).
Proof.
  intros H. destruct (analyzeWeekDates_week ds r H)
    as [first [Hex [Hmin [Hmon [Hr [Hws _]]]]]].
  exists first. split; [exact Hex|]. split; [exact Hmin|].
  split; [unfold getDay, field; rewrite Hmon; reflexivity|].
  split; [lia|exact Hws].
Qed.

Lemma analyzeWeekDates_earliest_week_witness :
  exists first,
    (exists d, In d [str "2024-06-12"] /\ parseDateString d = Some first) /\
    (forall d z, In d [str "2024-06-12"] ->
                 parseDateString d = Some z -> first <= z) /\
    getDay (Some (monday_of first)) = Fin 1 /\
    first - 6 <= monday_of first <= first /\
    str "2024-06-10" = formatDate (TimeClip (monday_of first)).
Proof.
  exact (analyzeWeekDates_earliest_week [str "2024-06-12"] _
           analyzeWeekDates_2024_06_12).
Defined.

(** *** The sort of strings *)

Lemma jsstring_leb_total (a b : jsstring) :
  jsstring_leb a b = false -> jsstring_leb b a = true.
Proof.
  revert b. induction a as [|x a IH]; intros [|y b]; simpl; try discriminate;
    try reflexivity.
  destruct (N.ltb_spec x y); [discriminate|].
  destruct (N.ltb_spec y x); [reflexivity|]. apply IH.
Qed.

Lemma insert_sorted_perm (x : jsstring) (l : list jsstring) :
  Permutation (insert_sorted x l) (x :: l).
Proof.
  induction l as [|y l IH]; simpl; [reflexivity|].
  destruct (jsstring_leb x y); [reflexivity|].
  rewrite IH. apply perm_swap.
Qed.

Lemma sort_strings_perm (l : list jsstring) : Permutation (sort_strings l) l.
Proof.
  induction l as [|x l IH]; simpl; [reflexivity|].
  rewrite insert_sorted_perm. apply perm_skip. exact IH.
Qed.

Lemma insert_sorted_ascending (x : jsstring) (l : list jsstring) :
  ascending l -> ascending (insert_sorted x l).
Proof.
  unfold ascending. induction l as [|y l IH]; intros Hs; simpl.
  - repeat constructor.
  - destruct (jsstring_leb x y) eqn:E.
    + constructor; [exact Hs|]. constructor. exact E.
    + inversion Hs as [|? ? Hs' Hhd]; subst.
      constructor; [apply IH; exact Hs'|].
      destruct l as [|w l]; simpl.
      * constructor. apply jsstring_leb_total. exact E.
      * destruct (jsstring_leb x w).
        -- constructor. apply jsstring_leb_total. exact E.
        -- constructor. inversion Hhd; assumption.
Qed.

Lemma sort_strings_ascending (l : list jsstring) : ascending (sort_strings l).
Proof.
  induction l as [|x l IH]; simpl; [constructor|].
  apply insert_sorted_ascending. exact IH.
Qed.

Lemma uniq_from_NoDup (l seen : list jsstring) : NoDup (uniq_from seen l).
Proof.
  revert seen. induction l as [|a l IH]; intros seen; simpl; [constructor|].
  destruct (includes seen a); [apply IH|].
  constructor; [|apply IH].
  intros H. apply uniq_from_In in H. destruct H as [_ H]. apply H. left.
  reflexivity.
Qed.

Lemma NoDup_filter {A : Type} (f : A -> bool) (l : list A) :
  NoDup l -> NoDup (filter f l).
Proof.
  induction 1 as [|x l Hx Hl IH]; simpl; [constructor|].
  destruct (f x); [|exact IH].
  constructor; [|exact IH]. intros H. apply filter_In in H. tauto.
Qed.

Lemma not_includes (l : list jsstring) (x : jsstring) :
  negb (includes l x) = true <-> ~ In x l.
Proof.
  rewrite negb_true_iff. rewrite <- includes_In.
  destruct (includes l x); split; congruence.
Qed.

(** The two lists of [analyzeWeekDates]: with the six expected dates
    (the first of which is [weekStart]), [missingDays] holds the expected
    dates that no string of the input is, and [outOfRange] holds the
    strings of the input that are none of the expected dates, parsed or
    not, each once and in ascending order of the code units. *)
Theorem analyzeWeekDates_lists (ds : list jsstring) (r : WeekCheck) :
  analyzeWeekDates ds = Some r ->
  exists expected,
    length expected = 6%nat /\
    hd [] expected = weekStart r /\
    (forall x, In x (missingDays r) <-> In x expected /\ ~ In x ds) /\
    (forall x, In x (outOfRange r) <-> In x ds /\ ~ In x expected) /\
    NoDup (outOfRange r) /\
    ascending (outOfRange r).
Proof.
  unfold analyzeWeekDates.
  destruct (uniq ds) as [|u us] eqn:Eu; [discriminate|]. rewrite <- Eu.
  destruct (filter_dates (map parseDateString (uniq ds))) as [|d0 rest];
    [discriminate|].
  intros H. injection H as <-. unfold weekCheckFrom.
  cbn [weekStart missingDays outOfRange].
  set (ws := getWeekStartMonday _).
  exists (buildExpectedWeekDates ws).
  split; [reflexivity|]. split.
  - destruct ws as [mz|] eqn:Ews; [|reflexivity].
    unfold buildExpectedWeekDates. cbn [map hd].
    rewrite setDate_offset, Z.add_0_r.
    assert (Hc : TimeClip mz = Some mz).
    { unfold ws in Ews. rewrite getWeekStartMonday_day in Ews.
      unfold TimeClip in Ews |- *.
      destruct ((- max_day <=? _) && (_ <=? max_day))%bool eqn:E in Ews;
        [|discriminate].
      injection Ews as <-. rewrite E. reflexivity. }
    rewrite Hc. reflexivity.
  - split; [|split; [|split]].
    + intros x. rewrite filter_In, not_includes, uniq_In. tauto.
    + intros x. rewrite (Permutation_in' eq_refl (sort_strings_perm _)).
      rewrite filter_In, not_includes, uniq_In. tauto.
    + apply (Permutation_NoDup (Permutation_sym (sort_strings_perm _))).
      apply NoDup_filter. apply uniq_from_NoDup.
    + apply sort_strings_ascending.
Qed.

Lemma analyzeWeekDates_lists_witness :
  exists expected,
    length expected = 6%nat /\
    hd [] expected = str "2024-06-10" /\
    (forall x, In x [str "2024-06-10"; str "2024-06-11"; str "2024-06-13";
                     str "2024-06-14"; str "2024-06-15"]
               <-> In x expected /\ ~ In x [str "2024-06-12"]) /\
    (forall x, In x [] <-> In x [str "2024-06-12"] /\ ~ In x expected) /\
    NoDup (@nil jsstring) /\
    ascending [].
Proof.
  exact (analyzeWeekDates_lists [str "2024-06-12"] _
           analyzeWeekDates_2024_06_12).
Defined.

(** ** Counts *)

Lemma tally_perm (p : Z -> bool) (l l' : list Z) :
  Permutation l l' -> tally p l = tally p l'.
Proof.
  intros H. unfold tally. f_equal. apply Permutation_length.
  induction H as [|x l l' _ IH|x y l|l l' l'' _ IH1 _ IH2]; simpl.
  - constructor.
  - destruct (p x); [apply perm_skip|]; exact IH.
  - destruct (p x), (p y); try reflexivity. apply perm_swap.
  - exact (Permutation_trans IH1 IH2).
Qed.

Lemma countsOf_ext (defs : list AgeGroup) (l l' : list Z) :
  (forall p, tally p l = tally p l') -> countsOf defs l = countsOf defs l'.
Proof.
  intros H. unfold countsOf. apply map_ext. intros g.
  rewrite H. f_equal. apply map_ext. intros c. rewrite H. reflexivity.
Qed.

(** The counts do not depend on the order of the ages: the files of a
    batch may be read in any order. *)
Theorem buildCounts_order (l l' : list Z) :
  Permutation l l' -> buildCounts l = buildCounts l'.
Proof.
  intros H. rewrite !buildCounts_countsOf. apply countsOf_ext.
  intros p. apply tally_perm. exact H.
Qed.

Lemma buildCounts_order_witness :
  buildCounts [70; 3; 10] = buildCounts [3; 10; 70].
Proof.
  apply buildCounts_order.
  exact (Permutation_cons_append [3; 10] 70).
Defined.

(** The counts of two lists of ages put together are the sums of their
    counts, band by band and child by child: counting the ages of a week
    is adding up the counts of its days. *)
Theorem buildCounts_app (l1 l2 : list Z) :
  counts_of (buildCounts (l1 ++ l2))
  = add_counts (counts_of (buildCounts l1)) (counts_of (buildCounts l2)).
Proof.
  rewrite !buildCounts_countsOf.
  unfold countsOf, counts_of, add_counts, add_lists, AGE_GROUPS.
  cbn [map combine children_of group_children group_band count children
       child_count fst snd].
  rewrite !tally_app. reflexivity.
Qed.

Lemma tally_filter (p v : Z -> bool) (l : list Z) :
  (forall a, p a = true -> v a = true) ->
  tally p (filter v l) = tally p l.
Proof.
  intros H. unfold tally. f_equal. f_equal.
  induction l as [|a l IH]; simpl; [reflexivity|].
  destruct (v a) eqn:Ev; simpl.
  - rewrite IH. reflexivity.
  - destruct (p a) eqn:Ep; [|exact IH].
    rewrite (H a Ep) in Ev. discriminate.
Qed.

(** An age outside 0..120 is counted in no band: the counts of a list
    are those of its ages of 0..120. *)
Theorem buildCounts_ignores_invalid (l : list Z) :
  buildCounts l = buildCounts (filter valid_age l).
Proof.
  rewrite !buildCounts_countsOf.
  assert (H : forall lo hi, 0 <= lo -> hi <= 120 ->
            forall q : Z -> bool,
            tally (fun a => ((lo <=? a) && (a <=? hi) && q a)%bool)
                  (filter valid_age l)
            = tally (fun a => ((lo <=? a) && (a <=? hi) && q a)%bool) l).
  { intros lo hi Hlo Hhi q. apply tally_filter. intros a Ha.
    apply andb_true_iff in Ha. destruct Ha as [Ha _].
    apply andb_true_iff in Ha. destruct Ha as [H1 H2].
    apply Z.leb_le in H1, H2. unfold valid_age.
    apply andb_true_iff. split; apply Z.leb_le; lia. }
  assert (H' : forall lo hi, 0 <= lo -> hi <= 120 ->
            tally (fun a => ((lo <=? a) && (a <=? hi))%bool)
                  (filter valid_age l)
            = tally (fun a => ((lo <=? a) && (a <=? hi))%bool) l).
  { intros lo hi Hlo Hhi.
    pose proof (H lo hi Hlo Hhi (fun _ => true)) as E.
    erewrite (f_equal (fun p => tally p _)) in E.
    2:{ reflexivity. }
    assert (Ext : forall m, tally (fun a => ((lo <=? a) && (a <=? hi) && true)%bool) m
                            = tally (fun a => ((lo <=? a) && (a <=? hi))%bool) m).
    { intros m. unfold tally. f_equal. f_equal. apply filter_ext.
      intros a. apply andb_true_r. }
    rewrite !Ext in E. exact E. }
  unfold countsOf, AGE_GROUPS, in_range.
  cbn [map children_of group_children group_band band_range fst snd].
  rewrite <- !H by lia. rewrite <- !H' by lia. reflexivity.
Qed.

(** [combineCounts] on the trees of two lists of ages, the visits and
    the fevers: every band, in the order of the taxonomy, has for
    [totalCount] the number of visit ages in its range and for
    [feverCount] the number of fever ages in its range, and so has every
    child. *)
Theorem combineCounts_buildCounts (a b : list Z) :
  combined_counts (combineCounts (buildCounts a) (as_fever (buildCounts b)))
  = band_counts a b.
Proof.
  rewrite !buildCounts_countsOf. reflexivity.
Qed.

(** ** Warnings *)

Lemma app_nil_iff {A : Type} (l l' : list A) :
  l ++ l' = [] <-> l = [] /\ l' = [].
Proof.
  split; [apply app_eq_nil|intros [-> ->]; reflexivity].
Qed.

Lemma warn_nil (text : jsstring) (items : list jsstring) :
  warn text items = [] <-> items = [].
Proof.
  unfold warn. destruct items; split; try reflexivity; discriminate.
Qed.

Lemma map_filter_nil {A B : Type} (f : A -> B) (p : A -> bool) (l : list A) :
  map f (filter p l) = [] <-> forall x, In x l -> p x = false.
Proof.
  induction l as [|a l IH]; simpl.
  - split; [intros _ x []|reflexivity].
  - destruct (p a) eqn:E; simpl.
    + split; [discriminate|]. intros H. rewrite (H a) in E by (left; reflexivity).
      discriminate.
    + rewrite IH. split.
      * intros H x [<-|Hx]; [exact E|apply H; exact Hx].
      * intros H x Hx. apply H. right. exact Hx.
Qed.

Lemma duplicateDates_nil (files : list ParsedFile) :
  duplicateDates files = [] <-> forall d, filesOn d files < 2.
Proof.
  destruct (duplicateDates_spec files) as [_ Hdup]. split.
  - intros E d. destruct (Z.ltb_spec (filesOn d files) 2) as [|Hge]; [assumption|].
    assert (Hin : In (d, filesOn d files) (duplicateDates files))
      by (apply Hdup; split; [reflexivity|exact Hge]).
    rewrite E in Hin. destruct Hin.
  - intros H. destruct (duplicateDates files) as [|[d c] es]; [reflexivity|].
    assert (Hin : In (d, c) ((d, c) :: es)) by (left; reflexivity).
    apply Hdup in Hin. destruct Hin as [-> Hc]. specialize (H d). lia.
Qed.

(** [buildUploadWarnings] returns no warning exactly when there is
    nothing to report: every file has a name without issue and was read
    with ages, no date is that of two files, and the check of the week,
    if there is one, has no date out of range and no missing day.  It
    never returns more than six warnings. *)
Theorem buildUploadWarnings_none (files : list ParsedFile)
  (weekCheck : option WeekCheck) :
  (buildUploadWarnings files weekCheck = []
   <-> (forall file, In file files ->
          nameIssue file = NoIssue /\ error file = NoError) /\
       (forall d, filesOn d files < 2) /\
       match weekCheck with
       | Some check => outOfRange check = [] /\ missingDays check = []
       | None => True
       end) /\
  (length (buildUploadWarnings files weekCheck) <= 6)%nat.
Proof.
  unfold buildUploadWarnings. split.
  - rewrite !app_nil_iff, !warn_nil, !map_filter_nil.
    rewrite <- duplicateDates_nil.
    assert (Hdup : map duplicateEntry (duplicateDates files) = []
                   <-> duplicateDates files = [])
      by (destruct (duplicateDates files); split; try reflexivity; discriminate).
    rewrite Hdup.
    assert (Hwc : match weekCheck with
                  | Some check =>
                      warn text_out_of_range (outOfRange check)
                      ++ warn text_missing (missingDays check)
                  | None => []
                  end = []
                  <-> match weekCheck with
                      | Some check =>
                          outOfRange check = [] /\ missingDays check = []
                      | None => True
                      end).
    { destruct weekCheck as [check|]; [|tauto].
      rewrite app_nil_iff, !warn_nil. tauto. }
    rewrite Hwc. split.
    + intros [H1 [H2 [H3 [H4 H5]]]]. split; [|tauto].
      intros file Hin. specialize (H1 file Hin). specialize (H2 file Hin).
      specialize (H3 file Hin).
      destruct (nameIssue file), (error file); try discriminate; tauto.
    + intros [H [H4 H5]].
      repeat split; try assumption; intros file Hin;
        destruct (H file Hin) as [E1 E2]; rewrite ?E1, ?E2; reflexivity.
  - rewrite !length_app.
    assert (Hw : forall t i, (length (warn t i) <= 1)%nat)
      by (intros t [|x i]; simpl; lia).
    pose proof (Hw text_invalid_name
                   (map name (filter (fun f => is_pattern_issue (nameIssue f)) files))).
    pose proof (Hw text_invalid_date
                   (map name (filter (fun f => is_date_issue (nameIssue f)) files))).
    pose proof (Hw text_read_error
                   (map name (filter (fun f => has_error (error f)) files))).
    pose proof (Hw text_duplicate (map duplicateEntry (duplicateDates files))).
    destruct weekCheck as [check|]; [|simpl; lia].
    rewrite length_app.
    pose proof (Hw text_out_of_range (outOfRange check)).
    pose proof (Hw text_missing (missingDays check)). lia.
Qed.

(** ** The weekly job *)

Lemma scanned_sheets_step (seen : list WeeklyReport.gsheet)
  (best : WeeklyReport.BestAges) (sh : WeeklyReport.gsheet) :
  scanned_sheets seen best ->
  scanned_sheets (seen ++ [sh]) (WeeklyReport.pickSheet best sh).
Proof.
  intros [Hmax Hcase]. unfold WeeklyReport.pickSheet. cbv zeta.
  fold (script_ages sh).
  destruct (Z.ltb_spec (Z.of_nat (length (WeeklyReport.ages best)))
                       (Z.of_nat (length (script_ages sh)))) as [Hlt|Hge].
  - unfold scanned_sheets. cbn [WeeklyReport.ages]. split.
    + intros m Hm. apply in_app_or in Hm. destruct Hm as [Hm|[<-|[]]].
      * specialize (Hmax m Hm). lia.
      * lia.
    + right. exists seen, sh, []. split; [reflexivity|].
      split; [reflexivity|]. split.
      * intro E. rewrite E in Hlt. simpl in Hlt. lia.
      * intros m Hm. specialize (Hmax m Hm). lia.
  - split.
    + intros m Hm. apply in_app_or in Hm. destruct Hm as [Hm|[<-|[]]].
      * apply Hmax. exact Hm.
      * lia.
    + destruct Hcase as [[He Hall]|[before [s [after [Hs [Ha [Hne Hb]]]]]]].
      * left. split; [exact He|].
        intros m Hm. apply in_app_or in Hm. destruct Hm as [Hm|[<-|[]]].
        -- apply Hall. exact Hm.
        -- rewrite He in Hge. simpl in Hge.
           destruct (script_ages sh); [reflexivity|simpl in Hge; lia].
      * right. exists before, s, (after ++ [sh]).
        split; [rewrite Hs, <- app_assoc; reflexivity|].
        split; [exact Ha|]. split; [exact Hne|exact Hb].
Qed.

Lemma scanned_sheets_fold (todo : list WeeklyReport.gsheet) :
  forall seen best,
    scanned_sheets seen best ->
    scanned_sheets (seen ++ todo) (fold_left WeeklyReport.pickSheet todo best).
Proof.
  induction todo as [|sh todo IH]; intros seen best H.
  - rewrite app_nil_r. exact H.
  - simpl. replace (seen ++ sh :: todo) with ((seen ++ [sh]) ++ todo)
      by (rewrite <- app_assoc; reflexivity).
    apply IH. apply scanned_sheets_step. exact H.
Qed.

Lemma script_ages_valid (sh : WeeklyReport.gsheet) :
  Forall (fun a => 0 <= a <= 120) (script_ages sh).
Proof.
  unfold script_ages. rewrite collectAges_spec.
  apply Forall_forall. intros a Hin.
  apply in_flat_map in Hin. destruct Hin as [r [_ Hr]].
  destruct (Script.normalizeAge (cell r 3)) as [age|]; [|destruct Hr].
  destruct ((0 <=? age) && (age <=? 120))%bool eqn:E; [|destruct Hr].
  destruct Hr as [<-|[]]. apply andb_true_iff in E. destruct E as [E1 E2].
  apply Z.leb_le in E1, E2. lia.
Qed.

(** [extractAgesFromExcel] of the weekly job returns the valid ages of
    one sheet, all of 0..120: those of the first sheet, in the order of
    the spreadsheet, that has the most of them; and the empty list when
    no sheet has any. *)
Theorem extractAgesFromExcel_longest_first (sheets : list WeeklyReport.gsheet) :
  let result := WeeklyReport.extractAgesFromExcel sheets in
  Forall (fun a => 0 <= a <= 120) result /\
  ((result = [] /\ forall sh, In sh sheets -> script_ages sh = []) \/
   exists before sh after,
     sheets = before ++ sh :: after /\
     result = script_ages sh /\
     result <> [] /\
     (forall s, In s before ->
        (length (script_ages s) < length result)%nat) /\
     (forall s, In s after ->
        (length (script_ages s) <= length result)%nat)).
Proof.
  intros result.
  pose proof (scanned_sheets_fold sheets [] {| WeeklyReport.ages := [];
                                                 WeeklyReport.sheetName := [] |})
    as H.
  cbn [app] in H. fold (WeeklyReport.extractAgesFromExcel sheets) in H.
  destruct H as [Hmax Hcase].
  { split; [intros sh []|]. left. split; [reflexivity|intros sh []]. }
  fold (WeeklyReport.extractAgesFromExcel sheets) in Hmax, Hcase.
  fold result in Hmax, Hcase.
  destruct Hcase as [[He Hall]|[before [sh [after [Hs [Ha [Hne Hb]]]]]]].
  - split; [rewrite He; constructor|]. left. split; assumption.
  - split; [rewrite Ha; apply script_ages_valid|].
    right. exists before, sh, after.
    split; [exact Hs|]. split; [exact Ha|]. split; [exact Hne|].
    split; [exact Hb|].
    intros s Hin. apply Hmax. rewrite Hs. apply in_or_app. right. right.
    exact Hin.
Qed.

Lemma drop_while_incl (p : codeunit -> bool) (s : jsstring) (c : codeunit) :
  In c (drop_while p s) -> In c s.
Proof.
  induction s as [|x s IH]; simpl; [tauto|].
  destruct (p x); [intros H; right; apply IH; exact H|tauto].
Qed.

Lemma trim_incl (s : jsstring) (c : codeunit) : In c (trim s) -> In c s.
Proof.
  unfold trim. intros H. apply in_rev in H.
  apply drop_while_incl in H. apply in_rev in H.
  apply drop_while_incl in H. exact H.
Qed.

Lemma Script_normalizeAge_no_digit (s : jsstring) :
  forallb (fun c => negb (is_digit c)) s = true ->
  Script.normalizeAge (VString s) = None.
Proof.
  intros H. unfold Script.normalizeAge, normalizeAgeWith.
  assert (Hs : regex_search Script.decimal_pattern_at (trim s) = None).
  { apply search_no_digit. intros c Hc. apply trim_incl in Hc.
    rewrite forallb_forall in H. specialize (H c Hc).
    destruct (is_digit c); [discriminate|reflexivity]. }
  destruct (trim s); [reflexivity|]. rewrite Hs. reflexivity.
Qed.

Lemma collectAges_no_digit_text (rows : list row) :
  no_digit_text rows = true ->
  collectAges normalizeAge rows = collectAges Script.normalizeAge rows.
Proof.
  intros H. rewrite !collectAges_spec.
  induction rows as [|r rows IH]; [reflexivity|].
  unfold no_digit_text in H. cbn [forallb] in H.
  apply andb_true_iff in H. destruct H as [Hr Hrows].
  cbn [flat_map]. rewrite (IH Hrows). f_equal.
  destruct (cell r 3) as [| | b | x | s |]; try reflexivity.
  rewrite normalizeAge_string_null, (Script_normalizeAge_no_digit s Hr).
  reflexivity.
Qed.

Lemma lookup_sheet_In (sheets : list (jsstring * sheet)) (n : jsstring)
  (rows : sheet) :
  NoDup (map fst sheets) -> In (n, rows) sheets ->
  lookup_sheet sheets n = Some rows.
Proof.
  induction sheets as [|[m sh] sheets IH]; intros Hnd Hin; [destruct Hin|].
  cbn [map fst] in Hnd. inversion Hnd as [|? ? Hnot Hnd']; subst.
  cbn [lookup_sheet]. destruct Hin as [E|Hin].
  - inversion E; subst. rewrite jsstring_eqb_refl. reflexivity.
  - destruct (jsstring_eqb m n) eqn:E.
    + apply jsstring_eqb_eq in E. subst m. exfalso. apply Hnot.
      apply (in_map fst) in Hin. exact Hin.
    + apply IH; assumption.
Qed.

Lemma pick_pickSheet (wb : workbook) (l : list WeeklyReport.gsheet) :
  (forall sh, In sh l -> sheetAges wb (fst sh) = script_ages sh) ->
  forall b b',
    best_ages b = WeeklyReport.ages b' ->
    best_count b = Z.of_nat (length (best_ages b)) ->
    best_ages (fold_left (pick wb) (map fst l) b)
    = WeeklyReport.ages (fold_left WeeklyReport.pickSheet l b').
Proof.
  induction l as [|sh l IH]; intros Hl b b' Hb Hc; [exact Hb|].
  cbn [map fold_left]. apply IH.
  - intros s Hs. apply Hl. right. exact Hs.
  - unfold pick, WeeklyReport.pickSheet. cbv zeta.
    fold (script_ages sh). rewrite (Hl sh (or_introl eq_refl)).
    rewrite Hc, Hb.
    destruct (Z.of_nat (length (WeeklyReport.ages b'))
              <? Z.of_nat (length (script_ages sh))); [reflexivity|exact Hb].
  - unfold pick. cbv zeta.
    destruct (best_count b <? Z.of_nat (length (sheetAges wb (fst sh))));
      [reflexivity|exact Hc].
Qed.

(** The web app and the weekly job read the same ages from the same
    sheets (the names of the sheets distinct) when no cell of column D
    is a string with a digit in it: the two differ on such strings
    alone. *)
Theorem extractAgesFromExcel_findAgesInWorkbook
  (sheets : list WeeklyReport.gsheet) :
  NoDup (map fst sheets) ->
  (forall sh, In sh sheets -> no_digit_text (snd sh) = true) ->
  WeeklyReport.extractAgesFromExcel sheets
  = best_ages (findAgesInWorkbook (workbook_of sheets)).
Proof.
  intros Hnd Hrows. symmetry.
  unfold findAgesInWorkbook, WeeklyReport.extractAgesFromExcel.
  cbn [workbook_of SheetNames].
  apply pick_pickSheet; [|reflexivity|reflexivity].
  intros [n rows] Hin. unfold sheetAges, script_ages.
  cbn [workbook_of Sheets fst snd].
  rewrite (lookup_sheet_In sheets n rows Hnd Hin). cbn [sheet_to_json].
  apply collectAges_no_digit_text. apply (Hrows (n, rows) Hin).
Qed.

Lemma extractAgesFromExcel_findAgesInWorkbook_witness :
  WeeklyReport.extractAgesFromExcel
    [(str "a", [[VNull; VNull; VNull; VNumber (Fin 3)]]);
     (str "b", [[VNull; VNull; VNull; VNumber (Fin 7)];
                [VNull; VNull; VNull; VString (str "age")];
                [VNull; VNull; VNull; VNumber (Fin 40)]])]
  = [7; 40] /\
  best_ages (findAgesInWorkbook (workbook_of
    [(str "a", [[VNull; VNull; VNull; VNumber (Fin 3)]]);
     (str "b", [[VNull; VNull; VNull; VNumber (Fin 7)];
                [VNull; VNull; VNull; VString (str "age")];
                [VNull; VNull; VNull; VNumber (Fin 40)]])]))
  = [7; 40].
Proof.
  split; [vm_compute; reflexivity|].
  rewrite <- extractAgesFromExcel_findAgesInWorkbook.
  - vm_compute. reflexivity.
  - cbn [map fst]. repeat constructor; cbn [In]; intros H;
      repeat destruct H as [H|H]; try discriminate H; exact H.
  - intros sh [<-|[<-|[]]]; vm_compute; reflexivity.
Defined.

(** [getPreviousWeekRange]: the range starts on the Monday of the week
    before the one of today, ends on the Saturday five days later, and
    its days are the six days from the one to the other. *)
Theorem getPreviousWeekRange_week (z : Z) :
  14 - max_day <= z <= max_day - 1 ->
  exists s,
    WeeklyReport.range_start (WeeklyReport.getPreviousWeekRange (Some z))
      = Some s /\
    getDay (Some s) = Fin 1 /\
    s + 7 <= z <= s + 13 /\
    WeeklyReport.range_end (WeeklyReport.getPreviousWeekRange (Some z))
      = Some (s + 5) /\
    WeeklyReport.range_days (WeeklyReport.getPreviousWeekRange (Some z))
      = [Some s; Some (s + 1); Some (s + 2); Some (s + 3); Some (s + 4);
         Some (s + 5)].
Proof.
  intros Hz. destruct (monday_is_monday z) as [Hmon Hr].
  set (m := z - (weekday_of z + 6) mod 7) in *.
  assert (Hwd : weekday_of (m - 7) = 1).
  { revert Hmon. unfold weekday_of. Z.to_euclidean_division_equations. lia. }
  assert (Hadd : forall d k, - max_day <= d + k <= max_day ->
                             WeeklyReport.addDays (Some d) k = Some (d + k)).
  { intros d k H. unfold WeeklyReport.addDays. rewrite setDate_offset.
    apply TimeClip_in_range. exact H. }
  assert (Hm : setDate (Some z) (date_of z - (weekday_of z + 6) mod 7)
               = Some m).
  { replace (date_of z - (weekday_of z + 6) mod 7)
      with (date_of z + - ((weekday_of z + 6) mod 7)) by lia.
    rewrite setDate_offset. apply TimeClip_in_range. unfold m. lia. }
  exists (m - 7). unfold WeeklyReport.getPreviousWeekRange. cbv zeta.
  cbn [WeeklyReport.range_start WeeklyReport.range_end
       WeeklyReport.range_days].
  rewrite Hm.
  assert (Hs : WeeklyReport.addDays (Some m) (-7) = Some (m - 7)).
  { apply (Hadd m (-7)). lia. }
  rewrite Hs. split; [reflexivity|].
  split; [unfold getDay, field; rewrite Hwd; reflexivity|].
  split; [lia|].
  split; [apply Hadd; lia|].
  cbn [map]. rewrite !Hadd by lia. rewrite Z.add_0_r. reflexivity.
Qed.

Lemma getPreviousWeekRange_week_witness :
  exists s,
    WeeklyReport.range_start (WeeklyReport.getPreviousWeekRange (Some 19886))
      = Some s /\
    getDay (Some s) = Fin 1 /\
    s + 7 <= 19886 <= s + 13 /\
    WeeklyReport.range_end (WeeklyReport.getPreviousWeekRange (Some 19886))
      = Some (s + 5) /\
    WeeklyReport.range_days (WeeklyReport.getPreviousWeekRange (Some 19886))
      = [Some s; Some (s + 1); Some (s + 2); Some (s + 3); Some (s + 4);
         Some (s + 5)].
Proof.
  apply (getPreviousWeekRange_week 19886). vm_compute.
  split; discriminate.
Defined.

Lemma extractAgesFromExcel_valid (sheets : list WeeklyReport.gsheet) :
  Forall (fun a => 0 <= a <= 120) (WeeklyReport.extractAgesFromExcel sheets).
Proof.
  pose proof (scanned_sheets_fold sheets [] {| WeeklyReport.ages := [];
                                                 WeeklyReport.sheetName := [] |})
    as H.
  cbn [app] in H. unfold WeeklyReport.extractAgesFromExcel.
  destruct H as [_ [[He _]|[before [sh [after [_ [Ha _]]]]]]].
  - split; [intros sh []|]. left. split; [reflexivity|intros sh []].
  - rewrite He. constructor.
  - rewrite Ha. apply script_ages_valid.
Qed.

Section AggregateWeekFacts.

Variable formatDate : jsdate -> jsstring.
Variable file : Type.
Variable findFileByName : jsstring -> option file.
Variable extractAges : file -> list Z.

Lemma aggregateDay_fold (days : list jsdate) :
  forall st,
    let st' := fold_left (WeeklyReport.aggregateDay formatDate file
                            findFileByName extractAges) days st in
    WeeklyReport.visitAges st'
    = WeeklyReport.visitAges st
      ++ found_ages formatDate findFileByName extractAges
                    WeeklyReport.fileSuffix_visit days /\
    WeeklyReport.feverAges st'
    = WeeklyReport.feverAges st
      ++ found_ages formatDate findFileByName extractAges
                    WeeklyReport.fileSuffix_fever days /\
    WeeklyReport.missing st'
    = WeeklyReport.missing st
      ++ missing_labels formatDate findFileByName days.
Proof.
  induction days as [|d days IH]; intros st; cbv zeta.
  - cbn [fold_left found_ages missing_labels flat_map].
    rewrite !app_nil_r. auto.
  - cbn [fold_left]. specialize (IH (WeeklyReport.aggregateDay formatDate file
                                       findFileByName extractAges st d)).
    cbv zeta in IH. destruct IH as [Hv [Hf Hm]]. rewrite Hv, Hf, Hm.
    unfold WeeklyReport.aggregateDay, found_ages, missing_labels.
    cbv zeta. cbn [flat_map].
    destruct (findFileByName (formatDate d ++ 95%N :: WeeklyReport.fileSuffix_visit));
      destruct (findFileByName (formatDate d ++ 95%N :: WeeklyReport.fileSuffix_fever));
      cbn [WeeklyReport.visitAges WeeklyReport.feverAges WeeklyReport.missing
           app];
      rewrite <- ?app_assoc; cbn [app]; auto.
Qed.

End AggregateWeekFacts.

Lemma NoDup_perm_strings (l l' : list jsstring) :
  Permutation l l' -> NoDup l -> NoDup l'.
Proof. intros H. apply (Permutation_NoDup H). Qed.

(** The missing days of [aggregateWeek]: a day of the range is listed,
    by its label, exactly when its visit file or its fever file is not
    in the folder; a day that lacks both is listed once; and the list is
    in ascending order. *)
Theorem aggregateWeek_missingDays (formatDate : jsdate -> jsstring)
  (file : Type) (findFileByName : jsstring -> option file)
  (extractAges : file -> list Z) (range : WeeklyReport.WeekRange) :
  let result := WeeklyReport.aggregateWeek formatDate file findFileByName
                                           extractAges range in
  ascending (WeeklyReport.agg_missingDays result) /\
  NoDup (WeeklyReport.agg_missingDays result) /\
  forall label,
    In label (WeeklyReport.agg_missingDays result)
    <-> exists d,
          In d (WeeklyReport.range_days range) /\ formatDate d = label /\
          (findFileByName (label ++ 95%N :: WeeklyReport.fileSuffix_visit)
             = None \/
           findFileByName (label ++ 95%N :: WeeklyReport.fileSuffix_fever)
             = None).
Proof.
  cbv zeta. unfold WeeklyReport.aggregateWeek. cbv zeta.
  cbn [WeeklyReport.agg_missingDays].
  destruct (aggregateDay_fold formatDate file findFileByName extractAges
              (WeeklyReport.range_days range)
              {| WeeklyReport.visitAges := []; WeeklyReport.feverAges := [];
                 WeeklyReport.missing := [] |}) as [_ [_ Hm]].
  cbn [WeeklyReport.missing app] in Hm. rewrite Hm.
  split; [apply sort_strings_ascending|].
  split.
  - eapply NoDup_perm_strings.
    + symmetry. apply sort_strings_perm.
    + apply uniq_from_NoDup.
  - intros label. split.
    + intros H. eapply Permutation_in in H; [|apply sort_strings_perm].
      apply (proj1 (uniq_In _ _)) in H. unfold missing_labels in H.
      apply in_flat_map in H. destruct H as [d [Hd H]].
      exists d. split; [exact Hd|]. cbv zeta in H.
      apply in_app_or in H.
      destruct (findFileByName
                  (formatDate d ++ 95%N :: WeeklyReport.fileSuffix_visit))
        eqn:Ev;
        destruct (findFileByName
                    (formatDate d ++ 95%N :: WeeklyReport.fileSuffix_fever))
          eqn:Ef;
        destruct H as [H|H]; cbn [In] in H;
        try contradiction; destruct H as [H|[]]; subst label;
        split; try reflexivity; auto.
    + intros [d [Hd [Hl Hnone]]].
      eapply Permutation_in; [symmetry; apply sort_strings_perm|].
      apply (proj2 (uniq_In _ _)). unfold missing_labels.
      apply in_flat_map. exists d. split; [exact Hd|]. cbv zeta.
      rewrite Hl. apply in_or_app.
      destruct Hnone as [E|E]; rewrite E; [left|right]; left; reflexivity.
Qed.

(** The totals of [aggregateWeek]: the visits are the ages of the visit
    files that are in the folder, day after day, and the fevers those of
    the fever files; when the ages read from a file are all of 0..120,
    as those of [extractAgesFromExcel] are, the [totalCount]s of the
    five bands add up to [totalVisit] and the [feverCount]s to
    [totalFever]. *)
Theorem aggregateWeek_totals (formatDate : jsdate -> jsstring)
  (file : Type) (findFileByName : jsstring -> option file)
  (extractAges : file -> list Z) (range : WeeklyReport.WeekRange) :
  (forall f, Forall (fun a => 0 <= a <= 120) (extractAges f)) ->
  let result := WeeklyReport.aggregateWeek formatDate file findFileByName
                                           extractAges range in
  WeeklyReport.agg_totalVisit result
    = Z.of_nat (length (found_ages formatDate findFileByName extractAges
                          WeeklyReport.fileSuffix_visit
                          (WeeklyReport.range_days range))) /\
  WeeklyReport.agg_totalFever result
    = Z.of_nat (length (found_ages formatDate findFileByName extractAges
                          WeeklyReport.fileSuffix_fever
                          (WeeklyReport.range_days range))) /\
  sum (map totalCount (WeeklyReport.agg_combinedGroups result))
    = WeeklyReport.agg_totalVisit result /\
  sum (map feverCount (WeeklyReport.agg_combinedGroups result))
    = WeeklyReport.agg_totalFever result.
Proof.
  intros Hvalid. cbv zeta. unfold WeeklyReport.aggregateWeek. cbv zeta.
  cbn [WeeklyReport.agg_totalVisit WeeklyReport.agg_totalFever
       WeeklyReport.agg_combinedGroups].
  destruct (aggregateDay_fold formatDate file findFileByName extractAges
              (WeeklyReport.range_days range)
              {| WeeklyReport.visitAges := []; WeeklyReport.feverAges := [];
                 WeeklyReport.missing := [] |}) as [Hv [Hf _]].
  cbn [WeeklyReport.visitAges WeeklyReport.feverAges app] in Hv, Hf.
  rewrite Hv, Hf.
  assert (Hfound : forall suffix,
            Forall (fun a => 0 <= a <= 120)
                   (found_ages formatDate findFileByName extractAges suffix
                               (WeeklyReport.range_days range))).
  { intros suffix. apply Forall_forall. intros a Ha.
    unfold found_ages in Ha. apply in_flat_map in Ha.
    destruct Ha as [d [_ Ha]].
    destruct (findFileByName (formatDate d ++ 95%N :: suffix)) as [f|];
      [|destruct Ha].
    specialize (Hvalid f). rewrite Forall_forall in Hvalid.
    apply Hvalid. exact Ha. }
  split; [reflexivity|]. split; [reflexivity|].
  rewrite !buildCounts_countsOf. split.
  - rewrite combineCounts_totals. apply sum_top_level. apply Hfound.
  - rewrite <- (sum_top_level _ (Hfound WeeklyReport.fileSuffix_fever)).
    reflexivity.
Qed.

Lemma aggregateWeek_totals_witness :
  let result :=
    WeeklyReport.aggregateWeek formatDate (list WeeklyReport.gsheet)
      sample_folder WeeklyReport.extractAgesFromExcel
      (WeeklyReport.getPreviousWeekRange (Some 19893)) in
  WeeklyReport.agg_totalVisit result = 3 /\
  sum (map totalCount (WeeklyReport.agg_combinedGroups result)) = 3 /\
  sum (map feverCount (WeeklyReport.agg_combinedGroups result)) = 0.
Proof.
  cbv zeta.
  destruct (aggregateWeek_totals formatDate (list WeeklyReport.gsheet)
              sample_folder WeeklyReport.extractAgesFromExcel
              (WeeklyReport.getPreviousWeekRange (Some 19893))
              extractAgesFromExcel_valid) as [Hv [Hf [Ht Hs]]].
  split; [vm_compute; reflexivity|].
  split; [rewrite Ht; vm_compute; reflexivity|].
  rewrite Hs. vm_compute. reflexivity.
Defined.

(** ** The row of the week in the report sheet *)

Lemma is_week_starts_with (weekStart : jsstring) (r : row) :
  WeeklyReport.is_week weekStart r = true <-> starts_with weekStart r.
Proof.
  unfold WeeklyReport.is_week, starts_with.
  destruct r as [|[| | b | x | s |] r]; cbn [hd_error];
    try (split; [discriminate|intros H; inversion H]).
  rewrite jsstring_eqb_eq. split; [intros ->; reflexivity|].
  intros H. inversion H. reflexivity.
Qed.

Lemma replaceWeek_none (weekStart : jsstring) (values : row)
  (rows : list row) :
  WeeklyReport.replaceWeek weekStart values rows = None
  <-> forall r, In r rows -> ~ starts_with weekStart r.
Proof.
  induction rows as [|r rows IH]; cbn [WeeklyReport.replaceWeek].
  - split; [intros _ r []|reflexivity].
  - destruct (WeeklyReport.is_week weekStart r) eqn:E.
    + split; [discriminate|]. intros H. exfalso.
      apply (H r (or_introl eq_refl)). apply is_week_starts_with. exact E.
    + destruct (WeeklyReport.replaceWeek weekStart values rows) as [rows'|].
      * split; [discriminate|]. intros H. exfalso.
        assert (C : Some rows' = None)
          by (apply IH; intros x Hx; apply H; right; exact Hx).
        discriminate C.
      * split; [|reflexivity]. intros _ x [<-|Hx].
        -- intros Hs. apply is_week_starts_with in Hs. congruence.
        -- apply (proj1 IH eq_refl x Hx).
Qed.

Lemma replaceWeek_some (weekStart : jsstring) (values : row)
  (rows rows' : list row) :
  WeeklyReport.replaceWeek weekStart values rows = Some rows' ->
  exists before r after,
    rows = before ++ r :: after /\
    (forall b, In b before -> ~ starts_with weekStart b) /\
    starts_with weekStart r /\
    rows' = before ++ WeeklyReport.setValues values r :: after.
Proof.
  revert rows'. induction rows as [|r rows IH]; intros rows';
    cbn [WeeklyReport.replaceWeek]; [discriminate|].
  destruct (WeeklyReport.is_week weekStart r) eqn:E.
  - intros H. injection H as <-. exists [], r, rows.
    split; [reflexivity|]. split; [intros b []|].
    split; [apply is_week_starts_with; exact E|reflexivity].
  - destruct (WeeklyReport.replaceWeek weekStart values rows) as [rest|];
      [|discriminate].
    intros H. injection H as <-.
    destruct (IH rest eq_refl) as [before [x [after [Hr [Hb [Hx Hrest]]]]]].
    exists (r :: before), x, after.
    split; [rewrite Hr; reflexivity|]. split.
    + intros b [<-|Hin]; [|apply Hb; exact Hin].
      intros Hs. apply is_week_starts_with in Hs. congruence.
    + split; [exact Hx|rewrite Hrest; reflexivity].
Qed.

(** [upsertReportRow] on a sheet that has a header row: when a row
    after the header starts with the week, the first such row has its
    first cells overwritten with the values of the result, and no row is
    added or moved; when no row does, the values are appended as a new
    last row.  The rows of other weeks are left as they were. *)
Theorem upsertReportRow_replace_or_append
  (cellToString : value -> jsstring) (result : WeeklyReport.ReportRow)
  (headerRow : row) (rows : list row) :
  let weekStart := WeeklyReport.row_weekStart result in
  let values := WeeklyReport.rowValues result in
  exists header,
    (header = headerRow \/
     header = WeeklyReport.setValues (map VString WeeklyReport.headers)
                                     headerRow) /\
    (((forall r, In r rows -> ~ starts_with weekStart r) /\
      WeeklyReport.upsertReportRow cellToString result (headerRow :: rows)
      = header :: rows ++ [values]) \/
     exists before r after,
       rows = before ++ r :: after /\
       (forall b, In b before -> ~ starts_with weekStart b) /\
       starts_with weekStart r /\
       WeeklyReport.upsertReportRow cellToString result (headerRow :: rows)
       = header :: before
           ++ (values ++ skipn (length values) r) :: after).
Proof.
  cbv zeta. unfold WeeklyReport.upsertReportRow. cbv zeta.
  match goal with
  | |- context [if ?c then headerRow else ?h] =>
      exists (if c then headerRow else h)
  end.
  split.
  - match goal with
    | |- context [if ?c then _ else _] => destruct c
    end; [left|right]; reflexivity.
  - destruct (WeeklyReport.replaceWeek (WeeklyReport.row_weekStart result)
                (WeeklyReport.rowValues result) rows) as [rows'|] eqn:E.
    + right. apply replaceWeek_some in E.
      destruct E as [before [r [after [Hr [Hb [Hs Hrows]]]]]].
      exists before, r, after. split; [exact Hr|]. split; [exact Hb|].
      split; [exact Hs|]. rewrite Hrows. reflexivity.
    + left. split; [|reflexivity].
      apply (proj1 (replaceWeek_none _ _ _) E).
Qed.

(** After [upsertReportRow] the sheet has one row more when no row after
    the header started with the week (two more on a sheet without rows,
    which gets the header too), and as many rows as before otherwise. *)
Lemma upsertReportRow_length
  (cellToString : value -> jsstring) (result : WeeklyReport.ReportRow)
  (data : list row) :
  length (WeeklyReport.upsertReportRow cellToString result data)
  = match data with
    | [] => 2%nat
    | _ :: rows =>
        if existsb (WeeklyReport.is_week (WeeklyReport.row_weekStart result))
                   rows
        then length data
        else S (length data)
    end.
Proof.
  destruct data as [|headerRow rows]; [reflexivity|].
  unfold WeeklyReport.upsertReportRow. cbv zeta.
  match goal with
  | |- context [if ?c then headerRow else ?h] =>
      generalize (if c then headerRow else h)
  end.
  intros header.
  assert (H : forall rs,
            match WeeklyReport.replaceWeek (WeeklyReport.row_weekStart result)
                    (WeeklyReport.rowValues result) rs with
            | Some rs' =>
                existsb (WeeklyReport.is_week
                           (WeeklyReport.row_weekStart result)) rs = true /\
                length rs' = length rs
            | None =>
                existsb (WeeklyReport.is_week
                           (WeeklyReport.row_weekStart result)) rs = false
            end).
  { induction rs as [|r rs IH];
      cbn [WeeklyReport.replaceWeek existsb]; [reflexivity|].
    destruct (WeeklyReport.is_week (WeeklyReport.row_weekStart result) r);
      cbn [orb]; [split; reflexivity|].
    destruct (WeeklyReport.replaceWeek (WeeklyReport.row_weekStart result)
                (WeeklyReport.rowValues result) rs).
    - destruct IH as [IH1 IH2]. split; [exact IH1|].
      cbn [length]. rewrite IH2. reflexivity.
    - exact IH. }
  specialize (H rows).
  destruct (WeeklyReport.replaceWeek (WeeklyReport.row_weekStart result)
              (WeeklyReport.rowValues result) rows).
  - destruct H as [-> Hl]. cbn [length]. rewrite Hl. reflexivity.
  - rewrite H. cbn [length]. rewrite length_app. cbn [length]. lia.
Qed.

(** ** Dates of the report sheet *)

Lemma js_mul_int (a b : Z) :
  Z.abs (a * b) < 2 ^ 53 ->
  js_mul (Fin (inject_Z a)) (Fin (inject_Z b)) = Fin (inject_Z (a * b)).
Proof.
  intros H. unfold js_mul.
  rewrite (round_double_den_1 _ (a * b)); [apply round_double_int; exact H| |].
  - reflexivity.
  - reflexivity.
Qed.

Lemma serialToKstDate_integer (n : Z) :
  - 99000000 <= n <= 100000000 ->
  Api.serialToKstDate (Fin (inject_Z n))
  = Some ((n - 25569) * 86400000 + 32400000).
Proof.
  intros Hn. unfold Api.serialToKstDate.
  change Api.EXCEL_EPOCH_MS with (- 2209161600000).
  change Api.MS_PER_DAY with 86400000.
  change Api.KST_OFFSET_MS with 32400000.
  assert (H53 : 2 ^ 53 = 9007199254740992) by reflexivity.
  rewrite js_mul_int by lia.
  rewrite js_add_int by lia.
  rewrite js_add_int by lia.
  unfold Api.new_Date_ms. rewrite trunc_int.
  assert (Hlo : Qle_bool (inject_Z (- 8640000000000000))
                  (inject_Z (- 2209161600000 + n * 86400000 + 32400000))
                = true).
  { apply Qle_bool_iff. unfold Qle, inject_Z. cbn [Qnum Qden]. lia. }
  assert (Hhi : Qle_bool
                  (inject_Z (- 2209161600000 + n * 86400000 + 32400000))
                  (inject_Z 8640000000000000) = true).
  { apply Qle_bool_iff. unfold Qle, inject_Z. cbn [Qnum Qden]. lia. }
  rewrite Hlo, Hhi. cbn [andb]. f_equal. lia.
Qed.

Lemma normalizeSerial_integer (n : Z) :
  - 99000000 <= n <= 100000000 ->
  Api.normalizeSerial (Fin (inject_Z n)) false
    = formatDate (Some (n - 25569)) /\
  Api.normalizeSerial (Fin (inject_Z n)) true
    = formatDate (Some (n - 25569)) ++ str " 09:00".
Proof.
  intros Hn. unfold Api.normalizeSerial. cbv zeta.
  rewrite (serialToKstDate_integer n Hn). unfold Api.field_string.
  assert (Hday : Api.utc_day ((n - 25569) * 86400000 + 32400000) = n - 25569).
  { unfold Api.utc_day. change Api.MS_PER_DAY with 86400000.
    Z.to_euclidean_division_equations. lia. }
  assert (Hh : (((n - 25569) * 86400000 + 32400000) mod Api.MS_PER_DAY)
               / 3600000 = 9).
  { change Api.MS_PER_DAY with 86400000.
    Z.to_euclidean_division_equations. lia. }
  assert (Hm : (((n - 25569) * 86400000 + 32400000) mod 3600000) / 60000 = 0).
  { Z.to_euclidean_division_equations. lia. }
  rewrite Hday, Hh, Hm. unfold formatDate. split; [reflexivity|].
  rewrite <- !app_assoc. cbn [app]. rewrite <- !app_assoc. reflexivity.
Qed.

(** [normalizeDateCell] on a serial number of the sheet that is an
    integer [n]: the date is the day [n] days after 1899-12-30, printed
    as [formatDate] of the web app prints it, and with the time it is
    followed by [09:00], the offset of the time zone. *)
Theorem normalizeDateCell_serial (n : Z) :
  - 99000000 <= n <= 100000000 ->
  Api.normalizeDateCell (VNumber (Fin (inject_Z n))) false
    = formatDate (Some (n - 25569)) /\
  Api.normalizeDateCell (VNumber (Fin (inject_Z n))) true
    = formatDate (Some (n - 25569)) ++ str " 09:00".
Proof. exact (normalizeSerial_integer n). Qed.

Lemma normalizeDateCell_serial_witness :
  Api.normalizeDateCell (VNumber (Fin (inject_Z 45453))) false
    = str "2024-06-10" /\
  Api.normalizeDateCell (VNumber (Fin (inject_Z 45453))) true
    = str "2024-06-10 09:00".
Proof.
  destruct (normalizeDateCell_serial 45453) as [H1 H2];
    [vm_compute; split; discriminate|].
  rewrite H1, H2. vm_compute. split; reflexivity.
Defined.

Lemma trim_digits (ds : jsstring) : all_digits ds -> trim ds = ds.
Proof.
  intros H. destruct ds as [|c ds]; [reflexivity|].
  assert (Hall : forall x, In x (c :: ds) -> is_whitespace x = false).
  { intros x Hx. apply digit_not_whitespace.
    unfold all_digits in H. rewrite forallb_forall in H. apply H. exact Hx. }
  destruct (rev (c :: ds)) as [|e t] eqn:Hr.
  - apply (f_equal (@length _)) in Hr. rewrite length_rev in Hr.
    discriminate Hr.
  - apply (trim_ends (c :: ds) c e); [reflexivity|rewrite Hr; reflexivity| |].
    + apply Hall. left. reflexivity.
    + apply Hall. apply in_rev. rewrite Hr. left. reflexivity.
Qed.

(** A cell that holds a serial number in digits is read as that number:
    [normalizeDateCell] gives the date of the day that many days after
    1899-12-30. *)
Theorem normalizeDateCell_digits (ds : jsstring) :
  ds <> [] -> all_digits ds -> digits_value ds <= 100000000 ->
  Api.normalizeDateCell (VString ds) false
  = formatDate (Some (digits_value ds - 25569)).
Proof.
  intros Hne Hds Hle. unfold Api.normalizeDateCell. cbv zeta.
  rewrite (trim_digits ds Hds).
  assert (Ht : Api.is_decimal_text ds = true).
  { unfold Api.is_decimal_text. rewrite (take_digits_all ds Hds).
    destruct ds; [congruence|reflexivity]. }
  rewrite Ht.
  assert (H53 : 100000000 < 2 ^ 53) by reflexivity.
  rewrite (StringToNumber_integer ds Hne Hds) by lia.
  pose proof (digits_value_nonneg ds Hds) as H0.
  apply normalizeSerial_integer. lia.
Qed.

Lemma normalizeDateCell_digits_witness :
  Api.normalizeDateCell (VString (str "45453")) false = str "2024-06-10".
Proof.
  rewrite (normalizeDateCell_digits (str "45453")).
  - vm_compute. reflexivity.
  - discriminate.
  - reflexivity.
  - vm_compute. discriminate.
Defined.

(** A cell that holds a string of the shape [YYYY-MM-DD], as the weekly
    job writes the start and the end of a week, is returned as it is,
    with the time or without. *)
Theorem normalizeDateCell_date_string (d : jsstring) (withTime : bool) :
  date_shaped d = true ->
  Api.normalizeDateCell (VString d) withTime = d.
Proof.
  intros H.
  destruct d as [|y1 [|y2 [|y3 [|y4 [|h1 [|m1 [|m2 [|h2 [|d1 [|d2 [|x rest]]]]]]]]]]];
    try discriminate.
  unfold date_shaped in H. cbn [forallb] in H.
  rewrite !andb_true_iff in H.
  destruct H as [[[Hy1 [Hy2 [Hy3 [Hy4 [Hm1 [Hm2 [Hd1 [Hd2 _]]]]]]]] Hh1] Hh2].
  apply N.eqb_eq in Hh1, Hh2. subst h1 h2.
  unfold Api.normalizeDateCell. cbv zeta.
  assert (Ht : trim [y1; y2; y3; y4; hyphen; m1; m2; hyphen; d1; d2]
               = [y1; y2; y3; y4; hyphen; m1; m2; hyphen; d1; d2]).
  { apply (trim_id y1 [y2; y3; y4; hyphen; m1; m2; hyphen; d1] d2);
      apply digit_not_whitespace; assumption. }
  rewrite Ht.
  assert (Hd : Api.is_decimal_text
                 [y1; y2; y3; y4; hyphen; m1; m2; hyphen; d1; d2] = false).
  { unfold Api.is_decimal_text.
    change [y1; y2; y3; y4; hyphen; m1; m2; hyphen; d1; d2]
      with ([y1; y2; y3; y4] ++ [hyphen; m1; m2; hyphen; d1; d2]).
    rewrite (take_digits_app [y1; y2; y3; y4]
               [hyphen; m1; m2; hyphen; d1; d2]).
    - reflexivity.
    - unfold all_digits. cbn [forallb]. rewrite Hy1, Hy2, Hy3, Hy4.
      reflexivity.
    - reflexivity. }
  rewrite Hd. reflexivity.
Qed.

Lemma normalizeDateCell_date_string_witness :
  Api.normalizeDateCell (VString (str "2024-06-10")) true = str "2024-06-10".
Proof.
  apply (normalizeDateCell_date_string (str "2024-06-10") true).
  reflexivity.
Defined.
